(** * bubblejail helper: protocol codec, reaper, terminator, watcher, shutdown

    Shallow embedding of [src/bubblejail/bubblejail_helper.py].

    Python values are modelled as the program uses them: a [str] is its
    sequence of code points, [bytes] is a sequence of byte values, a [dict]
    is an association list in insertion order, an exception is a value of
    [exn] carried by [result].  The operating system and the asyncio loop are
    modelled by the answers they give to the calls the helper makes (scripts
    of [waitpid]/[wait3] results, snapshots of [/proc], outcomes of awaits),
    and every effect the helper performs is recorded in a trace. *)

From Stdlib Require Import Strings.String Strings.Ascii.
From stdpp Require Import gmap.
From Stdlib Require Import ZArith List Bool Lia QArith.
Import ListNotations.
Local Open Scope Z_scope.

(** ** Python values *)

Module Py.

(** A [str]: the list of its code points. *)
Definition pystr := list Z.

(** [bytes]: the list of its byte values. *)
Definition bytes := list Z.

Definition str_lit (s : String.string) : pystr :=
  map (fun a => Z.of_N (Ascii.N_of_ascii a)) (String.list_ascii_of_string s).
Arguments str_lit s%_string.

(** A literal of JSON text, written with ['] where the text has a double
    quote. *)
Definition json_text (s : String.string) : pystr :=
  map (fun c => if c =? 39 then 34 else c) (str_lit s).
Arguments json_text s%_string.

Fixpoint str_eqb (a b : pystr) : bool :=
  match a, b with
  | [], [] => true
  | x :: a', y :: b' => (x =? y) && str_eqb a' b'
  | _, _ => false
  end.

(** Code points a [str] may hold. *)
Definition valid_code_point (c : Z) : Prop := 0 <= c <= 0x10FFFF.
Definition valid_str (s : pystr) : Prop := Forall valid_code_point s.

Definition is_high_surrogate (c : Z) : bool := (0xD800 <=? c) && (c <=? 0xDBFF).
Definition is_low_surrogate (c : Z) : bool := (0xDC00 <=? c) && (c <=? 0xDFFF).
Definition is_surrogate (c : Z) : bool := (0xD800 <=? c) && (c <=? 0xDFFF).

Inductive exn : Type :=
| KeyError (key : pystr)
| TypeError
| JSONDecodeError
| UnicodeDecodeError
| UnicodeEncodeError
| ChildProcessError
| CancelledError
| OSError
| OutOfFuel       (* the scanner's recursion bound; [json_loads] never reaches it *)
| OutsideModel.   (* a library behaviour this development does not model *)

Inductive result (A : Type) : Type :=
| Ok (a : A)
| Raise (e : exn).
Arguments Ok {A} a.
Arguments Raise {A} e.

Definition bind {A B} (r : result A) (k : A -> result B) : result B :=
  match r with
  | Ok a => k a
  | Raise e => Raise e
  end.

(** [str.encode()]: strict UTF-8. *)
Definition utf8_encode_char (c : Z) : result bytes :=
  if c <? 0x80 then Ok [c]
  else if c <? 0x800 then
    Ok [Z.lor 0xC0 (Z.shiftr c 6); Z.lor 0x80 (Z.land c 0x3F)]
  else if c <? 0x10000 then
    if is_surrogate c then Raise UnicodeEncodeError
    else Ok [Z.lor 0xE0 (Z.shiftr c 12);
             Z.lor 0x80 (Z.land (Z.shiftr c 6) 0x3F);
             Z.lor 0x80 (Z.land c 0x3F)]
  else
    Ok [Z.lor 0xF0 (Z.shiftr c 18);
        Z.lor 0x80 (Z.land (Z.shiftr c 12) 0x3F);
        Z.lor 0x80 (Z.land (Z.shiftr c 6) 0x3F);
        Z.lor 0x80 (Z.land c 0x3F)].

Fixpoint str_encode (s : pystr) : result bytes :=
  match s with
  | [] => Ok []
  | c :: s' =>
      bind (utf8_encode_char c) (fun bs =>
      bind (str_encode s') (fun rest => Ok (bs ++ rest)))
  end.

(** [bytes.decode()]: UTF-8; [surrogatepass] selects the error handler
    that lets encoded surrogates through, as [json.loads] does. *)
Definition is_cont (b : Z) : bool := (0x80 <=? b) && (b <=? 0xBF).

Fixpoint utf8_decode (surrogatepass : bool) (b : bytes) : result pystr :=
  match b with
  | [] => Ok []
  | b0 :: r =>
      if b0 <? 0x80 then
        bind (utf8_decode surrogatepass r) (fun s => Ok (b0 :: s))
      else if b0 <? 0xC2 then Raise UnicodeDecodeError
      else if b0 <? 0xE0 then
        match r with
        | b1 :: r1 =>
            if is_cont b1 then
              bind (utf8_decode surrogatepass r1) (fun s =>
              Ok (Z.lor (Z.shiftl (Z.land b0 0x1F) 6) (Z.land b1 0x3F) :: s))
            else Raise UnicodeDecodeError
        | _ => Raise UnicodeDecodeError
        end
      else if b0 <? 0xF0 then
        match r with
        | b1 :: b2 :: r2 =>
            let c := Z.lor (Z.shiftl (Z.land b0 0x0F) 12)
                       (Z.lor (Z.shiftl (Z.land b1 0x3F) 6) (Z.land b2 0x3F)) in
            if is_cont b1 && is_cont b2 && (0x800 <=? c)
               && (surrogatepass || negb (is_surrogate c)) then
              bind (utf8_decode surrogatepass r2) (fun s => Ok (c :: s))
            else Raise UnicodeDecodeError
        | _ => Raise UnicodeDecodeError
        end
      else if b0 <? 0xF5 then
        match r with
        | b1 :: b2 :: b3 :: r3 =>
            let c := Z.lor (Z.shiftl (Z.land b0 0x07) 18)
                       (Z.lor (Z.shiftl (Z.land b1 0x3F) 12)
                          (Z.lor (Z.shiftl (Z.land b2 0x3F) 6) (Z.land b3 0x3F))) in
            if is_cont b1 && is_cont b2 && is_cont b3
               && (0x10000 <=? c) && (c <=? 0x10FFFF) then
              bind (utf8_decode surrogatepass r3) (fun s => Ok (c :: s))
            else Raise UnicodeDecodeError
        | _ => Raise UnicodeDecodeError
        end
      else Raise UnicodeDecodeError
  end.

End Py.
Import Py.

Notation "'let!' x ':=' e 'in' k" := (bind e (fun x => k))
  (at level 10, x pattern, e at level 100, k at level 200).

(** ** The [json] module of the Python standard library

    [json.dumps] with its default options ([ensure_ascii=True], separators
    [", "] and [": "]) and [json.loads] on [bytes].  Numbers are integers;
    float literals and the UTF-16/UTF-32 encodings [json.loads] can detect
    are reported as [OutsideModel].  The interpreter's recursion limit and
    its limit on the number of digits of an integer are not modelled. *)

Module Json.

#[local] Unset Elimination Schemes.
Inductive json : Type :=
| JNull
| JBool (b : bool)
| JInt (z : Z)
| JStr (s : pystr)
| JList (l : list json)
| JObject (d : list (pystr * json)).
#[local] Set Elimination Schemes.

(** A Python [dict] with [str] keys, in insertion order. *)
Definition dict := list (pystr * json).

Fixpoint dict_get (d : dict) (k : pystr) : option json :=
  match d with
  | [] => None
  | (k', v) :: d' => if str_eqb k' k then Some v else dict_get d' k
  end.

(** [d[k] = v]: an existing key keeps its place. *)
Fixpoint dict_set (d : dict) (k : pystr) (v : json) : dict :=
  match d with
  | [] => [(k, v)]
  | (k', v') :: d' =>
      if str_eqb k' k then (k', v) :: d' else (k', v') :: dict_set d' k v
  end.

(** [d.pop(k)] for a key that is present. *)
Fixpoint dict_pop (d : dict) (k : pystr) : dict :=
  match d with
  | [] => []
  | (k', v) :: d' => if str_eqb k' k then d' else (k', v) :: dict_pop d' k
  end.

(** Truth value of a decoded JSON value ([if x], [x if c else y]). *)
Definition truthy (v : json) : bool :=
  match v with
  | JNull => false
  | JBool b => b
  | JInt z => negb (z =? 0)
  | JStr s => match s with [] => false | _ => true end
  | JList l => match l with [] => false | _ => true end
  | JObject d => match d with [] => false | _ => true end
  end.

(** *** Encoder *)

Definition hex_digit (d : Z) : Z := if d <? 10 then 48 + d else 87 + d.

(** ['{0:04x}'.format(n)] for [n < 0x10000]. *)
Definition hex4 (n : Z) : pystr :=
  [hex_digit (Z.land (Z.shiftr n 12) 15); hex_digit (Z.land (Z.shiftr n 8) 15);
   hex_digit (Z.land (Z.shiftr n 4) 15); hex_digit (Z.land n 15)].

Definition escape_char (c : Z) : pystr :=
  if c =? 34 then [92; 34]
  else if c =? 92 then [92; 92]
  else if c =? 10 then [92; 110]
  else if c =? 13 then [92; 114]
  else if c =? 9 then [92; 116]
  else if c =? 8 then [92; 98]
  else if c =? 12 then [92; 102]
  else if (32 <=? c) && (c <=? 126) then [c]
  else if c <? 0x10000 then 92 :: 117 :: hex4 c
  else
    let n := c - 0x10000 in
    (92 :: 117 :: hex4 (Z.lor 0xd800 (Z.land (Z.shiftr n 10) 0x3ff)))
      ++ (92 :: 117 :: hex4 (Z.lor 0xdc00 (Z.land n 0x3ff))).

Definition encode_basestring_ascii (s : pystr) : pystr :=
  34 :: flat_map escape_char s ++ [34].

Fixpoint uint_digits (u : Decimal.uint) : pystr :=
  match u with
  | Decimal.Nil => []
  | Decimal.D0 u' => 48 :: uint_digits u'
  | Decimal.D1 u' => 49 :: uint_digits u'
  | Decimal.D2 u' => 50 :: uint_digits u'
  | Decimal.D3 u' => 51 :: uint_digits u'
  | Decimal.D4 u' => 52 :: uint_digits u'
  | Decimal.D5 u' => 53 :: uint_digits u'
  | Decimal.D6 u' => 54 :: uint_digits u'
  | Decimal.D7 u' => 55 :: uint_digits u'
  | Decimal.D8 u' => 56 :: uint_digits u'
  | Decimal.D9 u' => 57 :: uint_digits u'
  end.

(** [int.__repr__]. *)
Definition int_repr (z : Z) : pystr :=
  match Z.to_int z with
  | Decimal.Pos u => uint_digits u
  | Decimal.Neg u => 45 :: uint_digits u
  end.

Fixpoint join (sep : pystr) (parts : list pystr) : pystr :=
  match parts with
  | [] => []
  | [p] => p
  | p :: rest => p ++ sep ++ join sep rest
  end.

Definition item_sep : pystr := Eval cbv in str_lit ", ".
Definition key_sep : pystr := Eval cbv in str_lit ": ".

Definition lit_null : pystr := Eval cbv in str_lit "null".
Definition lit_true : pystr := Eval cbv in str_lit "true".
Definition lit_false : pystr := Eval cbv in str_lit "false".

Fixpoint json_dumps (v : json) : pystr :=
  match v with
  | JNull => lit_null
  | JBool true => lit_true
  | JBool false => lit_false
  | JInt z => int_repr z
  | JStr s => encode_basestring_ascii s
  | JList l => 91 :: join item_sep (map json_dumps l) ++ [93]
  | JObject d =>
      123 :: join item_sep
               (map (fun kv => encode_basestring_ascii (fst kv)
                                 ++ key_sep ++ json_dumps (snd kv)) d)
          ++ [125]
  end.

(** *** Decoder *)

Definition hex_value (c : Z) : option Z :=
  if (48 <=? c) && (c <=? 57) then Some (c - 48)
  else if (97 <=? c) && (c <=? 102) then Some (c - 87)
  else if (65 <=? c) && (c <=? 70) then Some (c - 55)
  else None.

(** The four hexadecimal digits after [\u]. *)
Definition decode_uXXXX (h1 h2 h3 h4 : Z) : option Z :=
  match hex_value h1, hex_value h2, hex_value h3, hex_value h4 with
  | Some a, Some b, Some c, Some d => Some (((a * 16 + b) * 16 + c) * 16 + d)
  | _, _, _, _ => None
  end.

(** The one-letter escapes of the decoder's [BACKSLASH] table. *)
Definition backslash (e : Z) : option Z :=
  if e =? 34 then Some 34
  else if e =? 92 then Some 92
  else if e =? 47 then Some 47
  else if e =? 98 then Some 8
  else if e =? 102 then Some 12
  else if e =? 110 then Some 10
  else if e =? 114 then Some 13
  else if e =? 116 then Some 9
  else None.

(** [scanstring] in strict mode, from just after the opening quote:
    the decoded string and the text after the closing quote. *)
Fixpoint scanstring (s : list Z) : result (pystr * list Z) :=
  match s with
  | [] => Raise JSONDecodeError
  | c :: r =>
      if c =? 34 then Ok ([], r)
      else if c =? 92 then
        match r with
        | [] => Raise JSONDecodeError
        | e :: r1 =>
            if e =? 117 then
              match r1 with
              | h1 :: h2 :: h3 :: h4 :: r2 =>
                  match decode_uXXXX h1 h2 h3 h4 with
                  | None => Raise JSONDecodeError
                  | Some uni =>
                      let plain :=
                        let! (str, rest) := scanstring r2 in Ok (uni :: str, rest) in
                      if is_high_surrogate uni then
                        match r2 with
                        | b :: u :: r3 =>
                            if (b =? 92) && (u =? 117) then
                              match r3 with
                              | g1 :: g2 :: g3 :: g4 :: r4 =>
                                  match decode_uXXXX g1 g2 g3 g4 with
                                  | None => Raise JSONDecodeError
                                  | Some uni2 =>
                                      if is_low_surrogate uni2 then
                                        let! (str, rest) := scanstring r4 in
                                        Ok (0x10000
                                            + Z.lor (Z.shiftl (uni - 0xd800) 10)
                                                    (uni2 - 0xdc00) :: str, rest)
                                      else plain
                                  end
                              | _ => Raise JSONDecodeError
                              end
                            else plain
                        | _ => plain
                        end
                      else plain
                  end
              | _ => Raise JSONDecodeError
              end
            else
              match backslash e with
              | None => Raise JSONDecodeError
              | Some ch => let! (str, rest) := scanstring r1 in Ok (ch :: str, rest)
              end
        end
      else if c <? 32 then Raise JSONDecodeError
      else let! (str, rest) := scanstring r in Ok (c :: str, rest)
  end.

Definition is_ws (c : Z) : bool := (c =? 32) || (c =? 9) || (c =? 10) || (c =? 13).

Fixpoint skip_ws (s : list Z) : list Z :=
  match s with
  | c :: r => if is_ws c then skip_ws r else s
  | [] => []
  end.

Fixpoint strip_prefix (p s : list Z) : option (list Z) :=
  match p, s with
  | [], _ => Some s
  | x :: p', y :: s' => if x =? y then strip_prefix p' s' else None
  | _ :: _, [] => None
  end.

Definition starts_with (p s : list Z) : bool :=
  match strip_prefix p s with Some _ => true | None => false end.

Definition is_digit (c : Z) : bool := (48 <=? c) && (c <=? 57).

Fixpoint span_digits (s : list Z) : list Z * list Z :=
  match s with
  | c :: r =>
      if is_digit c then let (ds, rest) := span_digits r in (c :: ds, rest)
      else ([], s)
  | [] => ([], [])
  end.

Definition digits_value (ds : list Z) : Z :=
  fold_left (fun acc c => acc * 10 + (c - 48)) ds 0.

(** The integer part [0|[1-9][0-9]*] of [NUMBER_RE]. *)
Definition match_integer (s : list Z) : option (list Z * list Z) :=
  match s with
  | c :: r =>
      if c =? 48 then Some ([48], r)
      else if is_digit c then let (ds, rest) := span_digits r in Some (c :: ds, rest)
      else None
  | [] => None
  end.

(** The groups [(\.[0-9]+)] and [([eE][-+]?[0-9]+)] of [NUMBER_RE]. *)
Definition has_frac (s : list Z) : bool :=
  match s with
  | d :: c :: _ => (d =? 46) && is_digit c
  | _ => false
  end.

Definition has_exp (s : list Z) : bool :=
  match s with
  | e :: c :: r =>
      ((e =? 101) || (e =? 69))
      && (is_digit c
          || (((c =? 45) || (c =? 43))
              && match r with c' :: _ => is_digit c' | [] => false end))
  | _ => false
  end.

Definition scan_number (s : list Z) : option (result (json * list Z)) :=
  let (neg, body) :=
    match s with
    | c :: r => if c =? 45 then (true, r) else (false, s)
    | [] => (false, s)
    end in
  match match_integer body with
  | None => None
  | Some (ds, rest) =>
      if has_frac rest || has_exp rest then Some (Raise OutsideModel)
      else Some (Ok (JInt (if neg : bool then - digits_value ds else digits_value ds),
                     rest))
  end.

Definition lit_NaN : pystr := Eval cbv in str_lit "NaN".
Definition lit_Infinity : pystr := Eval cbv in str_lit "Infinity".
Definition lit_neg_Infinity : pystr := Eval cbv in str_lit "-Infinity".

(** [scan_once], [JSONObject] and [JSONArray] of [json.scanner] and
    [json.decoder].  [fuel] bounds the recursion; two units per character
    of the text are enough ([scan_once_fuel] below). *)
Fixpoint scan_once (fuel : nat) (s : list Z) {struct fuel} : result (json * list Z) :=
  match fuel with
  | O => Raise OutOfFuel
  | S f =>
      match s with
      | [] => Raise JSONDecodeError
      | c :: r =>
          if c =? 34 then
            let! (str, rest) := scanstring r in Ok (JStr str, rest)
          else if c =? 123 then
            match skip_ws r with
            | c' :: r' =>
                if c' =? 125 then Ok (JObject [], r')
                else if c' =? 34 then object_members f r' []
                else Raise JSONDecodeError
            | [] => Raise JSONDecodeError
            end
          else if c =? 91 then
            match skip_ws r with
            | c' :: r' =>
                if c' =? 93 then Ok (JList [], r')
                else array_elements f (c' :: r') []
            | [] => Raise JSONDecodeError
            end
          else
            match strip_prefix lit_null s, strip_prefix lit_true s,
                  strip_prefix lit_false s with
            | Some rest, _, _ => Ok (JNull, rest)
            | _, Some rest, _ => Ok (JBool true, rest)
            | _, _, Some rest => Ok (JBool false, rest)
            | None, None, None =>
                match scan_number s with
                | Some res => res
                | None =>
                    if starts_with lit_NaN s || starts_with lit_Infinity s
                       || starts_with lit_neg_Infinity s
                    then Raise OutsideModel
                    else Raise JSONDecodeError
                end
            end
      end
  end

(** From just after the opening quote of a key; [acc] is the dict so far. *)
with object_members (fuel : nat) (s : list Z) (acc : dict) {struct fuel}
  : result (json * list Z) :=
  match fuel with
  | O => Raise OutOfFuel
  | S f =>
      let! (key, r1) := scanstring s in
      match skip_ws r1 with
      | colon :: r2 =>
          if colon =? 58 then
            let! (value, r3) := scan_once f (skip_ws r2) in
            let acc' := dict_set acc key value in
            match skip_ws r3 with
            | c :: r4 =>
                if c =? 125 then Ok (JObject acc', r4)
                else if c =? 44 then
                  match skip_ws r4 with
                  | q :: r5 =>
                      if q =? 34 then object_members f r5 acc'
                      else Raise JSONDecodeError
                  | [] => Raise JSONDecodeError
                  end
                else Raise JSONDecodeError
            | [] => Raise JSONDecodeError
            end
          else Raise JSONDecodeError
      | [] => Raise JSONDecodeError
      end
  end

(** From the first character of an element; [acc] is the list so far. *)
with array_elements (fuel : nat) (s : list Z) (acc : list json) {struct fuel}
  : result (json * list Z) :=
  match fuel with
  | O => Raise OutOfFuel
  | S f =>
      let! (value, r1) := scan_once f s in
      let acc' := acc ++ [value] in
      match skip_ws r1 with
      | c :: r2 =>
          if c =? 93 then Ok (JList acc', r2)
          else if c =? 44 then array_elements f (skip_ws r2) acc'
          else Raise JSONDecodeError
      | [] => Raise JSONDecodeError
      end
  end.

(** [json.detect_encoding]. *)
Inductive encoding : Type := UTF8 | UTF8_SIG | UTF16_or_UTF32.

Definition detect_encoding (b : bytes) : encoding :=
  if starts_with [0; 0; 0xFE; 0xFF] b || starts_with [0xFF; 0xFE; 0; 0] b
     || starts_with [0xFE; 0xFF] b || starts_with [0xFF; 0xFE] b
  then UTF16_or_UTF32
  else if starts_with [0xEF; 0xBB; 0xBF] b then UTF8_SIG
  else
    match b with
    | [b0; b1] => if (b0 =? 0) || (b1 =? 0) then UTF16_or_UTF32 else UTF8
    | b0 :: b1 :: _ :: _ :: _ =>
        if (b0 =? 0) || (b1 =? 0) then UTF16_or_UTF32 else UTF8
    | _ => UTF8
    end.

(** [json.loads] on [bytes]: decode the bytes, skip white space, scan one
    value, and refuse anything but white space after it. *)
Definition json_loads (data : bytes) : result json :=
  let! payload :=
    match detect_encoding data with
    | UTF8 => Ok data
    | UTF8_SIG => Ok (skipn 3 data)
    | UTF16_or_UTF32 => Raise OutsideModel
    end in
  let! s := utf8_decode true payload in
  let! (obj, rest) := scan_once (S (length s + length s)) (skip_ws s) in
  match skip_ws rest with
  | [] => Ok obj
  | _ :: _ => Raise JSONDecodeError
  end.

End Json.
Import Json.

(** ** Effects

    Every call the helper makes to the operating system, to a stream or to
    the event loop is recorded, in order, in a trace.  The diagnostic lines
    printed under [__debug__] are left out, the reaper's excepted. *)

Inductive signal : Type := SIGTERM | SIGKILL.

(** What [waitpid(-1, WNOHANG)] answers: a pair, or [ChildProcessError]. *)
Inductive waitpid_result : Type :=
| WaitpidRet (pid status : Z)
| WaitpidChildProcessError.

(** What [wait3(WNOHANG)] answers; only the pid of the triple is used. *)
Inductive wait3_result : Type :=
| Wait3Ret (pid : Z)
| Wait3ChildProcessError.

(** Values of [asyncio.subprocess.PIPE], [STDOUT] and [DEVNULL]. *)
Definition PIPE : Z := -1.
Definition STDOUT : Z := -2.
Definition DEVNULL : Z := -3.

Inductive event : Type :=
(* reaper and forced terminator *)
| EvWaitpid (answer : waitpid_result)
| EvPrintReaped (exit_pid exit_code : Z)
| EvReadTaskChildren (tasks : list (list Z))
| EvKill (pid : Z) (sig : signal)
| EvWait3 (answer : wait3_result)
| EvSyncSleep (seconds : Q)
| EvCancelRunHelperTask
(* executor *)
| EvCreateSubprocess (args : json) (stdin stdout stderr : option Z)
| EvProcessWait
| EvProcessCommunicate
(* connection *)
| EvWrite (data : bytes)
| EvDrain
| EvWriterClose
| EvWriterWaitClosed
(* watcher and shutdown *)
| EvSleep (seconds : Z)
| EvCreateTaskStopAsync
| EvWatcherCancel
| EvAwaitWatcher
| EvServerClose
| EvServerWaitClosed
| EvTerminatedSet
| EvPrintTerminated.

Definition trace := list event.

(** Computations that perform effects and may raise. *)
Definition io (A : Type) : Type := (trace * result A)%type.

Definition io_ret {A} (a : A) : io A := ([], Ok a).

Definition io_bind {A B} (m : io A) (k : A -> io B) : io B :=
  match m with
  | (t, Ok a) => let (t', r) := k a in (t ++ t', r)
  | (t, Raise e) => (t, Raise e)
  end.

Definition emit (e : event) : io unit := ([e], Ok tt).

Definition lift {A} (r : result A) : io A := ([], r).

Notation "'do!' x ':=' m 'in' k" := (io_bind m (fun x => k))
  (at level 10, x pattern, m at level 100, k at level 200).
Notation "m ';;' k" := (io_bind m (fun _ => k))
  (at level 100, k at level 200, right associativity).

(** ** Protocol codec and request model *)

Definition key_id : pystr := Eval cbv in str_lit "id".
Definition key_request_id : pystr := Eval cbv in str_lit "request_id".
Definition key_method : pystr := Eval cbv in str_lit "method".
Definition key_params : pystr := Eval cbv in str_lit "params".
Definition key_result : pystr := Eval cbv in str_lit "result".
Definition key_return : pystr := Eval cbv in str_lit "return".
Definition key_args_to_run : pystr := Eval cbv in str_lit "args_to_run".
Definition key_wait_response : pystr := Eval cbv in str_lit "wait_response".
Definition lit_ping : pystr := Eval cbv in str_lit "ping".
Definition lit_run : pystr := Eval cbv in str_lit "run".
Definition lit_pong : pystr := Eval cbv in str_lit "pong".

(** [obj[key]]: only a dict can be indexed by a string. *)
Definition getitem (obj : json) (key : pystr) : result json :=
  match obj with
  | JObject d =>
      match dict_get d key with
      | Some v => Ok v
      | None => Raise (KeyError key)
      end
  | _ => Raise TypeError
  end.

(** The fields every request object carries.  A request id is declared
    [str | None]; a decoded one is whatever JSON value the line held. *)
Record JsonRpcRequest : Type := {
  request_id : json;
  method : pystr;
  params : json;
}.

Definition _dict_to_json_byte_line (rpc_dict : dict) : result bytes :=
  let string_form := json_dumps (JObject rpc_dict) ++ [10] in
  str_encode string_form.

Definition _json_byte_line_to_dict (data : bytes) : result dict :=
  let! decoded_dict := json_loads data in
  let! id := getitem decoded_dict key_id in
  match decoded_dict with
  | JObject d => Ok (dict_pop (dict_set d key_request_id id) key_id)
  | _ => Raise TypeError
  end.

Definition to_json_byte_line (self : JsonRpcRequest) : result bytes :=
  let dict_form :=
    [(key_id, request_id self);
     (key_method, JStr (method self));
     (key_params, params self)] in
  _dict_to_json_byte_line dict_form.

Definition _get_reponse_bytes (self : JsonRpcRequest) (rpc_data : json)
  : result bytes :=
  let response_dict := [(key_id, request_id self); (key_result, rpc_data)] in
  _dict_to_json_byte_line response_dict.

(** The two request classes. *)
Inductive RpcRequests : Type :=
| RequestPing_obj (base : JsonRpcRequest)
| RequestRun_obj (base : JsonRpcRequest) (args_to_run wait_response : json).

Definition request_base (r : RpcRequests) : JsonRpcRequest :=
  match r with
  | RequestPing_obj base => base
  | RequestRun_obj base _ _ => base
  end.

(** [RequestPing(request_id=...)]. *)
Definition RequestPing (request_id : json) : RpcRequests :=
  RequestPing_obj
    {| request_id := request_id; method := lit_ping; params := JNull |}.

Definition response_ping (self : JsonRpcRequest) : result bytes :=
  _get_reponse_bytes self (JList [JStr lit_pong]).

(** [RequestRun(args_to_run, wait_response, request_id)]. *)
Definition RequestRun (args_to_run wait_response request_id : json) : RpcRequests :=
  RequestRun_obj
    {| request_id := request_id;
       method := lit_run;
       params := JObject [(key_args_to_run, args_to_run);
                          (key_wait_response, wait_response)] |}
    args_to_run wait_response.

Definition response_run (self : JsonRpcRequest) (text : pystr) : result bytes :=
  _get_reponse_bytes self (JObject [(key_return, JStr text)]).

(** [RequestRun(request_id=request_id, **params)]: [params] must be a
    mapping, its keys must be parameters of the constructor other than the
    one already passed, [args_to_run] is required and [wait_response]
    defaults to [False]. *)
Definition RequestRun_kwargs (request_id params : json) : result RpcRequests :=
  match params with
  | JObject kw =>
      if forallb (fun kv => str_eqb (fst kv) key_args_to_run
                            || str_eqb (fst kv) key_wait_response) kw
      then
        match dict_get kw key_args_to_run with
        | None => Raise TypeError
        | Some args_to_run =>
            let wait_response :=
              match dict_get kw key_wait_response with
              | Some w => w
              | None => JBool false
              end in
            Ok (RequestRun args_to_run wait_response request_id)
        end
      else Raise TypeError
  | _ => Raise TypeError
  end.

Definition request_selector (data : bytes) : result RpcRequests :=
  let! decoded_dict := _json_byte_line_to_dict data in
  let! method := getitem (JObject decoded_dict) key_method in
  let! request_id := getitem (JObject decoded_dict) key_request_id in
  let! params := getitem (JObject decoded_dict) key_params in
  match method with
  | JStr m =>
      if str_eqb m lit_ping then Ok (RequestPing request_id)
      else if str_eqb m lit_run then RequestRun_kwargs request_id params
      else Raise TypeError
  | _ => Raise TypeError
  end.

(** ** Reaper *)

(** [handle_children] against the answers [waitpid] gives, in order.  The
    result is the trace, whether the function returned ([None]: the script
    of answers ended while the loop was still running) and the answers not
    consumed. *)
Fixpoint handle_children (os : list waitpid_result)
  : trace * option (result unit) * list waitpid_result :=
  match os with
  | [] => ([], None, [])
  | WaitpidChildProcessError :: os' =>
      ([EvWaitpid WaitpidChildProcessError], Some (Ok tt), os')
  | WaitpidRet exit_pid exit_code :: os' =>
      if (exit_pid =? 0) && (exit_code =? 0) then
        ([EvWaitpid (WaitpidRet exit_pid exit_code)], Some (Ok tt), os')
      else if exit_pid =? 0 then
        ([EvWaitpid (WaitpidRet exit_pid exit_code)], Some (Ok tt), os')
      else
        let '(t, r, rest) := handle_children os' in
        (EvWaitpid (WaitpidRet exit_pid exit_code)
           :: EvPrintReaped exit_pid exit_code :: t, r, rest)
  end.

(** ** Forced terminator *)

Record terminator_state : Type := {
  signal_counter : Z;
  pids_sigtermed : gset Z;
}.

(** The inner loop of [signal_all_children]: the pids of one children file. *)
Fixpoint signal_pids (signal_counter : Z) (pids : list Z) (pids_sigtermed : gset Z)
  : gset Z * trace :=
  match pids with
  | [] => (pids_sigtermed, [])
  | pid :: rest =>
      if signal_counter >? 20 then
        let (s, t) := signal_pids signal_counter rest pids_sigtermed in
        (s, EvKill pid SIGKILL :: t)
      else if bool_decide (pid ∈ pids_sigtermed) then
        signal_pids signal_counter rest pids_sigtermed
      else
        let (s, t) := signal_pids signal_counter rest ({[pid]} ∪ pids_sigtermed) in
        (s, EvKill pid SIGTERM :: t)
  end.

(** The outer loop: the task directories of [/proc/self/task]. *)
Fixpoint signal_tasks (signal_counter : Z) (tasks : list (list Z))
  (pids_sigtermed : gset Z) : gset Z * trace :=
  match tasks with
  | [] => (pids_sigtermed, [])
  | children_file_pids :: tasks' =>
      let (s1, t1) := signal_pids signal_counter children_file_pids pids_sigtermed in
      let (s2, t2) := signal_tasks signal_counter tasks' s1 in
      (s2, t1 ++ t2)
  end.

(** [proc n] is what the children files hold when [signal_all_children]
    runs with [signal_counter = n]. *)
Definition signal_all_children (proc : Z -> list (list Z)) (st : terminator_state)
  : terminator_state * trace :=
  let counter := signal_counter st + 1 in
  let tasks := proc counter in
  let (s, t) := signal_tasks counter tasks (pids_sigtermed st) in
  ({| signal_counter := counter; pids_sigtermed := s |},
   EvReadTaskChildren tasks :: t).

(** The [while True] loop against the answers [wait3] gives; [false] when
    the script of answers ended while the loop was still running. *)
Fixpoint collection_loop (proc : Z -> list (list Z)) (os : list wait3_result)
  (st : terminator_state) : trace * bool :=
  match os with
  | [] => ([], false)
  | Wait3ChildProcessError :: _ => ([EvWait3 Wait3ChildProcessError], true)
  | Wait3Ret pid_reaped :: os' =>
      if pid_reaped =? 0 then
        let (st', t1) := signal_all_children proc st in
        let (t2, fin) := collection_loop proc os' st' in
        (EvWait3 (Wait3Ret pid_reaped) :: EvSyncSleep (1 # 2) :: t1 ++ t2, fin)
      else
        let (t2, fin) := collection_loop proc os' st in
        (EvWait3 (Wait3Ret pid_reaped) :: t2, fin)
  end.

Definition terminate_children (proc : Z -> list (list Z)) (os : list wait3_result)
  : trace * bool :=
  let st0 := {| signal_counter := 0; pids_sigtermed := ∅ |} in
  let (st1, t1) := signal_all_children proc st0 in
  let (t2, fin) := collection_loop proc os st1 in
  if fin then (t1 ++ t2 ++ [EvCancelRunHelperTask], true)
  else (t1 ++ t2, false).

(** ** Process executor and connection handler *)

(** A spawned process, as far as [run_command] looks at it: the merged
    output [communicate()] hands back. *)
Record process : Type := { communicate_stdout : bytes }.

Section Connection.

(** What [create_subprocess_exec( *args_to_run, ...)] gives for an argument
    vector: the process, or the exception of a failed spawn. *)
Variable create_subprocess_exec : json -> result process.

Definition mode_is (std_in_out_mode : option Z) (m : Z) : bool :=
  match std_in_out_mode with
  | Some v => v =? m
  | None => false
  end.

Definition run_command (args_to_run : json) (std_in_out_mode : option Z)
  : io (option pystr) :=
  do! p :=
    (if mode_is std_in_out_mode DEVNULL then
       do! _ := emit (EvCreateSubprocess args_to_run
                        (Some DEVNULL) (Some DEVNULL) (Some DEVNULL)) in
       lift (create_subprocess_exec args_to_run)
     else if mode_is std_in_out_mode PIPE then
       do! _ := emit (EvCreateSubprocess args_to_run
                        (Some PIPE) (Some PIPE) (Some STDOUT)) in
       lift (create_subprocess_exec args_to_run)
     else
       do! _ := emit (EvCreateSubprocess args_to_run None None None) in
       lift (create_subprocess_exec args_to_run)) in
  match std_in_out_mode with
  | None =>
      do! _ := emit EvProcessWait in
      io_ret None
  | Some m =>
      if m =? PIPE then
        do! _ := emit EvProcessCommunicate in
        do! text := lift (utf8_decode false (communicate_stdout p)) in
        io_ret (Some text)
      else io_ret None
  end.

(** [client_handler] against the lines [reader.readline()] gives; the end
    of the list is the end of the stream, where [readline] gives [b'']. *)
Fixpoint client_handler (reader : list bytes) : io unit :=
  match reader with
  | [] =>
      do! _ := emit EvWriterClose in
      do! _ := emit EvWriterWaitClosed in
      io_ret tt
  | [] :: _ =>
      do! _ := emit EvWriterClose in
      do! _ := emit EvWriterWaitClosed in
      io_ret tt
  | line :: reader' =>
      do! request := lift (request_selector line) in
      match request with
      | RequestPing_obj base =>
          do! response := lift (response_ping base) in
          do! _ := emit (EvWrite response) in
          do! _ := emit EvDrain in
          client_handler reader'
      | RequestRun_obj base args_to_run wait_response =>
          do! run_stdout :=
            run_command args_to_run
              (if truthy wait_response then Some PIPE else None) in
          match run_stdout with
          | None => client_handler reader'
          | Some text =>
              do! response := lift (response_run base text) in
              do! _ := emit (EvWrite response) in
              do! _ := emit EvDrain in
              client_handler reader'
          end
      end
  end.

End Connection.

(** ** Helper state, liveness watcher, graceful shutdown *)

(** [Task.done()]. *)
Inductive task_status : Type := TaskPending | TaskDone.

Inductive server_status : Type := ServerServing | ServerClosed.

Record BubblejailHelper : Type := {
  startup_args : list pystr;
  server : option server_status;
  terminated : bool;
  terminator_look_for_command : option pystr;
  terminator_pool_timer : Z;
  termninator_watcher_task : option task_status;
  ready_event : bool;
}.

Definition with_watcher_task (self : BubblejailHelper) (t : option task_status) :=
  {| startup_args := startup_args self;
     server := server self;
     terminated := terminated self;
     terminator_look_for_command := terminator_look_for_command self;
     terminator_pool_timer := terminator_pool_timer self;
     termninator_watcher_task := t;
     ready_event := ready_event self |}.

Definition with_server (self : BubblejailHelper) (s : option server_status) :=
  {| startup_args := startup_args self;
     server := s;
     terminated := terminated self;
     terminator_look_for_command := terminator_look_for_command self;
     terminator_pool_timer := terminator_pool_timer self;
     termninator_watcher_task := termninator_watcher_task self;
     ready_event := ready_event self |}.

Definition with_terminated (self : BubblejailHelper) (b : bool) :=
  {| startup_args := startup_args self;
     server := server self;
     terminated := b;
     terminator_look_for_command := terminator_look_for_command self;
     terminator_pool_timer := terminator_pool_timer self;
     termninator_watcher_task := termninator_watcher_task self;
     ready_event := ready_event self |}.

(** What the watcher reads from [/proc] after one sleep: the contents of
    the children files of this process's tasks, and for a command name
    whether some process of the system carries it. *)
Record proc_view : Type := {
  children_files : list pystr;
  proc_has_process_command : pystr -> bool;
}.

Definition process_has_child (view : proc_view) : bool :=
  existsb (fun children_file_contents =>
             match children_file_contents with [] => false | _ :: _ => true end)
          (children_files view).

(** One turn of the watcher's loop, as the event loop decides it: the
    sleep completes and [/proc] is read, or [CancelledError] is raised at
    the sleep. *)
Inductive sleep_outcome : Type :=
| Slept (view : proc_view)
| SleepCancelled.

(** [termninator_watcher] against the outcomes of its sleeps; [false] when
    the script of outcomes ended while the task was still sleeping. *)
Fixpoint termninator_watcher (self : BubblejailHelper) (sleeps : list sleep_outcome)
  : trace * bool :=
  match sleeps with
  | [] => ([], false)
  | SleepCancelled :: _ => ([EvSleep (terminator_pool_timer self)], true)
  | Slept view :: sleeps' =>
      let is_time_to_termniate :=
        match terminator_look_for_command self with
        | None => negb (process_has_child view)
        | Some command => negb (proc_has_process_command view command)
        end in
      if is_time_to_termniate then
        ([EvSleep (terminator_pool_timer self); EvCreateTaskStopAsync], true)
      else
        let (t, returned) := termninator_watcher self sleeps' in
        (EvSleep (terminator_pool_timer self) :: t, returned)
  end.

(** Computations on the helper's state. *)
Definition helper_io (A : Type) : Type :=
  BubblejailHelper -> trace * BubblejailHelper * result A.

Definition helper_bind {A B} (m : helper_io A) (k : A -> helper_io B) : helper_io B :=
  fun self =>
    match m self with
    | (t, self', Ok a) =>
        let '(t', self'', r) := k a self' in (t ++ t', self'', r)
    | (t, self', Raise e) => (t, self', Raise e)
    end.

Notation "'step!' x ':=' m 'in' k" := (helper_bind m (fun x => k))
  (at level 10, x pattern, m at level 100, k at level 200).

(** What the two awaits of [stop_async] deliver: the awaited operation
    completes, or an exception is raised at the await.  A watcher cancelled
    at its sleep catches [CancelledError] and returns, so awaiting it
    completes; a watcher cancelled before its first step ends cancelled,
    and awaiting it raises [CancelledError].  Either way the watcher task
    is done once the await is over. *)
Record stop_awaits : Type := {
  await_watcher_task : result unit;
  await_wait_closed : result unit;
}.

Definition awaits_complete : stop_awaits :=
  {| await_watcher_task := Ok tt; await_wait_closed := Ok tt |}.

Definition stop_async (awaits : stop_awaits) : helper_io unit :=
  step! _ :=
    (fun self =>
       match termninator_watcher_task self with
       | Some TaskPending =>
           match await_watcher_task awaits with
           | Ok _ => ([EvWatcherCancel; EvAwaitWatcher],
                      with_watcher_task self (Some TaskDone), Ok tt)
           | Raise e => ([EvWatcherCancel; EvAwaitWatcher],
                         with_watcher_task self (Some TaskDone), Raise e)
           end
       | _ => ([], self, Ok tt)
       end) in
  step! _ :=
    (fun self =>
       match server self with
       | Some _ =>
           match await_wait_closed awaits with
           | Ok _ => ([EvServerClose; EvServerWaitClosed],
                      with_server self (Some ServerClosed), Ok tt)
           | Raise e => ([EvServerClose; EvServerWaitClosed],
                         with_server self (Some ServerClosed), Raise e)
           end
       | None => ([], self, Ok tt)
       end) in
  fun self =>
    ([EvTerminatedSet; EvPrintTerminated], with_terminated self true, Ok tt).

(** ** Vocabulary of the statements *)

(** *** Reaper *)

Definition exit_answer (r : Z * Z) : waitpid_result := WaitpidRet (fst r) (snd r).

(** What the reaper does with one exit record: the call that collects it
    and the diagnostic line. *)
Definition reaped_events (r : Z * Z) : trace :=
  [EvWaitpid (exit_answer r); EvPrintReaped (fst r) (snd r)].

(** The two answers that end the reaper's loop: no child at all, or no
    exited child pending. *)
Definition ends_reaping (a : waitpid_result) : Prop :=
  a = WaitpidChildProcessError \/ exists c, a = WaitpidRet 0 c.

(** *** Liveness watcher *)

Definition liveness_predicate (self : BubblejailHelper) (view : proc_view) : bool :=
  match terminator_look_for_command self with
  | None => process_has_child view
  | Some command => proc_has_process_command view command
  end.

Definition all_alive (self : BubblejailHelper) (views : list proc_view) : Prop :=
  Forall (fun view => liveness_predicate self view = true) views.

Definition sleeps_of (self : BubblejailHelper) (n : nat) : trace :=
  repeat (EvSleep (terminator_pool_timer self)) n.

(** *** Graceful shutdown *)

Definition watcher_steps (self : BubblejailHelper) : trace :=
  match termninator_watcher_task self with
  | Some TaskPending => [EvWatcherCancel; EvAwaitWatcher]
  | _ => []
  end.

Definition server_steps (self : BubblejailHelper) : trace :=
  match server self with
  | Some _ => [EvServerClose; EvServerWaitClosed]
  | None => []
  end.

Definition graceful_steps (self : BubblejailHelper) : trace :=
  watcher_steps self ++ server_steps self ++ [EvTerminatedSet; EvPrintTerminated].

Definition stopped (self : BubblejailHelper) : BubblejailHelper :=
  {| startup_args := startup_args self;
     server := match server self with
               | Some _ => Some ServerClosed
               | None => None
               end;
     terminated := true;
     terminator_look_for_command := terminator_look_for_command self;
     terminator_pool_timer := terminator_pool_timer self;
     termninator_watcher_task := match termninator_watcher_task self with
                                 | Some _ => Some TaskDone
                                 | None => None
                                 end;
     ready_event := ready_event self |}.

(** *** Executor *)

(** The spec's three stdio modes as values of [std_in_out_mode]. *)
Definition Inherit : option Z := None.
Definition Captured : option Z := Some PIPE.
Definition Discarded : option Z := Some DEVNULL.

(** The trace holds an await of the child's exit. *)
Definition awaits_exit (t : trace) : Prop :=
  In EvProcessWait t \/ In EvProcessCommunicate t.

(** *** Sample values used to run the statements *)

Definition sample_helper : BubblejailHelper :=
  {| startup_args := [str_lit "/bin/sh"];
     server := Some ServerServing;
     terminated := false;
     terminator_look_for_command := None;
     terminator_pool_timer := 5;
     termninator_watcher_task := Some TaskPending;
     ready_event := true |}.

Definition busy_view : proc_view :=
  {| children_files := [str_lit "4242 "];
     proc_has_process_command := fun _ => false |}.

Definition idle_view : proc_view :=
  {| children_files := [[]];
     proc_has_process_command := fun _ => false |}.

Definition sample_output : bytes := Eval cbv in str_lit "hello" ++ [10].

Definition sample_process : process := {| communicate_stdout := sample_output |}.

Definition sample_spawn (args : json) : result process := Ok sample_process.

Definition sample_args : json := JList [JStr (str_lit "echo"); JStr (str_lit "hello")].

(** *** Forced terminator *)

(** A non-blocking collection attempt that found no child ready. *)
Definition failed_attempt (e : event) : bool :=
  match e with
  | EvWait3 (Wait3Ret pid) => pid =? 0
  | _ => false
  end.

Fixpoint failed_attempts (t : trace) : Z :=
  match t with
  | [] => 0
  | e :: t' => (if failed_attempt e then 1 else 0) + failed_attempts t'
  end.

Definition is_broadcast (e : event) : bool :=
  match e with
  | EvReadTaskChildren _ => true
  | _ => false
  end.

Fixpoint broadcasts (t : trace) : Z :=
  match t with
  | [] => 0
  | e :: t' => (if is_broadcast e then 1 else 0) + broadcasts t'
  end.

Definition kill_all (tasks : list (list Z)) : trace :=
  map (fun pid => EvKill pid SIGKILL) (concat tasks).

(** The escalation rule read along a trace, [failed] being the number of
    failed attempts so far: a signal is a kill signal exactly from the
    twentieth failed attempt on, and from then on a broadcast sends one to
    every child it lists. *)
Fixpoint escalation_ok (failed : Z) (t : trace) : Prop :=
  match t with
  | [] => True
  | EvWait3 (Wait3Ret pid) :: t' =>
      escalation_ok (if pid =? 0 then failed + 1 else failed) t'
  | EvKill pid sig :: t' =>
      (sig = SIGKILL <-> 20 <= failed) /\ escalation_ok failed t'
  | EvReadTaskChildren tasks :: t' =>
      (20 <= failed -> exists later, t' = kill_all tasks ++ later)
      /\ escalation_ok failed t'
  | _ :: t' => escalation_ok failed t'
  end.

(** The claim of the spec that a reap is followed by a re-broadcast. *)
Definition rebroadcast_after_reap (t : trace) : Prop :=
  forall pre pid post,
    t = pre ++ EvWait3 (Wait3Ret pid) :: post ->
    pid <> 0 ->
    exists tasks post', post = EvReadTaskChildren tasks :: post'.

(** The claim of the spec that kill signals start after the 21st failed
    attempt: a signal is a kill signal exactly when more than 20 failed
    attempts precede it. *)
Definition kill_after_21_failed_attempts (t : trace) : Prop :=
  forall pre pid sig post,
    t = pre ++ EvKill pid sig :: post ->
    (sig = SIGKILL <-> 20 < failed_attempts pre).

Definition one_stubborn_child (signal_counter : Z) : list (list Z) := [[7]].
Definition two_children (signal_counter : Z) : list (list Z) := [[7; 8]].

Definition twenty_failures : list wait3_result := repeat (Wait3Ret 0) 20.

(** *** Request decoding *)

(** The dispatch of [request_selector] on the three values it reads. *)
Definition select (method request_id params : json) : result RpcRequests :=
  match method with
  | JStr m =>
      if str_eqb m lit_ping then Ok (RequestPing request_id)
      else if str_eqb m lit_run then RequestRun_kwargs request_id params
      else Raise TypeError
  | _ => Raise TypeError
  end.


(** *** Codec *)

(** Induction on JSON values, through the lists they nest. *)
Fixpoint json_nested_ind (P : json -> Prop)
    (Hnull : P JNull) (Hbool : forall b, P (JBool b)) (Hint : forall z, P (JInt z))
    (Hstr : forall s, P (JStr s))
    (Hlist : forall l, Forall P l -> P (JList l))
    (Hobj : forall d, Forall (fun kv => P (snd kv)) d -> P (JObject d))
    (v : json) {struct v} : P v :=
  match v with
  | JNull => Hnull
  | JBool b => Hbool b
  | JInt z => Hint z
  | JStr s => Hstr s
  | JList l =>
      Hlist l ((fix go (l : list json) : Forall P l :=
                  match l with
                  | [] => Forall_nil P
                  | x :: l' =>
                      Forall_cons P x l'
                        (json_nested_ind P Hnull Hbool Hint Hstr Hlist Hobj x) (go l')
                  end) l)
  | JObject d =>
      Hobj d ((fix go (d : list (pystr * json)) : Forall (fun kv => P (snd kv)) d :=
                 match d with
                 | [] => Forall_nil _
                 | kv :: d' =>
                     Forall_cons (fun kv => P (snd kv)) kv d'
                       (json_nested_ind P Hnull Hbool Hint Hstr Hlist Hobj (snd kv))
                       (go d')
                 end) d)
  end.

(** Text that [str.encode()] leaves as it is, byte for byte. *)
Definition ascii_text (s : list Z) : Prop := Forall (fun c => 0 <= c < 128) s.

(** No UTF-16 high surrogate is directly followed by a low surrogate. *)
Fixpoint no_surrogate_pair (s : pystr) : bool :=
  match s with
  | [] => true
  | c :: s' =>
      match s' with
      | c2 :: _ => negb (is_high_surrogate c && is_low_surrogate c2)
      | [] => true
      end && no_surrogate_pair s'
  end.

(** What the decoder must not find after the escape of a high surrogate:
    the escape of a low surrogate, or a malformed [\u] escape. *)
Definition safe_after_high (tail : list Z) : bool :=
  match tail with
  | b :: u :: r3 =>
      if (b =? 92) && (u =? 117) then
        match r3 with
        | g1 :: g2 :: g3 :: g4 :: _ =>
            match decode_uXXXX g1 g2 g3 g4 with
            | Some uni2 => negb (is_low_surrogate uni2)
            | None => false
            end
        | _ => false
        end
      else true
  | _ => true
  end.

(** The decoder read the code point [c] and goes on with [tail]. *)
Definition scanned (c : Z) (tail : list Z) : result (pystr * list Z) :=
  let! (str, rest) := scanstring tail in Ok (c :: str, rest).

(** The two halves written for a code point beyond the basic plane. *)
Definition high_half (c : Z) : Z :=
  Z.lor 0xd800 (Z.land (Z.shiftr (c - 0x10000) 10) 0x3ff).
Definition low_half (c : Z) : Z :=
  Z.lor 0xdc00 (Z.land (c - 0x10000) 0x3ff).

(** A request id of the declared type [str | None]. *)
Definition id_value (request_id : option pystr) : json :=
  match request_id with
  | Some s => JStr s
  | None => JNull
  end.

Definition ping_line_head : pystr := Eval cbv in json_text "{'id': ".
Definition ping_line_tail : pystr :=
  Eval cbv in json_text ", 'method': 'ping', 'params': null}" ++ [10].
Definition ping_response_tail : pystr :=
  Eval cbv in json_text ", 'result': ['pong']}" ++ [10].

(** The wire form of a Ping request, and of the response to it. *)
Definition ping_line (request_id : json) : bytes :=
  ping_line_head ++ json_dumps request_id ++ ping_line_tail.
Definition ping_response (request_id : json) : bytes :=
  ping_line_head ++ json_dumps request_id ++ ping_response_tail.

(** The ids for which encoding and decoding a request is the identity:
    [None], and the strings without a surrogate pair. *)
Definition id_round_trips (request_id : option pystr) : Prop :=
  match request_id with
  | Some s => valid_str s /\ no_surrogate_pair s = true
  | None => True
  end.

(** The claim of the spec: every id of the declared type round-trips. *)
Definition every_ping_round_trips : Prop :=
  forall request_id : option pystr,
    match request_id with Some s => valid_str s | None => True end ->
    exists line,
      to_json_byte_line (request_base (RequestPing (id_value request_id))) = Ok line
      /\ request_selector line = Ok (RequestPing (id_value request_id)).

(** Sample lines. *)
Definition line_ping_without_params : bytes :=
  Eval cbv in json_text "{'id': null, 'method': 'ping'}" ++ [10].
Definition line_ping_id_7 : bytes :=
  Eval cbv in json_text "{'id': 7, 'method': 'ping', 'params': null}" ++ [10].
Definition line_run_ls : bytes :=
  Eval cbv in
    json_text "{'id': 'a', 'method': 'run', 'params': {'args_to_run': ['ls']}}"
    ++ [10].
Definition args_ls : json := JList [JStr (str_lit "ls")].

(** The claim of the spec about a run request without [wait_response]:
    params that hold [args_to_run] and no [wait_response] are accepted,
    with [wait_response] false. *)
Definition run_accepted_without_wait_response (data : bytes) : Prop :=
  forall d request_id kw args_to_run,
    json_loads data = Ok (JObject d) ->
    dict_get d key_id = Some request_id ->
    dict_get d key_method = Some (JStr lit_run) ->
    dict_get d key_params = Some (JObject kw) ->
    dict_get kw key_args_to_run = Some args_to_run ->
    dict_get kw key_wait_response = None ->
    request_selector data = Ok (RequestRun args_to_run (JBool false) request_id).

(** A scanning step that did not run out of fuel and, when it produced a
    value, left less text than [s]. *)
Definition consumes {A} (res : result (A * list Z)) (s : list Z) : Prop :=
  res <> Raise OutOfFuel
  /\ forall a r, res = Ok (a, r) -> (length r < length s)%nat.

(** ** Further vocabulary *)

(** The keyword arguments [RequestRun] accepts besides [request_id]. *)
Definition run_keywords_ok (kw : dict) : bool :=
  forallb (fun kv => str_eqb (fst kv) key_args_to_run
                     || str_eqb (fst kv) key_wait_response) kw.

Definition run_response_mid : pystr := Eval cbv in json_text ", 'result': {'return': ".
Definition run_response_tail : pystr := Eval cbv in json_text "}}" ++ [10].

(** The wire form of the response to a Run request that waited. *)
Definition run_response (request_id : json) (text : pystr) : bytes :=
  ping_line_head ++ json_dumps request_id ++ run_response_mid
    ++ json_dumps (JStr text) ++ run_response_tail.

(** What the handler does for one Ping request. *)
Definition ping_exchange (request_id : json) : trace :=
  [EvWrite (ping_response request_id); EvDrain].

Definition line_unknown_method : bytes :=
  Eval cbv in json_text "{'id': 1, 'method': 'stop', 'params': null}" ++ [10].
Definition line_array : bytes := Eval cbv in json_text "['ping']" ++ [10].
Definition line_ping_with_params : bytes :=
  Eval cbv in json_text "{'id': 'x', 'method': 'ping', 'params': {'a': [1, 2]}}" ++ [10].
Definition line_run_extra_key : bytes :=
  Eval cbv in
    json_text "{'id': 1, 'method': 'run', 'params': {'args_to_run': ['ls'], 'cwd': '/'}}"
    ++ [10].
Definition line_run_wait : bytes :=
  Eval cbv in
    json_text
      "{'id': 'r', 'method': 'run', 'params': {'args_to_run': ['echo', 'hello'], 'wait_response': true}}"
    ++ [10].

Definition failing_spawn (args : json) : result process := Raise OSError.

(** The call of [create_subprocess_exec] unpacks [args_to_run] into its
    positional arguments: the function is entered only when [args_to_run]
    can be unpacked (of the values a line can hold: a list, a string, a
    dict) and gives at least the program; otherwise Python raises
    [TypeError] while it builds the call, and nothing is spawned. *)
Definition spawn_is_called (args_to_run : json) : bool :=
  match args_to_run with
  | JList (_ :: _) | JStr (_ :: _) | JObject (_ :: _) => true
  | _ => false
  end.

(** Each line decodes to the Ping request with the id beside it. *)
Definition ping_lines (lines : list bytes) (ids : list json) : Prop :=
  Forall2 (fun line rid => request_selector line = Ok (RequestPing rid)) lines ids.

Definition line_ping_null : bytes :=
  Eval cbv in json_text "{'id': null, 'method': 'ping', 'params': null}" ++ [10].
Definition line_garbage : bytes := Eval cbv in json_text "{'id': " ++ [10].

(** Printable ASCII: no control character, so no line break. *)
Definition printable_text (s : list Z) : Prop := Forall (fun c => 32 <= c <= 126) s.

(** [RequestRun.decode_response]. *)
Definition decode_response (text : bytes) : result pystr :=
  let! decoded := json_loads text in
  let! res := getitem decoded key_result in
  let! possible_str := getitem res key_return in
  match possible_str with
  | JStr s => Ok s
  | _ => Raise TypeError
  end.

(** Strings that [json.loads] reads back as [json.dumps] wrote them. *)
Definition str_round_trips (s : pystr) : Prop :=
  valid_str s /\ no_surrogate_pair s = true.

(** A request id of the declared type [str | None]: any string. *)
Definition declared_id (request_id : option pystr) : Prop :=
  match request_id with
  | Some s => valid_str s
  | None => True
  end.

(** An argument vector of the declared type [list[str]], as a JSON value. *)
Definition args_value (args : list pystr) : json := JList (map JStr args).

(** The wire form of a Run request, member by member. *)
Definition run_line (request_id : json) (args : list pystr) (wait : bool) : bytes :=
  123 :: 34 :: key_id ++ 34 :: 58 :: 32 :: json_dumps request_id
    ++ 44 :: 32 :: 34 :: key_method ++ 34 :: 58 :: 32 :: json_dumps (JStr lit_run)
    ++ 44 :: 32 :: 34 :: key_params ++ 34 :: 58 :: 32
    :: 123 :: 34 :: key_args_to_run ++ 34 :: 58 :: 32 :: json_dumps (args_value args)
    ++ 44 :: 32 :: 34 :: key_wait_response ++ 34 :: 58 :: 32 :: json_dumps (JBool wait)
    ++ 125 :: 125 :: [10].

Definition sample_argv : list pystr :=
  Eval cbv in
    [str_lit "sh"; str_lit "-c"; [101; 99; 104; 111; 32; 34; 0x1F600; 34; 10]].

(** The pids sent a terminate signal, in the order of the trace. *)
Fixpoint sigterm_pids (t : trace) : list Z :=
  match t with
  | [] => []
  | EvKill pid SIGTERM :: t' => pid :: sigterm_pids t'
  | _ :: t' => sigterm_pids t'
  end.

Definition late_child (signal_counter : Z) : list (list Z) :=
  if signal_counter <=? 1 then [[7]] else [[7; 9]; [9]].

(** ** Start-up *)

Definition with_ready_event (self : BubblejailHelper) (b : bool) :=
  {| startup_args := startup_args self;
     server := server self;
     terminated := terminated self;
     terminator_look_for_command := terminator_look_for_command self;
     terminator_pool_timer := terminator_pool_timer self;
     termninator_watcher_task := termninator_watcher_task self;
     ready_event := b |}.

(** [BubblejailHelper.__init__]. *)
Definition BubblejailHelper_init (startup_args : list pystr) (reaper_pool_timer : Z)
  : BubblejailHelper :=
  {| startup_args := startup_args;
     server := None;
     terminated := false;
     terminator_look_for_command := None;
     terminator_pool_timer := reaper_pool_timer;
     termninator_watcher_task := None;
     ready_event := false |}.

(** What [start_async] does, in order; the effects of the start-up
    command are those of [run_command]. *)
Inductive start_event : Type :=
| StartUnixServer
| CreateWatcherTask
| WaitForReady (timeout : Z)
| StartupCommand (e : event).

(** How [start_async] ends: it returns, [wait_for] raises [TimeoutError],
    or the start-up command raises. *)
Inductive start_outcome : Type :=
| Started
| StartTimeoutError
| StartRaised (e : exn).

(** The watcher task that [start_async] creates runs while [start_async]
    is suspended at its awaits, and so does the shutdown that task may
    schedule. How far the two have got by the time [start_async] ends: *)
Inductive watcher_progress : Type :=
| WatcherSleeping     (* the watcher has not returned *)
| WatcherReturned     (* it has scheduled [stop_async] and returned *)
| ShutdownClosing     (* [stop_async] has closed the server and waits for it *)
| ShutdownFinished.   (* [stop_async] has set the terminated latch *)

(** What they have made of the helper's state by then. *)
Definition meanwhile (progress : watcher_progress) (self : BubblejailHelper)
  : BubblejailHelper :=
  match progress with
  | WatcherSleeping => self
  | WatcherReturned => with_watcher_task self (Some TaskDone)
  | ShutdownClosing =>
      with_server (with_watcher_task self (Some TaskDone)) (Some ServerClosed)
  | ShutdownFinished =>
      with_terminated
        (with_server (with_watcher_task self (Some TaskDone)) (Some ServerClosed))
        true
  end.

(** [start_async].  [ready_in_time] tells whether the ready event, when it
    is not set yet, gets set within the three seconds [wait_for] allows;
    [progress] is how far the watcher has got when [start_async] ends.
    [start_unix_server] is taken to succeed, and the debug print is left
    out.  The state returned is the helper's when [start_async] ends:
    what [start_async] assigned, and what the watcher made of it. *)
Definition start_async (create_subprocess_exec : json -> result process)
    (progress : watcher_progress) (ready_in_time : bool) (self : BubblejailHelper)
  : list start_event * BubblejailHelper * start_outcome :=
  let self1 := with_server self (Some ServerServing) in
  let self2 := with_watcher_task self1 (Some TaskPending) in
  let begun := [StartUnixServer; CreateWatcherTask; WaitForReady 3] in
  if ready_event self2 || ready_in_time then
    let self3 := with_ready_event self2 true in
    match startup_args self3 with
    | [] => (begun, meanwhile progress self3, Started)
    | _ :: _ =>
        match run_command create_subprocess_exec
                (JList (map JStr (startup_args self3))) None with
        | (t, Ok _) =>
            (begun ++ map StartupCommand t, meanwhile progress self3, Started)
        | (t, Raise e) =>
            (begun ++ map StartupCommand t, meanwhile progress self3, StartRaised e)
        end
    end
  else (begun, meanwhile progress self2, StartTimeoutError).

(** ** The process tree as [/proc] shows it *)

Module ProcTree.

(** [str.isspace] on one character: where [str.split()] cuts. *)
Definition isspace (c : Z) : bool :=
  ((9 <=? c) && (c <=? 13)) || ((28 <=? c) && (c <=? 32))
  || (c =? 0x85) || (c =? 0xA0) || (c =? 0x1680)
  || ((0x2000 <=? c) && (c <=? 0x200A))
  || (c =? 0x2028) || (c =? 0x2029) || (c =? 0x202F) || (c =? 0x205F)
  || (c =? 0x3000).

Fixpoint lstrip (s : pystr) : pystr :=
  match s with
  | c :: s' => if isspace c then lstrip s' else s
  | [] => []
  end.

(** The longest prefix without white space, and what follows it. *)
Fixpoint span_word (s : pystr) : pystr * pystr :=
  match s with
  | c :: s' =>
      if isspace c then ([], s)
      else let (w, r) := span_word s' in (c :: w, r)
  | [] => ([], [])
  end.

(** [s.split(maxsplit=2)[1]]; [None] where Python raises [IndexError]. *)
Definition split_item_1 (s : pystr) : option pystr :=
  match lstrip s with
  | [] => None
  | s1 =>
      match lstrip (snd (span_word s1)) with
      | [] => None
      | s2 => Some (fst (span_word s2))
      end
  end.

(** [w[1:-1]]. *)
Definition strip_ends (w : pystr) : pystr := removelast (tl w).

(** An entry of [/proc]: whether its name is numeric, and the contents of
    its [stat] file, [None] when opening it raises [FileNotFoundError]. *)
Record proc_item : Type := {
  name_isnumeric : bool;
  stat_file : option pystr;
}.

Definition iter_proc_process_directories (proc_path : list proc_item)
  : list proc_item :=
  filter name_isnumeric proc_path.

Inductive has_command : Type := Found | NotFound | RaisesIndexError.

Fixpoint search_process_dirs (dirs : list proc_item) (process_command : pystr)
  : has_command :=
  match dirs with
  | [] => NotFound
  | process_dir :: dirs' =>
      match stat_file process_dir with
      | None => search_process_dirs dirs' process_command
      | Some contents =>
          match split_item_1 contents with
          | None => RaisesIndexError
          | Some item =>
              if str_eqb process_command (strip_ends item) then Found
              else search_process_dirs dirs' process_command
          end
      end
  end.

Definition proc_has_process_command (proc_path : list proc_item)
    (process_command : pystr) : has_command :=
  search_process_dirs (iter_proc_process_directories proc_path) process_command.

(** The [stat] record the kernel writes: pid, command name in round
    brackets, state and the further fields. *)
Definition stat_record (pid comm fields : pystr) : pystr :=
  pid ++ 32 :: 40 :: comm ++ 41 :: 32 :: fields.

Definition no_space (s : pystr) : Prop := Forall (fun c => isspace c = false) s.

(** An entry the search passes over without raising. *)
Definition passed_over (process_command : pystr) (item : proc_item) : Prop :=
  name_isnumeric item = false
  \/ stat_file item = None
  \/ exists contents w,
       stat_file item = Some contents
       /\ split_item_1 contents = Some w
       /\ strip_ends w <> process_command.

Definition all_space (s : pystr) : Prop := Forall (fun c => isspace c = true) s.

(** A listing of [/proc]: an entry that is no process, a process that
    has gone by the time its [stat] is opened, and two live processes. *)
Definition comm_helper : pystr := Eval cbv in str_lit "bubblejail-help".

Definition comm_web : pystr := Eval cbv in str_lit "Web".

Definition comm_content : pystr := Eval cbv in str_lit "Content".

Definition pid_1 : pystr := Eval cbv in str_lit "1".

Definition pid_42 : pystr := Eval cbv in str_lit "42".

Definition sample_fields : pystr := Eval cbv in str_lit "S 0 1 1 0 -1 4194560".

Definition item_self : proc_item :=
  {| name_isnumeric := false; stat_file := Some (str_lit "not a stat file") |}.

Definition item_gone : proc_item :=
  {| name_isnumeric := true; stat_file := None |}.

Definition item_helper : proc_item :=
  {| name_isnumeric := true;
     stat_file := Some (stat_record pid_1 comm_helper sample_fields) |}.

Definition item_web_content : proc_item :=
  {| name_isnumeric := true;
     stat_file := Some (stat_record pid_42 (comm_web ++ 32 :: comm_content)
                          sample_fields) |}.

Definition item_short : proc_item :=
  {| name_isnumeric := true; stat_file := Some (32 :: pid_42 ++ [10]) |}.

Definition sample_proc : list proc_item :=
  [item_self; item_gone; item_helper; item_web_content].

End ProcTree.

(** * Properties *)

(** ** Reaper *)

(** The reaper never raises, whatever [waitpid] answers. *)
Lemma handle_children_never_raises (os : list waitpid_result) (e : exn) :
  snd (fst (handle_children os)) <> Some (Raise e).
Proof.
  induction os as [|[pid code|] os IH]; simpl; try discriminate.
  destruct ((pid =? 0) && (code =? 0)); [discriminate|].
  destruct (pid =? 0); [discriminate|].
  destruct (handle_children os) as [[t r] rest]. exact IH.
Qed.

(** C8. The reaper collects the pending exit records one per iteration,
    in order, until [waitpid] answers that no exited child is pending or
    that there is no child at all; both answers end the loop with a normal
    return, and nothing but the [waitpid] calls and the diagnostic line of
    each collected record happens. *)
Theorem handle_children_reaps_pending (records : list (Z * Z))
    (last : waitpid_result) (rest : list waitpid_result) :
  Forall (fun r => fst r <> 0) records ->
  ends_reaping last ->
  handle_children (map exit_answer records ++ last :: rest)
  = (flat_map reaped_events records ++ [EvWaitpid last], Some (Ok tt), rest).
Proof.
  intros Hrec Hlast.
  induction Hrec as [|[pid code] records Hpid _ IH]; simpl.
  - destruct Hlast as [-> | [c ->]]; [reflexivity|].
    simpl. destruct (c =? 0); reflexivity.
  - simpl in Hpid. apply Z.eqb_neq in Hpid. rewrite Hpid. simpl.
    rewrite IH. reflexivity.
Qed.

Lemma handle_children_reaps_pending_witness :
  Forall (fun r : Z * Z => fst r <> 0) [(3, 0); (4, 256)]
  /\ ends_reaping (WaitpidRet 0 0)
  /\ handle_children
       [WaitpidRet 3 0; WaitpidRet 4 256; WaitpidRet 0 0; WaitpidRet 5 0]
     = ([EvWaitpid (WaitpidRet 3 0); EvPrintReaped 3 0;
         EvWaitpid (WaitpidRet 4 256); EvPrintReaped 4 256;
         EvWaitpid (WaitpidRet 0 0)], Some (Ok tt), [WaitpidRet 5 0]).
Proof.
  assert (H1 : Forall (fun r : Z * Z => fst r <> 0) [(3, 0); (4, 256)])
    by (repeat constructor; simpl; lia).
  assert (H2 : ends_reaping (WaitpidRet 0 0)) by (right; exists 0; reflexivity).
  split; [exact H1|]. split; [exact H2|].
  exact (handle_children_reaps_pending [(3, 0); (4, 256)] (WaitpidRet 0 0)
           [WaitpidRet 5 0] H1 H2).
Defined.

(** ** Liveness watcher *)

Section Watcher.

Variable self : BubblejailHelper.

(** One turn of the loop whose sleep completed. *)
Lemma watcher_turn (view : proc_view) (sleeps : list sleep_outcome) :
  termninator_watcher self (Slept view :: sleeps)
  = if liveness_predicate self view
    then (EvSleep (terminator_pool_timer self)
            :: fst (termninator_watcher self sleeps),
          snd (termninator_watcher self sleeps))
    else ([EvSleep (terminator_pool_timer self); EvCreateTaskStopAsync], true).
Proof.
  unfold liveness_predicate. simpl.
  destruct (termninator_watcher self sleeps) as [t returned].
  destruct (terminator_look_for_command self) as [command|];
    [destruct (proc_has_process_command view command)
    |destruct (process_has_child view)]; reflexivity.
Qed.

Lemma watcher_cancelled (views : list proc_view) (rest : list sleep_outcome) :
  all_alive self views ->
  termninator_watcher self (map Slept views ++ SleepCancelled :: rest)
  = (sleeps_of self (S (length views)), true).
Proof.
  induction 1 as [|view views Hview _ IH]; [reflexivity|].
  cbn [map app]. rewrite watcher_turn, Hview, IH. reflexivity.
Qed.

Lemma watcher_fires (views : list proc_view) (view : proc_view)
    (rest : list sleep_outcome) :
  all_alive self views ->
  liveness_predicate self view = false ->
  termninator_watcher self (map Slept views ++ Slept view :: rest)
  = (sleeps_of self (S (length views)) ++ [EvCreateTaskStopAsync], true).
Proof.
  intros Hviews Hfire.
  induction Hviews as [|v views Hv _ IH]; cbn [map app].
  - rewrite watcher_turn, Hfire. reflexivity.
  - rewrite watcher_turn, Hv, IH. reflexivity.
Qed.

Lemma watcher_schedules_only_on_false (sleeps : list sleep_outcome) :
  In EvCreateTaskStopAsync (fst (termninator_watcher self sleeps)) ->
  exists views view rest,
    sleeps = map Slept views ++ Slept view :: rest
    /\ all_alive self views
    /\ liveness_predicate self view = false.
Proof.
  induction sleeps as [|[view|] sleeps IH].
  - intros [].
  - rewrite watcher_turn.
    destruct (liveness_predicate self view) eqn:Hview.
    + intros [Heq | Hin]; [discriminate|].
      destruct (IH Hin) as (views & v & rest & -> & Hall & Hfire).
      exists (view :: views), v, rest.
      split; [reflexivity|]. split; [|exact Hfire].
      constructor; assumption.
    + intros _. exists [], view, sleeps.
      split; [reflexivity|]. split; [constructor | exact Hview].
  - intros [Heq | []]. discriminate.
Qed.

(** C5. A watcher cancelled at a sleep, before its liveness predicate
    was ever false, returns at once having done nothing but sleep;
    graceful shutdown is scheduled by the watcher only at a sleep after
    which the predicate is false, it is scheduled then, and it is the
    last thing the watcher does. *)
Theorem termninator_watcher_single_source (sleeps : list sleep_outcome) :
  (forall views rest,
      sleeps = map Slept views ++ SleepCancelled :: rest ->
      all_alive self views ->
      termninator_watcher self sleeps = (sleeps_of self (S (length views)), true)
      /\ ~ In EvCreateTaskStopAsync (fst (termninator_watcher self sleeps)))
  /\ (forall views view rest,
      sleeps = map Slept views ++ Slept view :: rest ->
      all_alive self views ->
      liveness_predicate self view = false ->
      termninator_watcher self sleeps
      = (sleeps_of self (S (length views)) ++ [EvCreateTaskStopAsync], true))
  /\ (In EvCreateTaskStopAsync (fst (termninator_watcher self sleeps)) ->
      exists views view rest,
        sleeps = map Slept views ++ Slept view :: rest
        /\ all_alive self views
        /\ liveness_predicate self view = false).
Proof.
  split; [|split].
  - intros views rest -> Hall.
    rewrite (watcher_cancelled views rest Hall). split; [reflexivity|].
    cbn [fst]. unfold sleeps_of. intros Hin.
    apply repeat_spec in Hin. discriminate.
  - intros views view rest -> Hall Hfire. exact (watcher_fires views view rest Hall Hfire).
  - apply watcher_schedules_only_on_false.
Qed.

End Watcher.

Lemma termninator_watcher_single_source_witness :
  termninator_watcher sample_helper [Slept busy_view; SleepCancelled; Slept idle_view]
  = ([EvSleep 5; EvSleep 5], true)
  /\ termninator_watcher sample_helper [Slept busy_view; Slept idle_view; SleepCancelled]
     = ([EvSleep 5; EvSleep 5; EvCreateTaskStopAsync], true).
Proof.
  split.
  - apply (proj1 (termninator_watcher_single_source sample_helper _)
             [busy_view] [Slept idle_view] eq_refl).
    repeat constructor.
  - apply (proj1 (proj2 (termninator_watcher_single_source sample_helper _))
             [busy_view] idle_view [SleepCancelled] eq_refl).
    + repeat constructor.
    + reflexivity.
Defined.

(** ** Graceful shutdown *)

Lemma stop_async_completes (self : BubblejailHelper) :
  stop_async awaits_complete self = (graceful_steps self, stopped self, Ok tt).
Proof.
  destruct self as [args srv term cmd timer task ready].
  unfold stop_async, helper_bind, graceful_steps, watcher_steps, server_steps,
    stopped, awaits_complete; simpl.
  destruct task as [[|]|]; destruct srv as [s|]; reflexivity.
Qed.

Lemma stop_async_prefix (awaits : stop_awaits) (self : BubblejailHelper) :
  exists later, graceful_steps self = fst (fst (stop_async awaits self)) ++ later.
Proof.
  destruct self as [args srv term cmd timer task ready].
  destruct awaits as [[[]|e1] [[]|e2]];
    unfold stop_async, helper_bind, graceful_steps, watcher_steps, server_steps;
    simpl;
    destruct task as [[|]|]; destruct srv as [s|]; simpl;
    try (exists []; reflexivity); eexists; reflexivity.
Qed.

Lemma stop_async_latch (awaits : stop_awaits) (self : BubblejailHelper) :
  In EvTerminatedSet (fst (fst (stop_async awaits self)))
  <-> snd (stop_async awaits self) = Ok tt.
Proof.
  destruct self as [args srv term cmd timer task ready].
  destruct awaits as [[[]|e1] [[]|e2]];
    unfold stop_async, helper_bind; simpl;
    destruct task as [[|]|]; destruct srv as [s|]; simpl;
    split; intros H; try reflexivity; try discriminate;
    repeat (destruct H as [H|H]; try discriminate); try contradiction;
    auto 10.
Qed.

(** C4. When its awaits complete, [stop_async] performs exactly: cancel
    the watcher and await it (only if the task exists and is not done),
    close the server and wait until it is closed (only if the server
    exists), set the terminated latch; the diagnostic line follows.
    Whatever the awaits deliver, what it performs is an initial part of
    that sequence, and the latch is set exactly when it runs to its end. *)
Theorem stop_async_order (self : BubblejailHelper) :
  stop_async awaits_complete self = (graceful_steps self, stopped self, Ok tt)
  /\ terminated (stopped self) = true
  /\ forall awaits,
       (exists later,
           graceful_steps self = fst (fst (stop_async awaits self)) ++ later)
       /\ (In EvTerminatedSet (fst (fst (stop_async awaits self)))
           <-> snd (stop_async awaits self) = Ok tt).
Proof.
  split; [apply stop_async_completes|]. split; [reflexivity|].
  intros awaits. split; [apply stop_async_prefix | apply stop_async_latch].
Qed.

(** ** Process executor *)

Section Executor.

Variable create_subprocess_exec : json -> result process.
Variable args_to_run : json.
Variable p : process.
Hypothesis spawned : create_subprocess_exec args_to_run = Ok p.

Lemma run_command_inherit :
  run_command create_subprocess_exec args_to_run Inherit
  = ([EvCreateSubprocess args_to_run None None None; EvProcessWait], Ok None).
Proof. unfold run_command; simpl. rewrite spawned. reflexivity. Qed.

Lemma run_command_captured :
  run_command create_subprocess_exec args_to_run Captured
  = ([EvCreateSubprocess args_to_run (Some PIPE) (Some PIPE) (Some STDOUT);
      EvProcessCommunicate],
     let! text := utf8_decode false (communicate_stdout p) in Ok (Some text)).
Proof.
  unfold run_command; simpl. rewrite spawned. simpl.
  destruct (utf8_decode false (communicate_stdout p)); reflexivity.
Qed.

Lemma run_command_discarded :
  run_command create_subprocess_exec args_to_run Discarded
  = ([EvCreateSubprocess args_to_run (Some DEVNULL) (Some DEVNULL) (Some DEVNULL)],
     Ok None).
Proof. unfold run_command; simpl. rewrite spawned. reflexivity. Qed.

End Executor.

(** C3, as the code has it. In the Inherit and Captured modes
    [run_command] returns only after the exit of the spawned process was
    awaited; in Captured mode the merged output is drained and returned
    decoded as text; Inherit and Discarded return nothing; in Discarded
    mode it returns right after the spawn, awaiting nothing. *)
Theorem run_command_modes (create_subprocess_exec : json -> result process)
    (args_to_run : json) (p : process) :
  create_subprocess_exec args_to_run = Ok p ->
  (run_command create_subprocess_exec args_to_run Inherit
   = ([EvCreateSubprocess args_to_run None None None; EvProcessWait], Ok None))
  /\ (run_command create_subprocess_exec args_to_run Captured
      = ([EvCreateSubprocess args_to_run (Some PIPE) (Some PIPE) (Some STDOUT);
          EvProcessCommunicate],
         let! text := utf8_decode false (communicate_stdout p) in Ok (Some text)))
  /\ (run_command create_subprocess_exec args_to_run Discarded
      = ([EvCreateSubprocess args_to_run
            (Some DEVNULL) (Some DEVNULL) (Some DEVNULL)], Ok None))
  /\ awaits_exit (fst (run_command create_subprocess_exec args_to_run Inherit))
  /\ awaits_exit (fst (run_command create_subprocess_exec args_to_run Captured))
  /\ ~ awaits_exit (fst (run_command create_subprocess_exec args_to_run Discarded)).
Proof.
  intros Hspawn.
  rewrite (run_command_inherit _ _ _ Hspawn), (run_command_captured _ _ _ Hspawn),
    (run_command_discarded _ _ _ Hspawn).
  repeat split.
  - left. simpl. auto.
  - right. simpl. auto.
  - intros [H | H]; simpl in H; destruct H as [H | []]; discriminate.
Qed.

Lemma run_command_modes_witness :
  sample_spawn sample_args = Ok sample_process
  /\ run_command sample_spawn sample_args Captured
     = ([EvCreateSubprocess sample_args (Some PIPE) (Some PIPE) (Some STDOUT);
         EvProcessCommunicate],
        Ok (Some (communicate_stdout sample_process))).
Proof.
  split; [reflexivity|].
  exact (proj1 (proj2 (run_command_modes sample_spawn sample_args sample_process
                         eq_refl))).
Defined.

(** The claim fails in Discarded mode: the process is spawned and
    [run_command] returns without any await of its exit. *)
Lemma discarded_mode_returns_before_exit :
  run_command sample_spawn sample_args Discarded
  = ([EvCreateSubprocess sample_args (Some DEVNULL) (Some DEVNULL) (Some DEVNULL)],
     Ok None)
  /\ ~ (forall mode, In mode [Inherit; Captured; Discarded] ->
        awaits_exit (fst (run_command sample_spawn sample_args mode))).
Proof.
  split; [reflexivity|].
  intros H. specialize (H Discarded (or_intror (or_intror (or_introl eq_refl)))).
  destruct H as [H | H]; simpl in H; destruct H as [H | []]; discriminate.
Qed.

(** ** Forced terminator *)

Section Terminator.

Variable proc : Z -> list (list Z).

Lemma signal_pids_kill (counter : Z) (pids : list Z) (sigtermed : gset Z) :
  20 < counter ->
  signal_pids counter pids sigtermed
  = (sigtermed, map (fun pid => EvKill pid SIGKILL) pids).
Proof.
  intros Hc. apply Z.gtb_lt in Hc.
  induction pids as [|pid pids IH]; simpl; [reflexivity|].
  rewrite Hc, IH. reflexivity.
Qed.

Lemma signal_tasks_kill (counter : Z) (tasks : list (list Z)) (sigtermed : gset Z) :
  20 < counter ->
  signal_tasks counter tasks sigtermed = (sigtermed, kill_all tasks).
Proof.
  intros Hc. unfold kill_all.
  induction tasks as [|pids tasks IH]; simpl; [reflexivity|].
  rewrite (signal_pids_kill _ _ _ Hc), IH, map_app. reflexivity.
Qed.

(** Up to the twentieth broadcast only terminate signals are sent. *)
Lemma signal_pids_term (counter : Z) (pids : list Z) (sigtermed : gset Z) :
  counter <= 20 ->
  Forall (fun e => exists pid, e = EvKill pid SIGTERM)
         (snd (signal_pids counter pids sigtermed)).
Proof.
  intros Hc. assert (Hb : (counter >? 20) = false) by lia.
  revert sigtermed. induction pids as [|pid pids IH]; intros sigtermed; simpl.
  - constructor.
  - rewrite Hb. destruct (bool_decide (pid ∈ sigtermed)).
    + apply IH.
    + specialize (IH ({[pid]} ∪ sigtermed)).
      destruct (signal_pids counter pids ({[pid]} ∪ sigtermed)) as [s t].
      simpl. constructor; [eauto | exact IH].
Qed.

Lemma signal_tasks_term (counter : Z) (tasks : list (list Z)) (sigtermed : gset Z) :
  counter <= 20 ->
  Forall (fun e => exists pid, e = EvKill pid SIGTERM)
         (snd (signal_tasks counter tasks sigtermed)).
Proof.
  intros Hc. revert sigtermed.
  induction tasks as [|pids tasks IH]; intros sigtermed; simpl.
  - constructor.
  - pose proof (signal_pids_term counter pids sigtermed Hc) as H1.
    destruct (signal_pids counter pids sigtermed) as [s1 t1].
    specialize (IH s1).
    destruct (signal_tasks counter tasks s1) as [s2 t2].
    simpl in *. apply Forall_app. split; assumption.
Qed.

(** One broadcast: the counter goes up by one, the children files are
    read, and the signals follow the escalation rule. *)
Lemma signal_all_children_spec (st : terminator_state) :
  exists sigs,
    snd (signal_all_children proc st)
    = EvReadTaskChildren (proc (signal_counter st + 1)) :: sigs
    /\ signal_counter (fst (signal_all_children proc st)) = signal_counter st + 1
    /\ (20 < signal_counter st + 1 -> sigs = kill_all (proc (signal_counter st + 1)))
    /\ (signal_counter st + 1 <= 20 ->
        Forall (fun e => exists pid, e = EvKill pid SIGTERM) sigs).
Proof.
  unfold signal_all_children.
  pose proof (signal_tasks_kill (signal_counter st + 1)
                (proc (signal_counter st + 1)) (pids_sigtermed st)) as Hk.
  pose proof (signal_tasks_term (signal_counter st + 1)
                (proc (signal_counter st + 1)) (pids_sigtermed st)) as Ht.
  destruct (signal_tasks (signal_counter st + 1) (proc (signal_counter st + 1))
              (pids_sigtermed st)) as [s t].
  exists t. simpl. repeat split.
  - intros H. specialize (Hk H). congruence.
  - exact Ht.
Qed.

Lemma escalation_ok_signals (failed : Z) (sigs t : trace) :
  Forall (fun e => exists pid sig,
              e = EvKill pid sig /\ (sig = SIGKILL <-> 20 <= failed)) sigs ->
  escalation_ok failed t ->
  escalation_ok failed (sigs ++ t).
Proof.
  induction 1 as [|e sigs (pid & sig & -> & Hsig) _ IH]; intros Ht; simpl.
  - exact Ht.
  - split; [exact Hsig | exact (IH Ht)].
Qed.

Lemma escalation_ok_broadcast (failed : Z) (st : terminator_state) (t : trace) :
  signal_counter st = failed ->
  escalation_ok failed t ->
  escalation_ok failed (snd (signal_all_children proc st) ++ t).
Proof.
  intros Hc Ht.
  destruct (signal_all_children_spec st) as (sigs & -> & _ & Hkill & Hterm).
  rewrite Hc in *. cbn [app escalation_ok].
  split.
  - intros H20. exists t. rewrite Hkill by lia. reflexivity.
  - apply escalation_ok_signals; [|exact Ht].
    destruct (Z_lt_le_dec 20 (failed + 1)) as [Hgt | Hle].
    + rewrite (Hkill Hgt). unfold kill_all. apply Forall_map, Forall_forall.
      intros pid _. exists pid, SIGKILL. split; [reflexivity|]. split; [lia|reflexivity].
    + eapply Forall_impl; [|exact (Hterm Hle)].
      intros e [pid ->]. exists pid, SIGTERM. split; [reflexivity|].
      split; [discriminate | lia].
Qed.

(** The three outcomes of one collection attempt. *)
Lemma collection_loop_reaped (pid : Z) (os : list wait3_result)
    (st : terminator_state) :
  pid <> 0 ->
  collection_loop proc (Wait3Ret pid :: os) st
  = (EvWait3 (Wait3Ret pid) :: fst (collection_loop proc os st),
     snd (collection_loop proc os st)).
Proof.
  intros Hpid. apply Z.eqb_neq in Hpid. simpl. rewrite Hpid.
  destruct (collection_loop proc os st). reflexivity.
Qed.

Lemma collection_loop_not_ready (os : list wait3_result) (st : terminator_state) :
  collection_loop proc (Wait3Ret 0 :: os) st
  = (EvWait3 (Wait3Ret 0) :: EvSyncSleep (1 # 2)
       :: snd (signal_all_children proc st)
       ++ fst (collection_loop proc os (fst (signal_all_children proc st))),
     snd (collection_loop proc os (fst (signal_all_children proc st)))).
Proof.
  simpl. destruct (signal_all_children proc st) as [st' t1].
  simpl. destruct (collection_loop proc os st'). reflexivity.
Qed.

Lemma collection_loop_no_children (os : list wait3_result) (st : terminator_state) :
  collection_loop proc (Wait3ChildProcessError :: os) st
  = ([EvWait3 Wait3ChildProcessError], true).
Proof. reflexivity. Qed.

Lemma terminate_children_unfold (os : list wait3_result) :
  let st0 := {| signal_counter := 0; pids_sigtermed := ∅ |} in
  let st1 := fst (signal_all_children proc st0) in
  terminate_children proc os
  = (snd (signal_all_children proc st0) ++ fst (collection_loop proc os st1)
       ++ (if snd (collection_loop proc os st1) then [EvCancelRunHelperTask] else []),
     snd (collection_loop proc os st1)).
Proof.
  unfold terminate_children. simpl.
  destruct (signal_all_children proc _) as [st1 t1]. simpl.
  destruct (collection_loop proc os st1) as [t2 [|]]; simpl;
    [reflexivity | rewrite app_nil_r; reflexivity].
Qed.

Lemma collection_loop_finishes (os : list wait3_result) (st : terminator_state) :
  (snd (collection_loop proc os st) = true <-> In Wait3ChildProcessError os)
  /\ (snd (collection_loop proc os st) = true ->
      exists t, fst (collection_loop proc os st) = t ++ [EvWait3 Wait3ChildProcessError]).
Proof.
  revert st. induction os as [|[pid|] os IH]; intros st.
  - simpl. split; [split; [discriminate | intros []] | discriminate].
  - destruct (Z.eq_dec pid 0) as [-> | Hpid].
    + rewrite collection_loop_not_ready. cbn [fst snd].
      destruct (IH (fst (signal_all_children proc st))) as [Hiff Hlast].
      split.
      * rewrite Hiff. simpl. split; [auto | intros [H | H]; [discriminate | exact H]].
      * intros Hfin. destruct (Hlast Hfin) as [t Ht]. rewrite Ht.
        eexists (_ :: _ :: _ ++ t). simpl. rewrite <- app_assoc. reflexivity.
    + rewrite (collection_loop_reaped pid os st Hpid). cbn [fst snd].
      destruct (IH st) as [Hiff Hlast].
      split.
      * rewrite Hiff. simpl. split; [auto | intros [H | H]; [discriminate | exact H]].
      * intros Hfin. destruct (Hlast Hfin) as [t Ht]. rewrite Ht.
        exists (EvWait3 (Wait3Ret pid) :: t). reflexivity.
  - rewrite collection_loop_no_children. cbn [fst snd]. split.
    + split; [intros _; left; reflexivity | reflexivity].
    + intros _. exists []. reflexivity.
Qed.

(** A broadcast holds no collection attempt and exactly one reading of
    the children files. *)
Lemma signal_all_children_counts (st : terminator_state) :
  failed_attempts (snd (signal_all_children proc st)) = 0
  /\ broadcasts (snd (signal_all_children proc st)) = 1.
Proof.
  destruct (signal_all_children_spec st) as (sigs & -> & _ & Hkill & Hterm).
  assert (Hsigs : Forall (fun e => exists pid sig, e = EvKill pid sig) sigs).
  { destruct (Z_lt_le_dec 20 (signal_counter st + 1)) as [Hgt | Hle].
    - rewrite (Hkill Hgt). unfold kill_all. apply Forall_map, Forall_forall.
      intros pid _. eauto.
    - eapply Forall_impl; [|exact (Hterm Hle)]. intros e [pid ->]. eauto. }
  assert (H0 : failed_attempts sigs = 0 /\ broadcasts sigs = 0).
  { clear Hkill Hterm.
    induction Hsigs as [|e sigs (pid & sig & ->) _ [IH1 IH2]]; simpl; lia. }
  cbn [failed_attempts broadcasts failed_attempt is_broadcast]. lia.
Qed.

Lemma failed_attempts_app (t1 t2 : trace) :
  failed_attempts (t1 ++ t2) = failed_attempts t1 + failed_attempts t2.
Proof. induction t1 as [|e t1 IH]; simpl; lia. Qed.

Lemma broadcasts_app (t1 t2 : trace) :
  broadcasts (t1 ++ t2) = broadcasts t1 + broadcasts t2.
Proof. induction t1 as [|e t1 IH]; simpl; lia. Qed.

Lemma collection_loop_counts (os : list wait3_result) (st : terminator_state) :
  broadcasts (fst (collection_loop proc os st))
  = failed_attempts (fst (collection_loop proc os st)).
Proof.
  revert st. induction os as [|[pid|] os IH]; intros st.
  - reflexivity.
  - destruct (Z.eq_dec pid 0) as [-> | Hpid].
    + rewrite collection_loop_not_ready. cbn [fst].
      cbn [failed_attempts broadcasts failed_attempt is_broadcast].
      rewrite failed_attempts_app, broadcasts_app, IH.
      destruct (signal_all_children_counts st) as [-> ->]. simpl. lia.
    + rewrite (collection_loop_reaped pid os st Hpid). cbn [fst].
      cbn [failed_attempts broadcasts failed_attempt is_broadcast].
      apply Z.eqb_neq in Hpid. rewrite Hpid, IH. reflexivity.
  - reflexivity.
Qed.

Lemma collection_loop_escalation (os : list wait3_result) (st : terminator_state)
    (failed : Z) :
  signal_counter st = failed + 1 ->
  escalation_ok failed (fst (collection_loop proc os st)).
Proof.
  revert st failed. induction os as [|[pid|] os IH]; intros st failed Hc.
  - exact I.
  - destruct (Z.eq_dec pid 0) as [-> | Hpid].
    + rewrite collection_loop_not_ready. cbn [fst escalation_ok Z.eqb].
      apply escalation_ok_broadcast; [exact Hc|].
      apply IH. destruct (signal_all_children_spec st) as (_ & _ & -> & _). lia.
    + rewrite (collection_loop_reaped pid os st Hpid). cbn [fst escalation_ok].
      apply Z.eqb_neq in Hpid. rewrite Hpid. apply IH, Hc.
  - exact I.
Qed.

Lemma escalation_ok_cancel (failed : Z) (t : trace) :
  escalation_ok failed t ->
  escalation_ok failed (t ++ [EvCancelRunHelperTask]).
Proof.
  revert failed. induction t as [|e t IH]; intros failed H; [exact I|].
  destruct e as [| | | |[pid|]| | | | | | | | | | | | | | | | |];
    cbn [app escalation_ok] in *; try (apply IH; exact H).
  - destruct H as [Hk H]. split; [|apply IH; exact H].
    intros H20. destruct (Hk H20) as [later ->].
    exists (later ++ [EvCancelRunHelperTask]). rewrite app_assoc. reflexivity.
  - destruct H as [Hk H]. split; [exact Hk | apply IH; exact H].
Qed.

Lemma terminate_children_escalation (os : list wait3_result) :
  escalation_ok 0 (fst (terminate_children proc os)).
Proof.
  rewrite terminate_children_unfold. cbn [fst].
  apply escalation_ok_broadcast; [reflexivity|].
  set (st1 := fst (signal_all_children proc _)).
  assert (H1 : escalation_ok 0 (fst (collection_loop proc os st1))).
  { apply collection_loop_escalation. subst st1.
    destruct (signal_all_children_spec {| signal_counter := 0; pids_sigtermed := ∅ |})
      as (_ & _ & -> & _). reflexivity. }
  destruct (snd (collection_loop proc os st1)).
  - apply escalation_ok_cancel, H1.
  - rewrite app_nil_r. exact H1.
Qed.

(** Every not-ready answer the loop gets to is followed by the sleep and
    a re-broadcast; the counter the re-broadcast starts from has grown by
    one per failed attempt. *)
Lemma collection_loop_rebroadcasts (os1 os2 : list wait3_result)
    (st : terminator_state) :
  ~ In Wait3ChildProcessError os1 ->
  exists pre st',
    fst (collection_loop proc (os1 ++ Wait3Ret 0 :: os2) st)
    = pre ++ EvWait3 (Wait3Ret 0) :: EvSyncSleep (1 # 2)
        :: snd (signal_all_children proc st')
        ++ fst (collection_loop proc os2 (fst (signal_all_children proc st')))
    /\ failed_attempts pre = failed_attempts (map EvWait3 os1)
    /\ signal_counter st' = signal_counter st + failed_attempts pre.
Proof.
  revert st. induction os1 as [|[pid|] os1 IH]; intros st Hno.
  - exists [], st. cbn [app map failed_attempts].
    rewrite collection_loop_not_ready. cbn [fst].
    split; [reflexivity|]. split; [reflexivity | lia].
  - assert (Hno' : ~ In Wait3ChildProcessError os1)
      by (intros H; apply Hno; right; exact H).
    destruct (Z.eq_dec pid 0) as [-> | Hpid].
    + cbn [app]. rewrite collection_loop_not_ready. cbn [fst].
      destruct (IH (fst (signal_all_children proc st)) Hno')
        as (pre & st' & Heq & Hfail & Hcount).
      exists (EvWait3 (Wait3Ret 0) :: EvSyncSleep (1 # 2)
                :: snd (signal_all_children proc st) ++ pre), st'.
      rewrite Heq. split; [cbn [app]; rewrite <- app_assoc; reflexivity|].
      destruct (signal_all_children_counts st) as [Hf _].
      destruct (signal_all_children_spec st) as (_ & _ & Hc & _).
      cbn [map failed_attempts failed_attempt Z.eqb].
      rewrite failed_attempts_app, Hf.
      split; [lia|]. rewrite Hcount, Hc. lia.
    + cbn [app]. rewrite (collection_loop_reaped pid _ st Hpid). cbn [fst].
      destruct (IH st Hno') as (pre & st' & Heq & Hfail & Hcount).
      exists (EvWait3 (Wait3Ret pid) :: pre), st'.
      rewrite Heq. split; [reflexivity|].
      apply Z.eqb_neq in Hpid.
      cbn [map failed_attempts failed_attempt]. rewrite Hpid.
      split; [lia|]. rewrite Hcount. lia.
  - exfalso. apply Hno. left. reflexivity.
Qed.

End Terminator.

(** Reading the escalation rule at one event of a trace. *)
Lemma escalation_ok_kill (failed : Z) (pre : trace) (pid : Z) (sig : signal)
    (post : trace) :
  escalation_ok failed (pre ++ EvKill pid sig :: post) ->
  (sig = SIGKILL <-> 20 <= failed + failed_attempts pre).
Proof.
  revert failed. induction pre as [|e pre IH]; intros failed H.
  - simpl in *. rewrite Z.add_0_r. exact (proj1 H).
  - destruct e as [| | | |[p|]| | | | | | | | | | | | | | | | |];
      cbn [app escalation_ok failed_attempts failed_attempt] in *;
      try (rewrite (IH _ H); lia);
      try (rewrite (IH _ (proj2 H)); lia).
    destruct (p =? 0); rewrite (IH _ H); lia.
Qed.

Lemma escalation_ok_read (failed : Z) (pre : trace) (tasks : list (list Z))
    (post : trace) :
  escalation_ok failed (pre ++ EvReadTaskChildren tasks :: post) ->
  20 <= failed + failed_attempts pre ->
  exists later, post = kill_all tasks ++ later.
Proof.
  revert failed. induction pre as [|e pre IH]; intros failed H H20.
  - simpl in *. rewrite Z.add_0_r in H20. exact (proj1 H H20).
  - destruct e as [| | | |[p|]| | | | | | | | | | | | | | | | |];
      cbn [app escalation_ok failed_attempts failed_attempt] in *;
      try (apply (IH _ H); lia);
      try (apply (IH _ (proj2 H)); lia).
    destruct (p =? 0); apply (IH _ H); lia.
Qed.

(** C2, as the code has it. After a reap the loop goes straight to the
    next collection attempt: no sleep, no re-broadcast, the state
    unchanged. After a failed attempt it sleeps half a second, increments
    the counter and re-broadcasts. When the OS reports that no children
    remain the loop ends and the main run task is cancelled. Hence the
    children files are read once at the start and once per failed attempt. *)
Theorem collection_loop_outcomes (proc : Z -> list (list Z))
    (os : list wait3_result) (st : terminator_state) :
  (forall pid, pid <> 0 ->
     collection_loop proc (Wait3Ret pid :: os) st
     = (EvWait3 (Wait3Ret pid) :: fst (collection_loop proc os st),
        snd (collection_loop proc os st)))
  /\ (collection_loop proc (Wait3Ret 0 :: os) st
      = (EvWait3 (Wait3Ret 0) :: EvSyncSleep (1 # 2)
           :: snd (signal_all_children proc st)
           ++ fst (collection_loop proc os (fst (signal_all_children proc st))),
         snd (collection_loop proc os (fst (signal_all_children proc st))))
      /\ signal_counter (fst (signal_all_children proc st)) = signal_counter st + 1
      /\ exists sigs, snd (signal_all_children proc st)
                      = EvReadTaskChildren (proc (signal_counter st + 1)) :: sigs)
  /\ collection_loop proc (Wait3ChildProcessError :: os) st
     = ([EvWait3 Wait3ChildProcessError], true)
  /\ (snd (terminate_children proc os) = true <-> In Wait3ChildProcessError os)
  /\ (snd (terminate_children proc os) = true ->
      exists t, fst (terminate_children proc os)
                = t ++ [EvWait3 Wait3ChildProcessError; EvCancelRunHelperTask])
  /\ broadcasts (fst (terminate_children proc os))
     = 1 + failed_attempts (fst (terminate_children proc os)).
Proof.
  split; [intros pid Hpid; apply collection_loop_reaped, Hpid|].
  split.
  { split; [apply collection_loop_not_ready|].
    destruct (signal_all_children_spec proc st) as (sigs & Hs & Hc & _).
    split; [exact Hc | exists sigs; exact Hs]. }
  split; [apply collection_loop_no_children|].
  rewrite terminate_children_unfold. cbn [fst snd].
  set (st0 := {| signal_counter := 0; pids_sigtermed := ∅ |}).
  set (st1 := fst (signal_all_children proc st0)).
  destruct (collection_loop_finishes proc os st1) as [Hiff Hlast].
  split; [exact Hiff|]. split.
  - intros Hfin. rewrite Hfin. destruct (Hlast Hfin) as [t ->].
    exists (snd (signal_all_children proc st0) ++ t).
    rewrite <- !app_assoc. reflexivity.
  - rewrite !broadcasts_app, !failed_attempts_app, collection_loop_counts.
    destruct (signal_all_children_counts proc st0) as [-> ->].
    destruct (snd (collection_loop proc os st1)); simpl; lia.
Qed.

Lemma collection_loop_outcomes_witness :
  8 <> 0
  /\ collection_loop two_children [Wait3Ret 8; Wait3ChildProcessError]
       {| signal_counter := 1; pids_sigtermed := {[7; 8]} |}
     = ([EvWait3 (Wait3Ret 8); EvWait3 Wait3ChildProcessError], true).
Proof.
  assert (H : 8 <> 0) by lia.
  split; [exact H|].
  exact (proj1 (collection_loop_outcomes two_children [Wait3ChildProcessError]
                  {| signal_counter := 1; pids_sigtermed := {[7; 8]} |}) 8 H).
Defined.

(** The claim fails after a reap: the next thing the loop does is the
    next collection attempt, not a re-broadcast. *)
Lemma reap_not_followed_by_rebroadcast :
  terminate_children two_children [Wait3Ret 8; Wait3ChildProcessError]
  = ([EvReadTaskChildren [[7; 8]]; EvKill 7 SIGTERM; EvKill 8 SIGTERM;
      EvWait3 (Wait3Ret 8); EvWait3 Wait3ChildProcessError;
      EvCancelRunHelperTask], true)
  /\ ~ rebroadcast_after_reap
         (fst (terminate_children two_children [Wait3Ret 8; Wait3ChildProcessError])).
Proof.
  assert (Heq : terminate_children two_children [Wait3Ret 8; Wait3ChildProcessError]
                = ([EvReadTaskChildren [[7; 8]]; EvKill 7 SIGTERM; EvKill 8 SIGTERM;
                    EvWait3 (Wait3Ret 8); EvWait3 Wait3ChildProcessError;
                    EvCancelRunHelperTask], true))
    by (vm_compute; reflexivity).
  split; [exact Heq|].
  rewrite Heq. cbn [fst]. intros H.
  destruct (H [EvReadTaskChildren [[7; 8]]; EvKill 7 SIGTERM; EvKill 8 SIGTERM] 8
              [EvWait3 Wait3ChildProcessError; EvCancelRunHelperTask] eq_refl)
    as (tasks & post' & Hpost); [lia | discriminate].
Qed.

(** C1, as the code has it. The counter counts broadcasts, so it is one
    more than the number of failed attempts. A signal sent by
    [terminate_children] is a kill signal exactly when at least 20
    collection attempts have failed before it, and every broadcast from
    the one after the 20th failed attempt on sends a kill signal to every
    child it lists. The broadcasts do take place: the children files are
    read first of all, and every collection attempt that finds no child
    ready is followed by the sleep and a re-broadcast, which reads the
    children files as they are with the counter at the number of failed
    attempts plus one; after fewer than 20 failed attempts it sends
    terminate signals only, from the 20th on it sends the kill signal to
    every child listed. *)
Theorem terminate_children_escalates (proc : Z -> list (list Z))
    (os : list wait3_result) :
  (forall pre pid sig post,
      fst (terminate_children proc os) = pre ++ EvKill pid sig :: post ->
      (sig = SIGKILL <-> 20 <= failed_attempts pre))
  /\ (forall pre tasks post,
      fst (terminate_children proc os) = pre ++ EvReadTaskChildren tasks :: post ->
      20 <= failed_attempts pre ->
      exists later, post = kill_all tasks ++ later)
  /\ (exists sigs later,
      fst (terminate_children proc os)
      = EvReadTaskChildren (proc 1) :: sigs ++ later
      /\ Forall (fun e => exists pid, e = EvKill pid SIGTERM) sigs)
  /\ (forall os1 os2,
      os = os1 ++ Wait3Ret 0 :: os2 ->
      ~ In Wait3ChildProcessError os1 ->
      exists pre sigs later,
        fst (terminate_children proc os)
        = pre ++ EvWait3 (Wait3Ret 0) :: EvSyncSleep (1 # 2)
            :: EvReadTaskChildren (proc (failed_attempts pre + 2))
            :: sigs ++ later
        /\ failed_attempts pre = failed_attempts (map EvWait3 os1)
        /\ (19 <= failed_attempts pre ->
            sigs = kill_all (proc (failed_attempts pre + 2)))
        /\ (failed_attempts pre < 19 ->
            Forall (fun e => exists pid, e = EvKill pid SIGTERM) sigs)).
Proof.
  pose proof (terminate_children_escalation proc os) as Hok.
  split; [|split; [|split]].
  - intros pre pid sig post Heq. rewrite Heq in Hok.
    exact (escalation_ok_kill 0 pre pid sig post Hok).
  - intros pre tasks post Heq H20. rewrite Heq in Hok.
    exact (escalation_ok_read 0 pre tasks post Hok H20).
  - pose proof (terminate_children_unfold proc os) as Hunf. cbn zeta in Hunf.
    rewrite Hunf. cbn [fst].
    destruct (signal_all_children_spec proc
                {| signal_counter := 0; pids_sigtermed := ∅ |})
      as (sigs & -> & _ & _ & Hterm).
    exists sigs. eexists. split; [reflexivity|].
    apply Hterm. cbn [signal_counter]. lia.
  - intros os1 os2 -> Hno.
    pose proof (terminate_children_unfold proc (os1 ++ Wait3Ret 0 :: os2)) as Hunf.
    cbn zeta in Hunf. rewrite Hunf. cbn [fst]. clear Hunf Hok.
    set (st0 := {| signal_counter := 0; pids_sigtermed := ∅ |}).
    destruct (collection_loop_rebroadcasts proc os1 os2
                (fst (signal_all_children proc st0)) Hno)
      as (pre & st' & -> & Hfail & Hcount).
    destruct (signal_all_children_spec proc st0) as (_ & _ & Hc0 & _).
    destruct (signal_all_children_counts proc st0) as [Hf0 _].
    rewrite Hc0 in Hcount. cbn [st0 signal_counter] in Hcount.
    destruct (signal_all_children_spec proc st')
      as (sigs & Hsigs & _ & Hkill & Hterm).
    rewrite Hsigs.
    assert (Hpre : failed_attempts (snd (signal_all_children proc st0) ++ pre)
                   = failed_attempts pre)
      by (rewrite failed_attempts_app, Hf0; lia).
    exists (snd (signal_all_children proc st0) ++ pre), sigs.
    eexists. rewrite Hpre.
    replace (signal_counter st' + 1) with (failed_attempts pre + 2) in * by lia.
    split; [|split; [exact Hfail | split]].
    + rewrite <- !app_assoc. cbn [app]. rewrite <- !app_assoc. reflexivity.
    + intros H. apply Hkill. lia.
    + intros H. apply Hterm. lia.
Qed.

Lemma terminate_children_escalates_witness :
  fst (terminate_children one_stubborn_child twenty_failures)
  = removelast (fst (terminate_children one_stubborn_child twenty_failures))
      ++ [EvKill 7 SIGKILL]
  /\ (SIGKILL = SIGKILL
      <-> 20 <= failed_attempts
                  (removelast (fst (terminate_children one_stubborn_child
                                      twenty_failures))))
  /\ twenty_failures = repeat (Wait3Ret 0) 19 ++ Wait3Ret 0 :: []
  /\ ~ In Wait3ChildProcessError (repeat (Wait3Ret 0) 19)
  /\ exists pre sigs later,
      fst (terminate_children one_stubborn_child twenty_failures)
      = pre ++ EvWait3 (Wait3Ret 0) :: EvSyncSleep (1 # 2)
          :: EvReadTaskChildren (one_stubborn_child (failed_attempts pre + 2))
          :: sigs ++ later
      /\ failed_attempts pre
         = failed_attempts (map EvWait3 (repeat (Wait3Ret 0) 19))
      /\ (19 <= failed_attempts pre ->
          sigs = kill_all (one_stubborn_child (failed_attempts pre + 2)))
      /\ (failed_attempts pre < 19 ->
          Forall (fun e => exists pid, e = EvKill pid SIGTERM) sigs).
Proof.
  assert (Heq : fst (terminate_children one_stubborn_child twenty_failures)
                = removelast (fst (terminate_children one_stubborn_child
                                     twenty_failures)) ++ [EvKill 7 SIGKILL])
    by (vm_compute; reflexivity).
  assert (Hos : twenty_failures = repeat (Wait3Ret 0) 19 ++ Wait3Ret 0 :: [])
    by reflexivity.
  assert (Hno : ~ In Wait3ChildProcessError (repeat (Wait3Ret 0) 19))
    by (intros H; apply repeat_spec in H; discriminate H).
  split; [exact Heq|]. split; [|split; [exact Hos|split; [exact Hno|]]].
  - exact (proj1 (terminate_children_escalates one_stubborn_child twenty_failures)
             _ 7 SIGKILL [] Heq).
  - exact (proj2 (proj2 (proj2 (terminate_children_escalates one_stubborn_child
                                  twenty_failures)))
             (repeat (Wait3Ret 0) 19) [] Hos Hno).
Defined.

(** The claim fails at the 20th failed attempt: the re-broadcast that
    follows it already sends the kill signal. *)
Lemma kill_signal_after_20th_failed_attempt :
  (exists pre,
      fst (terminate_children one_stubborn_child twenty_failures)
      = pre ++ [EvKill 7 SIGKILL]
      /\ failed_attempts pre = 20)
  /\ ~ kill_after_21_failed_attempts
         (fst (terminate_children one_stubborn_child twenty_failures)).
Proof.
  assert (Heq : fst (terminate_children one_stubborn_child twenty_failures)
                = removelast (fst (terminate_children one_stubborn_child
                                     twenty_failures)) ++ [EvKill 7 SIGKILL])
    by (vm_compute; reflexivity).
  assert (H20 : failed_attempts
                  (removelast (fst (terminate_children one_stubborn_child
                                      twenty_failures))) = 20)
    by (vm_compute; reflexivity).
  split.
  - eexists. split; [exact Heq | exact H20].
  - intros H. specialize (H _ 7 SIGKILL [] Heq).
    rewrite H20 in H. destruct H as [H _]. specialize (H eq_refl). lia.
Qed.

(** ** Python values and dicts *)

Lemma str_eqb_eq (a b : pystr) : str_eqb a b = true <-> a = b.
Proof.
  revert b. induction a as [|x a IH]; intros [|y b]; simpl;
    try (split; [discriminate | discriminate]); [split; reflexivity|].
  rewrite andb_true_iff, Z.eqb_eq, IH. split.
  - intros [-> ->]. reflexivity.
  - intros [= -> ->]. split; reflexivity.
Qed.

Lemma str_eqb_refl (a : pystr) : str_eqb a a = true.
Proof. apply str_eqb_eq. reflexivity. Qed.

Lemma str_eqb_neq (a b : pystr) : str_eqb a b = false <-> a <> b.
Proof.
  rewrite <- str_eqb_eq. destruct (str_eqb a b); split; congruence.
Qed.

Lemma dict_get_set_same (d : dict) (k : pystr) (v : json) :
  dict_get (dict_set d k v) k = Some v.
Proof.
  induction d as [|[k0 v0] d IH]; simpl.
  - rewrite str_eqb_refl. reflexivity.
  - destruct (str_eqb k0 k) eqn:E; simpl; rewrite E; [reflexivity | exact IH].
Qed.

Lemma dict_get_set_other (d : dict) (k k' : pystr) (v : json) :
  k <> k' -> dict_get (dict_set d k' v) k = dict_get d k.
Proof.
  intros Hne. induction d as [|[k0 v0] d IH]; simpl.
  - assert (E : str_eqb k' k = false) by (apply str_eqb_neq; congruence).
    rewrite E. reflexivity.
  - destruct (str_eqb k0 k') eqn:E'; simpl.
    + apply str_eqb_eq in E'. subst k0.
      assert (E : str_eqb k' k = false) by (apply str_eqb_neq; congruence).
      rewrite E. reflexivity.
    + destruct (str_eqb k0 k); [reflexivity | exact IH].
Qed.

Lemma dict_get_pop_other (d : dict) (k k' : pystr) :
  k <> k' -> dict_get (dict_pop d k') k = dict_get d k.
Proof.
  intros Hne. induction d as [|[k0 v0] d IH]; simpl; [reflexivity|].
  destruct (str_eqb k0 k') eqn:E'; simpl.
  - apply str_eqb_eq in E'. subst k0.
    assert (E : str_eqb k' k = false) by (apply str_eqb_neq; congruence).
    rewrite E. reflexivity.
  - destruct (str_eqb k0 k); [reflexivity | exact IH].
Qed.

(** ** Request decoding *)

(** [request_selector] on a line that holds a JSON object: the three keys
    are looked up in the order [id], [method], [params], then the method
    is dispatched. *)
Lemma request_selector_object (data : bytes) (d : dict) :
  json_loads data = Ok (JObject d) ->
  request_selector data
  = match dict_get d key_id with
    | None => Raise (KeyError key_id)
    | Some request_id =>
        match dict_get d key_method with
        | None => Raise (KeyError key_method)
        | Some method =>
            match dict_get d key_params with
            | None => Raise (KeyError key_params)
            | Some params => select method request_id params
            end
        end
    end.
Proof.
  intros Hloads. unfold request_selector, _json_byte_line_to_dict.
  rewrite Hloads. cbn [bind getitem].
  destruct (dict_get d key_id) as [request_id|]; [|reflexivity].
  cbn [bind getitem].
  rewrite (dict_get_pop_other _ key_method key_id) by discriminate.
  rewrite (dict_get_set_other _ key_method key_request_id) by discriminate.
  destruct (dict_get d key_method) as [method|]; [|reflexivity].
  cbn [bind].
  rewrite (dict_get_pop_other _ key_request_id key_id) by discriminate.
  rewrite dict_get_set_same. cbn [bind].
  rewrite (dict_get_pop_other _ key_params key_id) by discriminate.
  rewrite (dict_get_set_other _ key_params key_request_id) by discriminate.
  destruct (dict_get d key_params) as [params|]; reflexivity.
Qed.

(** ** The codec *)

Lemma land_15 (x : Z) : Z.land x 15 = x mod 16.
Proof. change 15 with (Z.ones 4). rewrite Z.land_ones by lia. reflexivity. Qed.

Lemma hex_value_digit (d : Z) :
  0 <= d < 16 -> hex_value (hex_digit d) = Some d.
Proof.
  intros Hd. unfold hex_digit, hex_value.
  destruct (Z.ltb_spec d 10).
  - replace ((48 <=? 48 + d) && (48 + d <=? 57)) with true by lia.
    f_equal. lia.
  - replace ((48 <=? 87 + d) && (87 + d <=? 57)) with false by lia.
    replace ((97 <=? 87 + d) && (87 + d <=? 102)) with true by lia.
    f_equal. lia.
Qed.

Lemma decode_hex4 (n : Z) :
  0 <= n < 65536 ->
  exists a b c d, hex4 n = [a; b; c; d] /\ decode_uXXXX a b c d = Some n.
Proof.
  intros Hn. unfold hex4. do 4 eexists. split; [reflexivity|].
  unfold decode_uXXXX. rewrite !land_15, !Z.shiftr_div_pow2 by lia.
  change (2 ^ 12) with 4096. change (2 ^ 8) with 256. change (2 ^ 4) with 16.
  rewrite !hex_value_digit by (apply Z.mod_pos_bound; lia).
  f_equal. Z.div_mod_to_equations. lia.
Qed.

Lemma lor_shiftl_low (a b k : Z) :
  0 <= k -> 0 <= b < 2 ^ k -> Z.lor (Z.shiftl a k) b = a * 2 ^ k + b.
Proof.
  intros Hk Hb. rewrite <- Z.add_nocarry_lor.
  - rewrite Z.shiftl_mul_pow2 by lia. reflexivity.
  - replace b with (Z.land b (Z.ones k))
      by (rewrite Z.land_ones by lia; apply Z.mod_small; lia).
    rewrite Z.land_assoc, (Z.land_comm (Z.shiftl a k) b), <- Z.land_assoc.
    rewrite (Z.land_ones (Z.shiftl a k)) by lia.
    rewrite Z.shiftl_mul_pow2 by lia.
    rewrite Z.mod_mul by lia. apply Z.land_0_r.
Qed.

(** The two halves [encode_basestring_ascii] writes for a code point
    beyond the basic plane, and what the decoder makes of them. *)
Lemma surrogate_halves (c : Z) :
  0x10000 <= c <= 0x10FFFF ->
  let n := c - 0x10000 in
  let hi := Z.lor 0xd800 (Z.land (Z.shiftr n 10) 0x3ff) in
  let lo := Z.lor 0xdc00 (Z.land n 0x3ff) in
  0 <= hi < 65536 /\ 0 <= lo < 65536
  /\ is_high_surrogate hi = true /\ is_low_surrogate lo = true
  /\ 0x10000 + Z.lor (Z.shiftl (hi - 0xd800) 10) (lo - 0xdc00) = c.
Proof.
  intros Hc n hi lo.
  assert (Hn : 0 <= n < 1048576) by (subst n; lia).
  assert (Hhi : hi = 0xd800 + n / 1024).
  { subst hi. change 0x3ff with (Z.ones 10).
    rewrite Z.land_ones, Z.shiftr_div_pow2 by lia.
    change (2 ^ 10) with 1024.
    change 0xd800 with (Z.shiftl 54 10).
    rewrite lor_shiftl_low; change (2 ^ 10) with 1024;
      [|lia|apply Z.mod_pos_bound; lia].
    change (Z.shiftl 54 10) with 55296. Z.div_mod_to_equations. lia. }
  assert (Hlo : lo = 0xdc00 + n mod 1024).
  { subst lo. change 0x3ff with (Z.ones 10).
    rewrite Z.land_ones by lia. change (2 ^ 10) with 1024.
    change 0xdc00 with (Z.shiftl 55 10).
    rewrite lor_shiftl_low; change (2 ^ 10) with 1024;
      [|lia|apply Z.mod_pos_bound; lia].
    change (Z.shiftl 55 10) with 56320. lia. }
  assert (Hdiv : 0 <= n / 1024 < 1024) by (Z.div_mod_to_equations; lia).
  assert (Hmod : 0 <= n mod 1024 < 1024) by (apply Z.mod_pos_bound; lia).
  unfold is_high_surrogate, is_low_surrogate.
  rewrite Hhi, Hlo.
  replace (0xd800 + n / 1024 - 0xd800) with (n / 1024) by lia.
  replace (0xdc00 + n mod 1024 - 0xdc00) with (n mod 1024) by lia.
  rewrite lor_shiftl_low by (change (2 ^ 10) with 1024; lia).
  change (2 ^ 10) with 1024.
  repeat split; try lia.
  subst n. Z.div_mod_to_equations. lia.
Qed.

(** *** Decoding what the encoder wrote *)

Lemma scanstring_literal (c : Z) (tail : list Z) :
  32 <= c -> c <> 34 -> c <> 92 ->
  scanstring (c :: tail) = scanned c tail.
Proof.
  intros H32 H34 H92. cbn [scanstring].
  replace (c =? 34) with false by lia. replace (c =? 92) with false by lia.
  replace (c <? 32) with false by lia. reflexivity.
Qed.

Lemma scanstring_backslash (e ch : Z) (tail : list Z) :
  e <> 117 -> backslash e = Some ch ->
  scanstring (92 :: e :: tail) = scanned ch tail.
Proof.
  intros H117 Hb. cbn [scanstring]. change (92 =? 34) with false.
  change (92 =? 92) with true. cbn match.
  replace (e =? 117) with false by lia. rewrite Hb. reflexivity.
Qed.

Lemma scanstring_u_plain (h1 h2 h3 h4 uni : Z) (tail : list Z) :
  decode_uXXXX h1 h2 h3 h4 = Some uni ->
  (is_high_surrogate uni = true -> safe_after_high tail = true) ->
  scanstring (92 :: 117 :: h1 :: h2 :: h3 :: h4 :: tail) = scanned uni tail.
Proof.
  intros Hd Hsafe. cbn [scanstring]. change (92 =? 34) with false.
  change (92 =? 92) with true. change (117 =? 117) with true. cbn match.
  rewrite Hd. fold (scanned uni tail).
  destruct (is_high_surrogate uni); [|reflexivity].
  specialize (Hsafe eq_refl). unfold safe_after_high in Hsafe.
  destruct tail as [|b [|u r3]]; try reflexivity.
  destruct ((b =? 92) && (u =? 117)); [|reflexivity].
  destruct r3 as [|g1 [|g2 [|g3 [|g4 r4]]]]; try discriminate.
  destruct (decode_uXXXX g1 g2 g3 g4) as [uni2|]; [|discriminate].
  destruct (is_low_surrogate uni2); [discriminate | reflexivity].
Qed.

Lemma scanstring_u_pair (h1 h2 h3 h4 g1 g2 g3 g4 uni uni2 : Z) (tail : list Z) :
  decode_uXXXX h1 h2 h3 h4 = Some uni ->
  decode_uXXXX g1 g2 g3 g4 = Some uni2 ->
  is_high_surrogate uni = true ->
  is_low_surrogate uni2 = true ->
  scanstring (92 :: 117 :: h1 :: h2 :: h3 :: h4
                :: 92 :: 117 :: g1 :: g2 :: g3 :: g4 :: tail)
  = scanned (0x10000 + Z.lor (Z.shiftl (uni - 0xd800) 10) (uni2 - 0xdc00)) tail.
Proof.
  intros Hd Hd2 Hhigh Hlow. cbn [scanstring]. change (92 =? 34) with false.
  change (92 =? 92) with true. change (117 =? 117) with true. cbn match.
  rewrite Hd, Hhigh. cbn [andb]. rewrite Hd2, Hlow. reflexivity.
Qed.

(** The four shapes of an escaped code point. *)
Lemma escape_char_cases (c : Z) :
  valid_code_point c ->
  (exists e, escape_char c = [92; e] /\ e <> 117 /\ backslash e = Some c)
  \/ (escape_char c = [c] /\ 32 <= c /\ c <> 34 /\ c <> 92)
  \/ (escape_char c = 92 :: 117 :: hex4 c /\ 0 <= c < 65536)
  \/ (escape_char c = (92 :: 117 :: hex4 (high_half c))
                        ++ (92 :: 117 :: hex4 (low_half c))
      /\ 0x10000 <= c <= 0x10FFFF).
Proof.
  intros [Hlo Hhi]. unfold escape_char.
  destruct (Z.eqb_spec c 34) as [->|]; [left; exists 34; repeat split; lia|].
  destruct (Z.eqb_spec c 92) as [->|]; [left; exists 92; repeat split; lia|].
  destruct (Z.eqb_spec c 10) as [->|]; [left; exists 110; repeat split; lia|].
  destruct (Z.eqb_spec c 13) as [->|]; [left; exists 114; repeat split; lia|].
  destruct (Z.eqb_spec c 9) as [->|]; [left; exists 116; repeat split; lia|].
  destruct (Z.eqb_spec c 8) as [->|]; [left; exists 98; repeat split; lia|].
  destruct (Z.eqb_spec c 12) as [->|]; [left; exists 102; repeat split; lia|].
  destruct ((32 <=? c) && (c <=? 126)) eqn:Hprint.
  { right; left. repeat split; lia. }
  destruct (Z.ltb_spec c 0x10000).
  { right; right; left. split; [reflexivity | lia]. }
  right; right; right. split; [reflexivity | lia].
Qed.

Lemma scanstring_escape_char (c : Z) (tail : list Z) :
  valid_code_point c ->
  (is_high_surrogate c = true -> safe_after_high tail = true) ->
  scanstring (escape_char c ++ tail) = scanned c tail.
Proof.
  intros Hc Hsafe.
  destruct (escape_char_cases c Hc)
    as [(e & -> & He & Hb) | [(-> & H32 & H34 & H92) | [(-> & Hr) | (-> & Hr)]]].
  - apply scanstring_backslash; assumption.
  - apply scanstring_literal; assumption.
  - destruct (decode_hex4 c Hr) as (h1 & h2 & h3 & h4 & -> & Hd).
    apply scanstring_u_plain; assumption.
  - destruct (surrogate_halves c Hr) as (Hhi & Hlo & Hhigh & Hlow & Hjoin).
    fold (high_half c) in Hhi, Hhigh, Hjoin. fold (low_half c) in Hlo, Hlow, Hjoin.
    destruct (decode_hex4 _ Hhi) as (h1 & h2 & h3 & h4 & -> & Hd).
    destruct (decode_hex4 _ Hlo) as (g1 & g2 & g3 & g4 & -> & Hd2).
    cbn [app]. rewrite (scanstring_u_pair _ _ _ _ _ _ _ _ _ _ _ Hd Hd2 Hhigh Hlow).
    rewrite Hjoin. reflexivity.
Qed.

(** After the escape of a high surrogate the decoder looks ahead; the
    escape of anything but a low surrogate stops it. *)
Lemma safe_after_high_escape (c : Z) (tail : list Z) :
  valid_code_point c ->
  is_low_surrogate c = false ->
  safe_after_high (escape_char c ++ tail) = true.
Proof.
  intros Hc Hnot.
  destruct (escape_char_cases c Hc)
    as [(e & -> & He & Hb) | [(-> & H32 & H34 & H92) | [(-> & Hr) | (-> & Hr)]]].
  - cbn [app safe_after_high]. change (92 =? 92) with true.
    replace (e =? 117) with false by lia. reflexivity.
  - cbn [app safe_after_high]. destruct tail as [|u r3]; [reflexivity|].
    replace (c =? 92) with false by lia. reflexivity.
  - destruct (decode_hex4 c Hr) as (h1 & h2 & h3 & h4 & -> & Hd).
    cbn [app safe_after_high]. change (92 =? 92) with true.
    change (117 =? 117) with true. cbn [andb]. rewrite Hd, Hnot. reflexivity.
  - destruct (surrogate_halves c Hr) as (Hhi & Hlo & Hhigh & Hlow & Hjoin).
    fold (high_half c) in Hhi, Hhigh.
    destruct (decode_hex4 _ Hhi) as (h1 & h2 & h3 & h4 & -> & Hd).
    cbn [app safe_after_high]. change (92 =? 92) with true.
    change (117 =? 117) with true. cbn [andb]. rewrite Hd.
    unfold is_high_surrogate in Hhigh. unfold is_low_surrogate.
    replace (0xDC00 <=? high_half c) with false by lia. reflexivity.
Qed.

(** [scanstring] reads back what [encode_basestring_ascii] wrote, up to
    the closing quote. *)
Lemma scanstring_escaped (s : pystr) (rest : list Z) :
  valid_str s ->
  no_surrogate_pair s = true ->
  scanstring (flat_map escape_char s ++ 34 :: rest) = Ok (s, rest).
Proof.
  intros Hvalid. induction Hvalid as [|c s Hc Hs IH]; intros Hpair.
  - reflexivity.
  - cbn [flat_map]. rewrite <- app_assoc.
    cbn [no_surrogate_pair] in Hpair. apply andb_true_iff in Hpair.
    destruct Hpair as [Hhead Htail].
    rewrite scanstring_escape_char; [|exact Hc|].
    + unfold scanned. rewrite (IH Htail). reflexivity.
    + intros Hhigh. destruct Hs as [|c2 s' Hc2 Hs'];
        [destruct rest; reflexivity|].
      cbn [flat_map]. rewrite <- app_assoc.
      apply safe_after_high_escape; [exact Hc2|].
      rewrite Hhigh in Hhead. cbn [andb] in Hhead.
      destruct (is_low_surrogate c2); [discriminate | reflexivity].
Qed.

(** *** The encoder writes ASCII *)

Lemma hex_digit_ascii (x : Z) : 0 <= hex_digit (Z.land x 15) < 128.
Proof.
  rewrite land_15. pose proof (Z.mod_pos_bound x 16 ltac:(lia)) as H.
  unfold hex_digit. destruct (x mod 16 <? 10); lia.
Qed.

Lemma hex4_ascii (n : Z) : ascii_text (hex4 n).
Proof. unfold hex4. repeat constructor; apply hex_digit_ascii. Qed.

Lemma escape_char_ascii (c : Z) : ascii_text (escape_char c).
Proof.
  unfold escape_char, ascii_text.
  repeat match goal with
         | |- Forall _ (if ?b then _ else _) => destruct b eqn:?
         end;
    try (repeat constructor; lia).
  - repeat constructor; try lia; apply hex_digit_ascii.
  - apply Forall_app. split; repeat constructor; try lia; apply hex_digit_ascii.
Qed.

Lemma encode_basestring_ascii_ascii (s : pystr) :
  ascii_text (encode_basestring_ascii s).
Proof.
  unfold encode_basestring_ascii, ascii_text.
  constructor; [lia|]. apply Forall_app. split; [|repeat constructor; lia].
  induction s as [|c s IH]; [constructor|].
  cbn [flat_map]. apply Forall_app. split; [apply escape_char_ascii | exact IH].
Qed.

Lemma uint_digits_ascii (u : Decimal.uint) : ascii_text (uint_digits u).
Proof. induction u; simpl; constructor; try lia; assumption. Qed.

Lemma int_repr_ascii (z : Z) : ascii_text (int_repr z).
Proof.
  unfold int_repr. destruct (Z.to_int z);
    [|constructor; [lia|]]; apply uint_digits_ascii.
Qed.

Lemma join_ascii (sep : pystr) (parts : list pystr) :
  ascii_text sep -> Forall ascii_text parts -> ascii_text (join sep parts).
Proof.
  intros Hsep. induction 1 as [|p parts Hp Hparts IH]; [constructor|].
  cbn [join]. destruct parts as [|q parts]; [exact Hp|].
  apply Forall_app. split; [exact Hp|]. apply Forall_app. split; assumption.
Qed.

Lemma json_dumps_ascii (v : json) : ascii_text (json_dumps v).
Proof.
  induction v as [|b|z|s|l IH|d IH] using json_nested_ind.
  - repeat constructor; lia.
  - destruct b; repeat constructor; lia.
  - apply int_repr_ascii.
  - apply encode_basestring_ascii_ascii.
  - cbn [json_dumps]. constructor; [lia|]. apply Forall_app.
    split; [|repeat constructor; lia].
    apply join_ascii; [repeat constructor; lia|].
    apply Forall_map. exact IH.
  - cbn [json_dumps]. constructor; [lia|]. apply Forall_app.
    split; [|repeat constructor; lia].
    apply join_ascii; [repeat constructor; lia|].
    apply Forall_map. eapply Forall_impl; [|exact IH].
    intros [k x] Hx. cbn [fst snd] in *.
    apply Forall_app. split; [apply encode_basestring_ascii_ascii|].
    apply Forall_app. split; [repeat constructor; lia | exact Hx].
Qed.

Lemma str_encode_ascii (s : pystr) : ascii_text s -> str_encode s = Ok s.
Proof.
  induction 1 as [|c s Hc _ IH]; [reflexivity|].
  cbn [str_encode]. unfold utf8_encode_char.
  replace (c <? 0x80) with true by lia. cbn [bind]. rewrite IH. reflexivity.
Qed.

Lemma utf8_decode_ascii (surrogatepass : bool) (b : bytes) :
  ascii_text b -> utf8_decode surrogatepass b = Ok b.
Proof.
  induction 1 as [|c s Hc _ IH]; [reflexivity|].
  cbn [utf8_decode]. replace (c <? 0x80) with true by lia.
  rewrite IH. reflexivity.
Qed.

(** *** Lines on the wire *)

Lemma ping_response_dumps (request_id : json) :
  json_dumps (JObject [(key_id, request_id); (key_result, JList [JStr lit_pong])])
    ++ [10]
  = ping_response request_id.
Proof.
  unfold ping_response. cbn [json_dumps map join fst snd].
  generalize (json_dumps request_id). intros x.
  cbn. rewrite <- ?app_assoc. reflexivity.
Qed.

Lemma ping_line_dumps (request_id : json) :
  json_dumps (JObject [(key_id, request_id); (key_method, JStr lit_ping);
                       (key_params, JNull)]) ++ [10]
  = ping_line request_id.
Proof.
  unfold ping_line. cbn [json_dumps map join fst snd].
  generalize (json_dumps request_id). intros x.
  cbn. rewrite <- ?app_assoc. reflexivity.
Qed.

Lemma ping_response_ascii (request_id : json) : ascii_text (ping_response request_id).
Proof.
  unfold ping_response. apply Forall_app. split; [repeat constructor; lia|].
  apply Forall_app. split; [apply json_dumps_ascii | repeat constructor; lia].
Qed.

Lemma ping_line_ascii (request_id : json) : ascii_text (ping_line request_id).
Proof.
  unfold ping_line. apply Forall_app. split; [repeat constructor; lia|].
  apply Forall_app. split; [apply json_dumps_ascii | repeat constructor; lia].
Qed.

Lemma response_ping_line (rid : json) :
  response_ping (request_base (RequestPing rid)) = Ok (ping_response rid).
Proof.
  unfold response_ping, _get_reponse_bytes, _dict_to_json_byte_line.
  cbn [request_base RequestPing request_id].
  rewrite ping_response_dumps. apply str_encode_ascii, ping_response_ascii.
Qed.

Lemma to_json_byte_line_ping (rid : json) :
  to_json_byte_line (request_base (RequestPing rid)) = Ok (ping_line rid).
Proof.
  unfold to_json_byte_line, _dict_to_json_byte_line.
  cbn [request_base RequestPing request_id method params].
  rewrite ping_line_dumps. apply str_encode_ascii, ping_line_ascii.
Qed.

Lemma scan_ping_line_str (s : pystr) (f : nat) :
  valid_str s -> no_surrogate_pair s = true ->
  scan_once (S (S (S (S (S f))))) (ping_line (JStr s))
  = Ok (JObject [(key_id, JStr s); (key_method, JStr lit_ping); (key_params, JNull)],
        [10]).
Proof.
  intros Hv Hp. unfold ping_line, ping_line_head. cbn [json_dumps].
  unfold encode_basestring_ascii. cbn [app]. rewrite <- app_assoc. cbn [app].
  cbn -[ping_line_tail].
  rewrite (scanstring_escaped s _ Hv Hp). reflexivity.
Qed.

Lemma scan_ping_line_null (f : nat) :
  scan_once (S (S (S (S (S f))))) (ping_line JNull)
  = Ok (JObject [(key_id, JNull); (key_method, JStr lit_ping); (key_params, JNull)],
        [10]).
Proof. reflexivity. Qed.

Lemma detect_encoding_ping_line (rid : json) : detect_encoding (ping_line rid) = UTF8.
Proof.
  unfold ping_line, ping_line_head. cbn [app].
  generalize (json_dumps rid ++ ping_line_tail). intros x. reflexivity.
Qed.

(** [json.loads] of the line of a Ping request whose id is [None] or a
    string without a surrogate pair. *)
Lemma json_loads_ping_line (rid : option pystr) :
  match rid with
  | Some s => valid_str s /\ no_surrogate_pair s = true
  | None => True
  end ->
  json_loads (ping_line (id_value rid))
  = Ok (JObject [(key_id, id_value rid); (key_method, JStr lit_ping);
                 (key_params, JNull)]).
Proof.
  intros Hrid. unfold json_loads.
  rewrite detect_encoding_ping_line. cbn [bind].
  rewrite (utf8_decode_ascii true _ (ping_line_ascii _)). cbn [bind].
  assert (Hskip : skip_ws (ping_line (id_value rid)) = ping_line (id_value rid))
    by reflexivity.
  rewrite Hskip.
  assert (Hlen : exists f, S (length (ping_line (id_value rid))
                              + length (ping_line (id_value rid)))
                           = S (S (S (S (S f))))).
  { unfold ping_line, ping_line_head. cbn [app length Nat.add].
    eexists. reflexivity. }
  destruct Hlen as [f ->].
  destruct rid as [s|]; cbn [id_value].
  - destruct Hrid as [Hv Hp]. rewrite (scan_ping_line_str s f Hv Hp). reflexivity.
  - rewrite scan_ping_line_null. reflexivity.
Qed.

(** ** The connection handler on one line *)

Section Handler.

Variable create_subprocess_exec : json -> result process.

Lemma request_selector_empty : request_selector [] = Raise JSONDecodeError.
Proof. reflexivity. Qed.

Lemma client_handler_raise (data : bytes) (rest : list bytes) (e : exn) :
  request_selector data = Raise e ->
  e <> JSONDecodeError ->
  client_handler create_subprocess_exec (data :: rest) = ([], Raise e).
Proof.
  intros Hsel He. destruct data as [|b data].
  - rewrite request_selector_empty in Hsel. congruence.
  - cbn [client_handler]. rewrite Hsel. reflexivity.
Qed.

Lemma client_handler_ping (data : bytes) (rest : list bytes) (rid : json) :
  request_selector data = Ok (RequestPing rid) ->
  client_handler create_subprocess_exec (data :: rest)
  = (EvWrite (ping_response rid) :: EvDrain
       :: fst (client_handler create_subprocess_exec rest),
     snd (client_handler create_subprocess_exec rest)).
Proof.
  intros Hsel. destruct data as [|b data].
  - rewrite request_selector_empty in Hsel. discriminate.
  - cbn [client_handler]. rewrite Hsel. unfold RequestPing.
    cbn [lift io_bind app].
    pose proof (response_ping_line rid) as Hresp.
    unfold RequestPing in Hresp. cbn [request_base] in Hresp. rewrite Hresp.
    cbn [lift emit io_bind app].
    destruct (client_handler create_subprocess_exec rest) as [t r].
    destruct r; reflexivity.
Qed.

Lemma client_handler_run_inherit (data : bytes) (rest : list bytes)
    (rid args wait : json) (p : process) :
  request_selector data = Ok (RequestRun args wait rid) ->
  truthy wait = false ->
  create_subprocess_exec args = Ok p ->
  client_handler create_subprocess_exec (data :: rest)
  = (EvCreateSubprocess args None None None :: EvProcessWait
       :: fst (client_handler create_subprocess_exec rest),
     snd (client_handler create_subprocess_exec rest)).
Proof.
  intros Hsel Hwait Hspawn. destruct data as [|b data].
  - rewrite request_selector_empty in Hsel. discriminate.
  - cbn [client_handler]. rewrite Hsel. unfold RequestRun.
    cbn [lift io_bind app]. rewrite Hwait.
    pose proof (run_command_inherit create_subprocess_exec args p Hspawn) as Hrun.
    unfold Inherit in Hrun. rewrite Hrun.
    destruct (client_handler create_subprocess_exec rest) as [t r].
    destruct r; reflexivity.
Qed.

End Handler.

(** C9. A line holding a JSON object that lacks one of the keys ["id"],
    ["method"], ["params"] fails to decode with [KeyError] on a missing
    key, for a Ping as for any other request, and the handler raises it
    before anything is dispatched: nothing is spawned or written. *)
Theorem request_selector_requires_keys (create_subprocess_exec : json -> result process)
    (data : bytes) (d : dict) (rest : list bytes) :
  json_loads data = Ok (JObject d) ->
  dict_get d key_id = None \/ dict_get d key_method = None
  \/ dict_get d key_params = None ->
  exists key,
    In key [key_id; key_method; key_params]
    /\ dict_get d key = None
    /\ request_selector data = Raise (KeyError key)
    /\ client_handler create_subprocess_exec (data :: rest) = ([], Raise (KeyError key)).
Proof.
  intros Hloads Hmissing.
  pose proof (request_selector_object data d Hloads) as Hsel.
  assert (Hkey : exists key, In key [key_id; key_method; key_params]
                             /\ dict_get d key = None
                             /\ request_selector data = Raise (KeyError key)).
  { destruct (dict_get d key_id) eqn:Hid.
    2:{ exists key_id. simpl. auto. }
    destruct (dict_get d key_method) eqn:Hmethod.
    2:{ exists key_method. simpl. auto. }
    destruct (dict_get d key_params) eqn:Hparams.
    2:{ exists key_params. simpl. auto 6. }
    destruct Hmissing as [H | [H | H]]; discriminate. }
  destruct Hkey as (key & Hin & Hnone & Hraise).
  exists key. repeat split; try assumption.
  apply client_handler_raise; [exact Hraise | discriminate].
Qed.

Lemma request_selector_requires_keys_witness :
  json_loads line_ping_without_params
  = Ok (JObject [(key_id, JNull); (key_method, JStr lit_ping)])
  /\ exists key,
      In key [key_id; key_method; key_params]
      /\ dict_get [(key_id, JNull); (key_method, JStr lit_ping)] key = None
      /\ request_selector line_ping_without_params = Raise (KeyError key)
      /\ client_handler sample_spawn [line_ping_without_params; line_ping_id_7]
         = ([], Raise (KeyError key)).
Proof.
  split; [reflexivity|].
  apply (request_selector_requires_keys sample_spawn line_ping_without_params
           [(key_id, JNull); (key_method, JStr lit_ping)] [line_ping_id_7]).
  - reflexivity.
  - right; right. reflexivity.
Defined.

(** C10, as the code has it. A run request whose params hold
    [args_to_run], no [wait_response] and no key of another name decodes
    to a run request with [wait_response] false; the handler runs it in
    Inherit mode, waits for the child, writes no response and goes on with
    the next line. Params that hold a key other than [args_to_run] and
    [wait_response] are refused with [TypeError], whether or not they
    hold [args_to_run], and the handler raises it before any effect. *)
Theorem run_without_wait_response (create_subprocess_exec : json -> result process)
    (data : bytes) (d kw : dict) (rid : json) (rest : list bytes) :
  json_loads data = Ok (JObject d) ->
  dict_get d key_id = Some rid ->
  dict_get d key_method = Some (JStr lit_run) ->
  dict_get d key_params = Some (JObject kw) ->
  (forall args p,
      run_keywords_ok kw = true ->
      dict_get kw key_args_to_run = Some args ->
      dict_get kw key_wait_response = None ->
      create_subprocess_exec args = Ok p ->
      request_selector data = Ok (RequestRun args (JBool false) rid)
      /\ client_handler create_subprocess_exec (data :: rest)
         = (EvCreateSubprocess args None None None :: EvProcessWait
              :: fst (client_handler create_subprocess_exec rest),
            snd (client_handler create_subprocess_exec rest)))
  /\ (run_keywords_ok kw = false ->
      request_selector data = Raise TypeError
      /\ client_handler create_subprocess_exec (data :: rest) = ([], Raise TypeError)).
Proof.
  intros Hloads Hid Hmethod Hparams.
  assert (Hsel : request_selector data = RequestRun_kwargs rid (JObject kw)).
  { rewrite (request_selector_object data d Hloads), Hid, Hmethod, Hparams.
    reflexivity. }
  unfold RequestRun_kwargs in Hsel. fold (run_keywords_ok kw) in Hsel.
  split.
  - intros args p Hkeys Hargs Hwait Hspawn.
    rewrite Hkeys, Hargs, Hwait in Hsel.
    split; [exact Hsel|].
    exact (client_handler_run_inherit create_subprocess_exec data rest rid args
             (JBool false) p Hsel eq_refl Hspawn).
  - intros Hkeys. rewrite Hkeys in Hsel.
    split; [exact Hsel|].
    apply client_handler_raise; [exact Hsel | discriminate].
Qed.

Lemma run_without_wait_response_witness :
  json_loads line_run_ls
  = Ok (JObject [(key_id, JStr [97]); (key_method, JStr lit_run);
                 (key_params, JObject [(key_args_to_run, args_ls)])])
  /\ request_selector line_run_ls = Ok (RequestRun args_ls (JBool false) (JStr [97]))
  /\ client_handler sample_spawn [line_run_ls]
     = ([EvCreateSubprocess args_ls None None None; EvProcessWait;
         EvWriterClose; EvWriterWaitClosed], Ok tt).
Proof.
  split; [reflexivity|].
  exact (proj1 (run_without_wait_response sample_spawn line_run_ls
                  [(key_id, JStr [97]); (key_method, JStr lit_run);
                   (key_params, JObject [(key_args_to_run, args_ls)])]
                  [(key_args_to_run, args_ls)] (JStr [97]) []
                  eq_refl eq_refl eq_refl eq_refl)
           args_ls sample_process eq_refl eq_refl eq_refl eq_refl).
Defined.

(** The claim fails when the params hold a further key: a line whose
    params hold [args_to_run], no [wait_response] and ["cwd"] is refused
    with [TypeError], and the handler ends with it. *)
Lemma run_with_another_key_is_refused :
  request_selector line_run_extra_key = Raise TypeError
  /\ client_handler sample_spawn [line_run_extra_key] = ([], Raise TypeError)
  /\ ~ run_accepted_without_wait_response line_run_extra_key.
Proof.
  assert (Hsel : request_selector line_run_extra_key = Raise TypeError)
    by (vm_compute; reflexivity).
  split; [exact Hsel|]. split; [vm_compute; reflexivity|].
  intros H.
  specialize (H [(key_id, JInt 1); (key_method, JStr lit_run);
                 (key_params, JObject [(key_args_to_run, args_ls);
                                       (str_lit "cwd", JStr [47])])]
                (JInt 1)
                [(key_args_to_run, args_ls); (str_lit "cwd", JStr [47])]
                args_ls eq_refl eq_refl eq_refl eq_refl eq_refl eq_refl).
  rewrite Hsel in H. discriminate H.
Qed.

(** C6. Whatever the request id, [None] included, the response to a Ping
    request is the line [{"id": <the id>, "result": ["pong"]}] with the
    id encoded as it is held, and this is what the handler writes for a
    line that decodes to a Ping request. *)
Theorem ping_response_exact (create_subprocess_exec : json -> result process)
    (rid : json) :
  response_ping (request_base (RequestPing rid))
  = Ok (ping_line_head ++ json_dumps rid ++ ping_response_tail)
  /\ forall data rest,
       request_selector data = Ok (RequestPing rid) ->
       client_handler create_subprocess_exec (data :: rest)
       = (EvWrite (ping_line_head ++ json_dumps rid ++ ping_response_tail)
            :: EvDrain :: fst (client_handler create_subprocess_exec rest),
          snd (client_handler create_subprocess_exec rest)).
Proof.
  split; [apply response_ping_line|].
  intros data rest Hsel. apply client_handler_ping, Hsel.
Qed.

Lemma ping_response_exact_witness :
  request_selector line_ping_id_7 = Ok (RequestPing (JInt 7))
  /\ response_ping (request_base (RequestPing JNull))
     = Ok (json_text "{'id': null, 'result': ['pong']}" ++ [10])
  /\ client_handler sample_spawn [line_ping_id_7]
     = ([EvWrite (json_text "{'id': 7, 'result': ['pong']}" ++ [10]); EvDrain;
         EvWriterClose; EvWriterWaitClosed], Ok tt).
Proof.
  assert (Hsel : request_selector line_ping_id_7 = Ok (RequestPing (JInt 7)))
    by reflexivity.
  split; [exact Hsel|]. split.
  - exact (proj1 (ping_response_exact sample_spawn JNull)).
  - exact (proj2 (ping_response_exact sample_spawn (JInt 7)) line_ping_id_7 [] Hsel).
Defined.

(** C7, as the code has it. For a Ping request whose id is [None] or a
    string in which no high surrogate is directly followed by a low
    surrogate, encoding the request to a line and decoding the line gives
    a Ping request with the same method and the same id. *)
Theorem ping_round_trip (request_id : option pystr) :
  id_round_trips request_id ->
  exists line,
    to_json_byte_line (request_base (RequestPing (id_value request_id))) = Ok line
    /\ request_selector line = Ok (RequestPing (id_value request_id))
    /\ method (request_base (RequestPing (id_value request_id))) = lit_ping.
Proof.
  intros Hid. exists (ping_line (id_value request_id)).
  split; [apply to_json_byte_line_ping|]. split; [|reflexivity].
  rewrite (request_selector_object _ _ (json_loads_ping_line request_id Hid)).
  reflexivity.
Qed.

Lemma ping_round_trip_witness :
  id_round_trips (Some [0x1F600; 34; 0xD83D; 10; 0xDE00])
  /\ exists line,
      to_json_byte_line
        (request_base (RequestPing (JStr [0x1F600; 34; 0xD83D; 10; 0xDE00]))) = Ok line
      /\ request_selector line = Ok (RequestPing (JStr [0x1F600; 34; 0xD83D; 10; 0xDE00]))
      /\ method (request_base (RequestPing (JStr [0x1F600; 34; 0xD83D; 10; 0xDE00])))
         = lit_ping.
Proof.
  assert (H : id_round_trips (Some [0x1F600; 34; 0xD83D; 10; 0xDE00])).
  { split; [|reflexivity]. repeat constructor; unfold valid_code_point; lia. }
  split; [exact H|].
  exact (ping_round_trip (Some [0x1F600; 34; 0xD83D; 10; 0xDE00]) H).
Defined.

(** The claim fails for an id that holds a surrogate pair: the encoder
    writes the two surrogates as two escapes, and the decoder reads the two
    escapes as one code point. *)
Lemma surrogate_pair_id_changes :
  valid_str [0xD83D; 0xDE00]
  /\ (let! line := to_json_byte_line
                     (request_base (RequestPing (JStr [0xD83D; 0xDE00]))) in
      request_selector line)
     = Ok (RequestPing (JStr [0x1F600]))
  /\ ~ every_ping_round_trips.
Proof.
  assert (Hv : valid_str [0xD83D; 0xDE00])
    by (repeat constructor; unfold valid_code_point; lia).
  split; [exact Hv|]. split; [reflexivity|].
  intros H. destruct (H (Some [0xD83D; 0xDE00]) Hv) as (line & Henc & Hdec).
  cbn [id_value] in Henc, Hdec.
  rewrite to_json_byte_line_ping in Henc. injection Henc as <-.
  assert (Hreal : request_selector (ping_line (JStr [0xD83D; 0xDE00]))
                  = Ok (RequestPing (JStr [0x1F600]))) by reflexivity.
  rewrite Hreal in Hdec. discriminate.
Qed.

(** *** The scanner's fuel is enough *)

Lemma skip_ws_length (s : list Z) : (length (skip_ws s) <= length s)%nat.
Proof.
  induction s as [|c s IH]; simpl; [lia|].
  destruct (is_ws c); simpl; lia.
Qed.

Lemma strip_prefix_length (p s r : list Z) :
  strip_prefix p s = Some r -> (length r + length p = length s)%nat.
Proof.
  revert s. induction p as [|x p IH]; intros [|y s] H; simpl in *;
    try discriminate; try (injection H as <-; simpl; lia).
  destruct (x =? y); [|discriminate]. apply IH in H. lia.
Qed.

Lemma span_digits_length (s : list Z) :
  (length (snd (span_digits s)) <= length s)%nat.
Proof.
  induction s as [|c s IH]; simpl; [lia|].
  destruct (is_digit c); [|simpl; lia].
  destruct (span_digits s). simpl in *. lia.
Qed.

Lemma scan_number_shorter (s : list Z) (v : json) (r : list Z) :
  scan_number s = Some (Ok (v, r)) -> (length r < length s)%nat.
Proof.
  unfold scan_number.
  assert (Hint : forall body ds rest,
             match_integer body = Some (ds, rest) ->
             (length rest < length body)%nat).
  { intros [|c body] ds rest; simpl; [discriminate|].
    destruct (c =? 48); [intros [= <- <-]; lia|].
    destruct (is_digit c); [|discriminate].
    pose proof (span_digits_length body) as Hs.
    destruct (span_digits body) as [ds' rest']. intros [= <- <-]. simpl in Hs. lia. }
  destruct s as [|c s0].
  - simpl. discriminate.
  - destruct (c =? 45).
    + destruct (match_integer s0) as [[ds rest]|] eqn:E; [|discriminate].
      apply Hint in E. destruct (has_frac rest || has_exp rest); [discriminate|].
      intros [= <- <-]. simpl. lia.
    + destruct (match_integer (c :: s0)) as [[ds rest]|] eqn:E; [|discriminate].
      apply Hint in E. destruct (has_frac rest || has_exp rest); [discriminate|].
      intros [= <- <-]. exact E.
Qed.


Lemma consumes_raise {A} (e : exn) (s : list Z) :
  e <> OutOfFuel -> consumes (@Raise (A * list Z) e) s.
Proof. intros He. split; [congruence | discriminate]. Qed.

Lemma consumes_ok {A} (a : A) (r s : list Z) :
  (length r < length s)%nat -> consumes (Ok (a, r)) s.
Proof. intros H. split; [discriminate|]. intros a' r' [= <- <-]. exact H. Qed.

Lemma consumes_bind {A B} (m : result (A * list Z))
    (k : A * list Z -> result (B * list Z)) (x s : list Z) :
  consumes m x ->
  (forall a r, (length r < length x)%nat -> consumes (k (a, r)) s) ->
  consumes (bind m k) s.
Proof.
  intros [Hne Hlt] Hk. destruct m as [[a r]|e]; cbn [bind].
  - apply Hk. exact (Hlt a r eq_refl).
  - apply consumes_raise. congruence.
Qed.

Lemma scanstring_consumes_upto (n : nat) :
  forall s, (length s <= n)%nat -> consumes (scanstring s) s.
Proof.
  induction n as [|n IH]; intros s Hlen;
    (destruct s as [|c s]; [apply consumes_raise; discriminate|]);
    simpl in Hlen; [lia|].
  assert (Hleaf : forall (ch : Z) (x : list Z),
             (length x < length (c :: s))%nat -> consumes (scanned ch x) (c :: s)).
  { intros ch x Hx. unfold scanned.
    apply (consumes_bind _ _ x); [apply IH; simpl in Hx; lia|].
    intros str r Hr. apply consumes_ok. lia. }
  cbn [scanstring]. fold (scanned c s).
  destruct (c =? 34); [apply consumes_ok; simpl; lia|].
  destruct (c =? 92).
  - destruct s as [|e r1]; [apply consumes_raise; discriminate|].
    destruct (e =? 117).
    + destruct r1 as [|h1 [|h2 [|h3 [|h4 r2]]]];
        try (apply consumes_raise; discriminate).
      destruct (decode_uXXXX h1 h2 h3 h4) as [uni|];
        [|apply consumes_raise; discriminate].
      fold (scanned uni r2).
      assert (Hplain : consumes (scanned uni r2)
                         (c :: e :: h1 :: h2 :: h3 :: h4 :: r2))
        by (apply Hleaf; simpl; lia).
      destruct (is_high_surrogate uni); [|exact Hplain].
      destruct r2 as [|b [|u r3]]; try exact Hplain.
      destruct ((b =? 92) && (u =? 117)); [|exact Hplain].
      destruct r3 as [|g1 [|g2 [|g3 [|g4 r4]]]];
        try (apply consumes_raise; discriminate).
      destruct (decode_uXXXX g1 g2 g3 g4) as [uni2|];
        [|apply consumes_raise; discriminate].
      destruct (is_low_surrogate uni2); [|exact Hplain].
      match goal with
      | |- consumes (let! (_, _) := scanstring r4 in Ok (?ch :: _, _)) _ =>
          fold (scanned ch r4)
      end.
      apply Hleaf. simpl. lia.
    + destruct (backslash e) as [ch|]; [|apply consumes_raise; discriminate].
      fold (scanned ch r1). apply Hleaf. simpl. lia.
  - destruct (c <? 32); [apply consumes_raise; discriminate|].
    apply Hleaf. simpl. lia.
Qed.

Lemma scanstring_consumes (s : list Z) : consumes (scanstring s) s.
Proof. apply (scanstring_consumes_upto (length s)). lia. Qed.

Lemma scan_number_consumes (s : list Z) (res : result (json * list Z)) :
  scan_number s = Some res -> consumes res s.
Proof.
  intros H. destruct res as [[v r]|e].
  - apply consumes_ok. exact (scan_number_shorter s v r H).
  - apply consumes_raise. intros ->. unfold scan_number in H.
    destruct (match s with
              | [] => (false, s)
              | c :: r => if c =? 45 then (true, r) else (false, s)
              end) as [neg body].
    destruct (match_integer body) as [[ds rest]|]; [|discriminate].
    destruct (has_frac rest || has_exp rest); discriminate.
Qed.

(** With two units of fuel per character the three scanning functions
    never run out, and each leaves less text than it was given. *)
Lemma scan_once_fuel (fuel : nat) :
  (forall s, (2 * length s < fuel)%nat -> consumes (scan_once fuel s) s)
  /\ (forall s acc, (2 * length s + 1 < fuel)%nat ->
        consumes (object_members fuel s acc) s)
  /\ (forall s acc, (2 * length s + 1 < fuel)%nat ->
        consumes (array_elements fuel s acc) s).
Proof.
  induction fuel as [|f (IHscan & IHobj & IHarr)].
  { repeat split; intros; lia. }
  split; [|split].
  - intros [|c r] Hfuel; [apply consumes_raise; discriminate|].
    cbn [scan_once]. simpl in Hfuel.
    destruct (c =? 34).
    { apply (consumes_bind _ _ r); [apply scanstring_consumes|].
      intros str rest Hrest. apply consumes_ok. simpl. lia. }
    destruct (c =? 123).
    { pose proof (skip_ws_length r) as Hws.
      destruct (skip_ws r) as [|c' r']; [apply consumes_raise; discriminate|].
      simpl in Hws.
      destruct (c' =? 125); [apply consumes_ok; simpl; lia|].
      destruct (c' =? 34); [|apply consumes_raise; discriminate].
      destruct (IHobj r' [] ltac:(lia)) as [Hne Hlt].
      split; [exact Hne|]. intros v rest Hres. specialize (Hlt v rest Hres).
      simpl. lia. }
    destruct (c =? 91).
    { pose proof (skip_ws_length r) as Hws.
      destruct (skip_ws r) as [|c' r']; [apply consumes_raise; discriminate|].
      destruct (c' =? 93); [apply consumes_ok; simpl in *; lia|].
      destruct (IHarr (c' :: r') [] ltac:(lia)) as [Hne Hlt].
      split; [exact Hne|]. intros v rest Hres. specialize (Hlt v rest Hres).
      simpl in *. lia. }
    destruct (strip_prefix lit_null (c :: r)) as [rest|] eqn:Hnull.
    { apply strip_prefix_length in Hnull. apply consumes_ok.
      change (length lit_null) with 4%nat in Hnull. lia. }
    destruct (strip_prefix lit_true (c :: r)) as [rest|] eqn:Htrue.
    { apply strip_prefix_length in Htrue. apply consumes_ok.
      change (length lit_true) with 4%nat in Htrue. lia. }
    destruct (strip_prefix lit_false (c :: r)) as [rest|] eqn:Hfalse.
    { apply strip_prefix_length in Hfalse. apply consumes_ok.
      change (length lit_false) with 5%nat in Hfalse. lia. }
    destruct (scan_number (c :: r)) as [res|] eqn:Hnum.
    { exact (scan_number_consumes _ _ Hnum). }
    destruct (starts_with lit_NaN (c :: r) || starts_with lit_Infinity (c :: r)
              || starts_with lit_neg_Infinity (c :: r));
      apply consumes_raise; discriminate.
  - intros s acc Hfuel. cbn [object_members].
    apply (consumes_bind _ _ s); [apply scanstring_consumes|].
    intros key r1 Hr1.
    pose proof (skip_ws_length r1) as Hws1.
    destruct (skip_ws r1) as [|colon r2]; [apply consumes_raise; discriminate|].
    simpl in Hws1.
    destruct (colon =? 58); [|apply consumes_raise; discriminate].
    pose proof (skip_ws_length r2) as Hws2.
    apply (consumes_bind _ _ (skip_ws r2)); [apply IHscan; lia|].
    intros value r3 Hr3.
    pose proof (skip_ws_length r3) as Hws3.
    destruct (skip_ws r3) as [|c r4]; [apply consumes_raise; discriminate|].
    simpl in Hws3.
    destruct (c =? 125); [apply consumes_ok; lia|].
    destruct (c =? 44); [|apply consumes_raise; discriminate].
    pose proof (skip_ws_length r4) as Hws4.
    destruct (skip_ws r4) as [|q r5]; [apply consumes_raise; discriminate|].
    simpl in Hws4.
    destruct (q =? 34); [|apply consumes_raise; discriminate].
    destruct (IHobj r5 (dict_set acc key value) ltac:(lia)) as [Hne Hlt].
    split; [exact Hne|]. intros v rest Hres. specialize (Hlt v rest Hres). lia.
  - intros s acc Hfuel. cbn [array_elements].
    apply (consumes_bind _ _ s); [apply IHscan; lia|].
    intros value r1 Hr1.
    pose proof (skip_ws_length r1) as Hws1.
    destruct (skip_ws r1) as [|c r2]; [apply consumes_raise; discriminate|].
    simpl in Hws1.
    destruct (c =? 93); [apply consumes_ok; lia|].
    destruct (c =? 44); [|apply consumes_raise; discriminate].
    pose proof (skip_ws_length r2) as Hws2.
    destruct (IHarr (skip_ws r2) (acc ++ [value]) ltac:(lia)) as [Hne Hlt].
    split; [exact Hne|]. intros v rest Hres. specialize (Hlt v rest Hres). lia.
Qed.

Lemma utf8_decode_no_fuel (surrogatepass : bool) (n : nat) :
  forall b, (length b <= n)%nat -> utf8_decode surrogatepass b <> Raise OutOfFuel.
Proof.
  induction n as [|n IH]; intros b Hlen;
    (destruct b as [|b0 r]; [discriminate|]); simpl in Hlen; [lia|].
  assert (Hleaf : forall (c : Z) (x : bytes),
             (length x <= n)%nat ->
             (let! s := utf8_decode surrogatepass x in Ok (c :: s))
             <> Raise OutOfFuel).
  { intros c x Hx. specialize (IH x Hx).
    destruct (utf8_decode surrogatepass x); cbn [bind]; congruence. }
  cbn [utf8_decode].
  destruct (b0 <? 0x80); [apply Hleaf; lia|].
  destruct (b0 <? 0xC2); [discriminate|].
  destruct (b0 <? 0xE0).
  { destruct r as [|b1 r1]; [discriminate|].
    destruct (is_cont b1); [apply Hleaf; simpl in Hlen; lia | discriminate]. }
  destruct (b0 <? 0xF0).
  { destruct r as [|b1 [|b2 r2]]; try discriminate.
    match goal with |- (if ?b then _ else _) <> _ => destruct b end;
      [apply Hleaf; simpl in Hlen; lia | discriminate]. }
  destruct (b0 <? 0xF5); [|discriminate].
  destruct r as [|b1 [|b2 [|b3 r3]]]; try discriminate.
  match goal with |- (if ?b then _ else _) <> _ => destruct b end;
    [apply Hleaf; simpl in Hlen; lia | discriminate].
Qed.

(** [json_loads] never stops for lack of fuel. *)
Lemma json_loads_total (data : bytes) : json_loads data <> Raise OutOfFuel.
Proof.
  unfold json_loads.
  destruct (detect_encoding data); cbn [bind]; try discriminate.
  - pose proof (utf8_decode_no_fuel true (length data) data (Nat.le_refl _)) as Hd.
    destruct (utf8_decode true data) as [s|e]; cbn [bind]; [|congruence].
    pose proof (skip_ws_length s) as Hws.
    destruct (proj1 (scan_once_fuel (S (length s + length s))) (skip_ws s)
                ltac:(lia)) as [Hne _].
    destruct (scan_once _ (skip_ws s)) as [[obj rest]|e]; cbn [bind]; [|congruence].
    destruct (skip_ws rest); discriminate.
  - pose proof (utf8_decode_no_fuel true (length (skipn 3 data)) (skipn 3 data)
                  (Nat.le_refl _)) as Hd.
    destruct (utf8_decode true (skipn 3 data)) as [s|e]; cbn [bind]; [|congruence].
    pose proof (skip_ws_length s) as Hws.
    destruct (proj1 (scan_once_fuel (S (length s + length s))) (skip_ws s)
                ltac:(lia)) as [Hne _].
    destruct (scan_once _ (skip_ws s)) as [[obj rest]|e]; cbn [bind]; [|congruence].
    destruct (skip_ws rest); discriminate.
Qed.

(** * Further properties *)

(** ** Request decoding *)

(** X1. A line holding an object with the three keys whose method is
    neither the string ["ping"] nor the string ["run"] is refused with
    [TypeError], and the handler raises it before any effect. *)
Theorem request_selector_unknown_method
    (create_subprocess_exec : json -> result process)
    (data : bytes) (d : dict) (rid m prm : json) (rest : list bytes) :
  json_loads data = Ok (JObject d) ->
  dict_get d key_id = Some rid ->
  dict_get d key_method = Some m ->
  dict_get d key_params = Some prm ->
  m <> JStr lit_ping ->
  m <> JStr lit_run ->
  request_selector data = Raise TypeError
  /\ client_handler create_subprocess_exec (data :: rest) = ([], Raise TypeError).
Proof.
  intros Hloads Hid Hm Hp Hping Hrun.
  assert (Hsel : request_selector data = Raise TypeError).
  { rewrite (request_selector_object data d Hloads), Hid, Hm, Hp.
    destruct m as [| | |s| |]; try reflexivity. cbn [select].
    destruct (str_eqb s lit_ping) eqn:E1;
      [apply str_eqb_eq in E1; congruence|].
    destruct (str_eqb s lit_run) eqn:E2;
      [apply str_eqb_eq in E2; congruence|].
    reflexivity. }
  split; [exact Hsel|].
  apply client_handler_raise; [exact Hsel | discriminate].
Qed.

Lemma request_selector_unknown_method_witness :
  request_selector line_unknown_method = Raise TypeError
  /\ client_handler sample_spawn [line_unknown_method; line_ping_id_7]
     = ([], Raise TypeError).
Proof.
  apply (request_selector_unknown_method sample_spawn line_unknown_method
           [(key_id, JInt 1); (key_method, JStr (str_lit "stop")); (key_params, JNull)]
           (JInt 1) (JStr (str_lit "stop")) JNull [line_ping_id_7]);
    try reflexivity; discriminate.
Defined.

(** X2. A line holding a JSON value that is not an object (an array, a
    string, a number, [true], [false], [null]) is refused with [TypeError]:
    only a dict can be indexed by ["id"]. *)
Theorem request_selector_not_object
    (create_subprocess_exec : json -> result process)
    (data : bytes) (v : json) (rest : list bytes) :
  json_loads data = Ok v ->
  (forall d, v <> JObject d) ->
  request_selector data = Raise TypeError
  /\ client_handler create_subprocess_exec (data :: rest) = ([], Raise TypeError).
Proof.
  intros Hloads Hv.
  assert (Hsel : request_selector data = Raise TypeError).
  { unfold request_selector, _json_byte_line_to_dict. rewrite Hloads.
    destruct v as [| | | | |d]; try reflexivity. destruct (Hv d eq_refl). }
  split; [exact Hsel|].
  apply client_handler_raise; [exact Hsel | discriminate].
Qed.

Lemma request_selector_not_object_witness :
  json_loads line_array = Ok (JList [JStr lit_ping])
  /\ request_selector line_array = Raise TypeError
  /\ client_handler sample_spawn [line_array] = ([], Raise TypeError).
Proof.
  split; [reflexivity|].
  apply (request_selector_not_object sample_spawn line_array (JList [JStr lit_ping]) []).
  - reflexivity.
  - discriminate.
Defined.

(** X3. For a Ping the value under ["params"] is never looked at: with
    the key present, whatever it holds, the line decodes to the Ping
    request with the line's id. *)
Theorem request_selector_ping_any_params (data : bytes) (d : dict) (rid prm : json) :
  json_loads data = Ok (JObject d) ->
  dict_get d key_id = Some rid ->
  dict_get d key_method = Some (JStr lit_ping) ->
  dict_get d key_params = Some prm ->
  request_selector data = Ok (RequestPing rid).
Proof.
  intros Hloads Hid Hm Hp.
  rewrite (request_selector_object data d Hloads), Hid, Hm, Hp. reflexivity.
Qed.

Lemma request_selector_ping_any_params_witness :
  request_selector line_ping_with_params = Ok (RequestPing (JStr [120])).
Proof.
  apply (request_selector_ping_any_params line_ping_with_params
           [(key_id, JStr [120]); (key_method, JStr lit_ping);
            (key_params, JObject [([97], JList [JInt 1; JInt 2])])]
           (JStr [120]) (JObject [([97], JList [JInt 1; JInt 2])]));
    reflexivity.
Defined.

(** X4. A Run line is accepted exactly when its params are an object
    whose keys are all among ["args_to_run"] and ["wait_response"] and
    that holds ["args_to_run"]; any other params (not an object, a key of
    another name, no ["args_to_run"]) are refused with [TypeError]. The
    values themselves are not checked. *)
Theorem request_selector_run_params (data : bytes) (d : dict) (rid prm : json) :
  json_loads data = Ok (JObject d) ->
  dict_get d key_id = Some rid ->
  dict_get d key_method = Some (JStr lit_run) ->
  dict_get d key_params = Some prm ->
  ((exists kw args,
       prm = JObject kw /\ run_keywords_ok kw = true
       /\ dict_get kw key_args_to_run = Some args
       /\ request_selector data
          = Ok (RequestRun args
                  (match dict_get kw key_wait_response with
                   | Some w => w
                   | None => JBool false
                   end) rid))
   \/ ((forall kw, prm = JObject kw ->
          run_keywords_ok kw = false \/ dict_get kw key_args_to_run = None)
       /\ request_selector data = Raise TypeError)).
Proof.
  intros Hloads Hid Hm Hp.
  rewrite (request_selector_object data d Hloads), Hid, Hm, Hp.
  cbn [select]. change (str_eqb lit_run lit_ping) with false.
  change (str_eqb lit_run lit_run) with true. cbn match.
  unfold RequestRun_kwargs. fold run_keywords_ok.
  destruct prm as [| | | | |kw]; try (right; split; [discriminate | reflexivity]).
  fold (run_keywords_ok kw).
  destruct (run_keywords_ok kw) eqn:Hkeys.
  - destruct (dict_get kw key_args_to_run) as [args|] eqn:Hargs.
    + left. exists kw, args. repeat split; assumption.
    + right. split; [|reflexivity]. intros kw' [= <-]. right. exact Hargs.
  - right. split; [|reflexivity]. intros kw' [= <-]. left. exact Hkeys.
Qed.

Lemma request_selector_run_params_witness :
  request_selector line_run_extra_key = Raise TypeError
  /\ request_selector line_run_ls = Ok (RequestRun args_ls (JBool false) (JStr [97])).
Proof.
  split.
  - destruct (request_selector_run_params line_run_extra_key
                [(key_id, JInt 1); (key_method, JStr lit_run);
                 (key_params, JObject [(key_args_to_run, args_ls);
                                       (str_lit "cwd", JStr [47])])]
                (JInt 1)
                (JObject [(key_args_to_run, args_ls); (str_lit "cwd", JStr [47])])
                eq_refl eq_refl eq_refl eq_refl)
      as [(kw & args & Hprm & Hkeys & _) | [_ Hraise]].
    + injection Hprm as <-. discriminate Hkeys.
    + exact Hraise.
  - destruct (request_selector_run_params line_run_ls
                [(key_id, JStr [97]); (key_method, JStr lit_run);
                 (key_params, JObject [(key_args_to_run, args_ls)])]
                (JStr [97]) (JObject [(key_args_to_run, args_ls)])
                eq_refl eq_refl eq_refl eq_refl)
      as [(kw & args & Hprm & _ & Hargs & Hok) | [Hbad _]].
    + injection Hprm as <-. injection Hargs as <-. exact Hok.
    + destruct (Hbad _ eq_refl) as [H | H]; discriminate H.
Defined.

(** ** The connection handler *)

Lemma run_response_dumps (rid : json) (text : pystr) :
  json_dumps (JObject [(key_id, rid);
                       (key_result, JObject [(key_return, JStr text)])]) ++ [10]
  = run_response rid text.
Proof.
  unfold run_response. cbn [json_dumps map join fst snd].
  generalize (json_dumps rid). intros x.
  generalize (encode_basestring_ascii text). intros y.
  cbn. rewrite <- ?app_assoc. cbn. rewrite <- ?app_assoc. reflexivity.
Qed.

Lemma run_response_ascii (rid : json) (text : pystr) :
  ascii_text (run_response rid text).
Proof.
  unfold run_response.
  repeat (apply Forall_app; split);
    try apply json_dumps_ascii; repeat constructor; lia.
Qed.

Lemma response_run_line (base : JsonRpcRequest) (text : pystr) :
  response_run base text = Ok (run_response (request_id base) text).
Proof.
  unfold response_run, _get_reponse_bytes, _dict_to_json_byte_line.
  rewrite run_response_dumps. apply str_encode_ascii, run_response_ascii.
Qed.

Section HandlerRuns.

Variable create_subprocess_exec : json -> result process.

Lemma client_handler_run_captured (data : bytes) (rest : list bytes)
    (rid args wait : json) (p : process) (text : pystr) :
  request_selector data = Ok (RequestRun args wait rid) ->
  truthy wait = true ->
  create_subprocess_exec args = Ok p ->
  utf8_decode false (communicate_stdout p) = Ok text ->
  client_handler create_subprocess_exec (data :: rest)
  = (EvCreateSubprocess args (Some PIPE) (Some PIPE) (Some STDOUT)
       :: EvProcessCommunicate :: EvWrite (run_response rid text) :: EvDrain
       :: fst (client_handler create_subprocess_exec rest),
     snd (client_handler create_subprocess_exec rest)).
Proof.
  intros Hsel Hwait Hspawn Htext. destruct data as [|b data].
  - rewrite request_selector_empty in Hsel. discriminate.
  - cbn [client_handler]. rewrite Hsel. unfold RequestRun.
    cbn [lift io_bind app]. rewrite Hwait.
    pose proof (run_command_captured create_subprocess_exec args p Hspawn) as Hrun.
    unfold Captured in Hrun. rewrite Hrun, Htext. cbn [bind io_bind app].
    rewrite response_run_line. cbn [request_id lift emit io_bind app].
    destruct (client_handler create_subprocess_exec rest) as [t r].
    destruct r; reflexivity.
Qed.

Lemma client_handler_spawn_fails (data : bytes) (rest : list bytes)
    (rid args wait : json) (e : exn) :
  request_selector data = Ok (RequestRun args wait rid) ->
  create_subprocess_exec args = Raise e ->
  client_handler create_subprocess_exec (data :: rest)
  = ([if truthy wait
      then EvCreateSubprocess args (Some PIPE) (Some PIPE) (Some STDOUT)
      else EvCreateSubprocess args None None None], Raise e).
Proof.
  intros Hsel Hspawn. destruct data as [|b data].
  - rewrite request_selector_empty in Hsel. discriminate.
  - cbn [client_handler]. rewrite Hsel. unfold RequestRun.
    cbn [lift io_bind app]. unfold run_command.
    destruct (truthy wait); cbn; rewrite Hspawn; reflexivity.
Qed.

Lemma client_handler_output_not_text (data : bytes) (rest : list bytes)
    (rid args wait : json) (p : process) (e : exn) :
  request_selector data = Ok (RequestRun args wait rid) ->
  truthy wait = true ->
  create_subprocess_exec args = Ok p ->
  utf8_decode false (communicate_stdout p) = Raise e ->
  client_handler create_subprocess_exec (data :: rest)
  = ([EvCreateSubprocess args (Some PIPE) (Some PIPE) (Some STDOUT);
      EvProcessCommunicate], Raise e).
Proof.
  intros Hsel Hwait Hspawn Htext. destruct data as [|b data].
  - rewrite request_selector_empty in Hsel. discriminate.
  - cbn [client_handler]. rewrite Hsel. unfold RequestRun.
    cbn [lift io_bind app]. rewrite Hwait.
    pose proof (run_command_captured create_subprocess_exec args p Hspawn) as Hrun.
    unfold Captured in Hrun. rewrite Hrun, Htext. reflexivity.
Qed.

End HandlerRuns.

(** X5. A Run request whose [wait_response] is true in Python's sense
    (any truthy value) is run in Captured mode: stdin and stdout piped,
    stderr merged into stdout, the output drained; the handler then writes
    the line [{"id": <the id>, "result": {"return": <the text>}}], flushes
    it and goes on with the next line. *)
Theorem run_with_wait_response (create_subprocess_exec : json -> result process)
    (data : bytes) (rest : list bytes) (rid args wait : json) (p : process)
    (text : pystr) :
  request_selector data = Ok (RequestRun args wait rid) ->
  truthy wait = true ->
  create_subprocess_exec args = Ok p ->
  utf8_decode false (communicate_stdout p) = Ok text ->
  client_handler create_subprocess_exec (data :: rest)
  = (EvCreateSubprocess args (Some PIPE) (Some PIPE) (Some STDOUT)
       :: EvProcessCommunicate
       :: EvWrite (ping_line_head ++ json_dumps rid ++ run_response_mid
                     ++ json_dumps (JStr text) ++ run_response_tail)
       :: EvDrain
       :: fst (client_handler create_subprocess_exec rest),
     snd (client_handler create_subprocess_exec rest)).
Proof. apply client_handler_run_captured. Qed.

Lemma run_with_wait_response_witness :
  request_selector line_run_wait
  = Ok (RequestRun sample_args (JBool true) (JStr [114]))
  /\ client_handler sample_spawn [line_run_wait]
     = ([EvCreateSubprocess sample_args (Some PIPE) (Some PIPE) (Some STDOUT);
         EvProcessCommunicate;
         EvWrite (json_text "{'id': 'r', 'result': {'return': 'hello\n'}}" ++ [10]);
         EvDrain; EvWriterClose; EvWriterWaitClosed], Ok tt).
Proof.
  assert (Hsel : request_selector line_run_wait
                 = Ok (RequestRun sample_args (JBool true) (JStr [114])))
    by reflexivity.
  split; [exact Hsel|].
  exact (run_with_wait_response sample_spawn line_run_wait [] (JStr [114])
           sample_args (JBool true) sample_process sample_output
           Hsel eq_refl eq_refl eq_refl).
Defined.

(** X6. A Run request that cannot be carried out ends the connection's
    handler with the exception and without a response: when the argument
    vector can be unpacked into a call of [create_subprocess_exec] and
    that call raises, the handler raises right after the spawn attempt;
    captured output that is not UTF-8 raises once the process has been
    drained. The writer is not closed and no further line is read. *)
Theorem run_failure_aborts_connection
    (create_subprocess_exec : json -> result process)
    (data : bytes) (rest : list bytes) (rid args wait : json) :
  request_selector data = Ok (RequestRun args wait rid) ->
  (forall e, spawn_is_called args = true ->
     create_subprocess_exec args = Raise e ->
     client_handler create_subprocess_exec (data :: rest)
     = ([if truthy wait
         then EvCreateSubprocess args (Some PIPE) (Some PIPE) (Some STDOUT)
         else EvCreateSubprocess args None None None], Raise e))
  /\ (forall p e, truthy wait = true ->
        create_subprocess_exec args = Ok p ->
        utf8_decode false (communicate_stdout p) = Raise e ->
        client_handler create_subprocess_exec (data :: rest)
        = ([EvCreateSubprocess args (Some PIPE) (Some PIPE) (Some STDOUT);
            EvProcessCommunicate], Raise e)).
Proof.
  intros Hsel. split.
  - intros e _ Hspawn.
    exact (client_handler_spawn_fails _ _ _ _ _ _ _ Hsel Hspawn).
  - intros p e Hwait Hspawn Htext.
    exact (client_handler_output_not_text _ _ _ _ _ _ _ _ Hsel Hwait Hspawn Htext).
Qed.

Lemma run_failure_aborts_connection_witness :
  request_selector line_run_ls = Ok (RequestRun args_ls (JBool false) (JStr [97]))
  /\ spawn_is_called args_ls = true
  /\ client_handler failing_spawn [line_run_ls; line_ping_id_7]
     = ([EvCreateSubprocess args_ls None None None], Raise OSError).
Proof.
  assert (Hsel : request_selector line_run_ls
                 = Ok (RequestRun args_ls (JBool false) (JStr [97])))
    by reflexivity.
  split; [exact Hsel|]. split; [reflexivity|].
  exact (proj1 (run_failure_aborts_connection failing_spawn line_run_ls
                  [line_ping_id_7] (JStr [97]) args_ls (JBool false) Hsel)
           OSError eq_refl eq_refl).
Defined.

(** X7. Requests on one connection are answered strictly in order: for
    lines that are all Ping requests the handler writes and flushes one
    response per line, in the order of the lines, and at the end of the
    stream closes the writer, waits for it to be closed and returns. *)
Theorem client_handler_answers_in_order
    (create_subprocess_exec : json -> result process)
    (lines : list bytes) (ids : list json) :
  ping_lines lines ids ->
  client_handler create_subprocess_exec lines
  = (flat_map ping_exchange ids ++ [EvWriterClose; EvWriterWaitClosed], Ok tt).
Proof.
  induction 1 as [|line rid lines ids Hsel _ IH]; [reflexivity|].
  rewrite (client_handler_ping _ _ _ _ Hsel), IH. reflexivity.
Qed.

Lemma client_handler_answers_in_order_witness :
  ping_lines [line_ping_id_7; line_ping_null] [JInt 7; JNull]
  /\ client_handler sample_spawn [line_ping_id_7; line_ping_null]
     = ([EvWrite (ping_response (JInt 7)); EvDrain;
         EvWrite (ping_response JNull); EvDrain;
         EvWriterClose; EvWriterWaitClosed], Ok tt).
Proof.
  assert (H : ping_lines [line_ping_id_7; line_ping_null] [JInt 7; JNull])
    by (repeat constructor).
  split; [exact H|].
  exact (client_handler_answers_in_order sample_spawn _ _ H).
Defined.

(** X8. A line that fails to decode ends the handler with the decoder's
    exception: the responses to the lines before it have been written,
    nothing is written for it, the writer is not closed and the lines
    after it are never handled. A line whose decoding this development
    does not model (one that holds a float, say) is left aside. *)
Theorem client_handler_stops_at_bad_line
    (create_subprocess_exec : json -> result process)
    (good : list bytes) (ids : list json) (bad : bytes) (rest : list bytes)
    (e : exn) :
  ping_lines good ids ->
  bad <> [] ->
  request_selector bad = Raise e ->
  e <> OutsideModel ->
  client_handler create_subprocess_exec (good ++ bad :: rest)
  = (flat_map ping_exchange ids, Raise e).
Proof.
  intros Hgood Hbad Hsel _.
  induction Hgood as [|line rid lines ids Hline _ IH].
  - destruct bad as [|b bad]; [congruence|].
    cbn [app client_handler]. rewrite Hsel. reflexivity.
  - cbn [app]. rewrite (client_handler_ping _ _ _ _ Hline), IH. reflexivity.
Qed.

Lemma client_handler_stops_at_bad_line_witness :
  ping_lines [line_ping_id_7] [JInt 7]
  /\ line_garbage <> []
  /\ request_selector line_garbage = Raise JSONDecodeError
  /\ client_handler sample_spawn [line_ping_id_7; line_garbage; line_ping_null]
     = ([EvWrite (ping_response (JInt 7)); EvDrain], Raise JSONDecodeError).
Proof.
  assert (H1 : ping_lines [line_ping_id_7] [JInt 7]) by (repeat constructor).
  assert (H2 : line_garbage <> []) by discriminate.
  assert (H3 : request_selector line_garbage = Raise JSONDecodeError) by reflexivity.
  assert (H4 : JSONDecodeError <> OutsideModel) by discriminate.
  split; [exact H1|]. split; [exact H2|]. split; [exact H3|].
  exact (client_handler_stops_at_bad_line sample_spawn [line_ping_id_7]
           [JInt 7] line_garbage [line_ping_null] JSONDecodeError
           H1 H2 H3 H4).
Defined.

(** ** Framing of the lines *)

Lemma hex_digit_printable (x : Z) : 32 <= hex_digit (Z.land x 15) <= 126.
Proof.
  rewrite land_15. pose proof (Z.mod_pos_bound x 16 ltac:(lia)) as H.
  unfold hex_digit. destruct (x mod 16 <? 10); lia.
Qed.

Lemma escape_char_printable (c : Z) : printable_text (escape_char c).
Proof.
  unfold escape_char, printable_text.
  repeat match goal with
         | |- Forall _ (if ?b then _ else _) => destruct b eqn:?
         end;
    try (repeat constructor; lia).
  - repeat constructor; try lia; apply hex_digit_printable.
  - apply Forall_app. split; repeat constructor; try lia; apply hex_digit_printable.
Qed.

Lemma encode_basestring_ascii_printable (s : pystr) :
  printable_text (encode_basestring_ascii s).
Proof.
  unfold encode_basestring_ascii, printable_text.
  constructor; [lia|]. apply Forall_app. split; [|repeat constructor; lia].
  induction s as [|c s IH]; [constructor|].
  cbn [flat_map]. apply Forall_app. split; [apply escape_char_printable | exact IH].
Qed.

Lemma uint_digits_printable (u : Decimal.uint) : printable_text (uint_digits u).
Proof. induction u; simpl; constructor; try lia; assumption. Qed.

Lemma int_repr_printable (z : Z) : printable_text (int_repr z).
Proof.
  unfold int_repr. destruct (Z.to_int z);
    [|constructor; [lia|]]; apply uint_digits_printable.
Qed.

Lemma join_printable (sep : pystr) (parts : list pystr) :
  printable_text sep -> Forall printable_text parts -> printable_text (join sep parts).
Proof.
  intros Hsep. induction 1 as [|p parts Hp Hparts IH]; [constructor|].
  cbn [join]. destruct parts as [|q parts]; [exact Hp|].
  apply Forall_app. split; [exact Hp|]. apply Forall_app. split; assumption.
Qed.

Lemma json_dumps_printable (v : json) : printable_text (json_dumps v).
Proof.
  induction v as [|b|z|s|l IH|d IH] using json_nested_ind.
  - repeat constructor; lia.
  - destruct b; repeat constructor; lia.
  - apply int_repr_printable.
  - apply encode_basestring_ascii_printable.
  - cbn [json_dumps]. constructor; [lia|]. apply Forall_app.
    split; [|repeat constructor; lia].
    apply join_printable; [repeat constructor; lia|].
    apply Forall_map. exact IH.
  - cbn [json_dumps]. constructor; [lia|]. apply Forall_app.
    split; [|repeat constructor; lia].
    apply join_printable; [repeat constructor; lia|].
    apply Forall_map. eapply Forall_impl; [|exact IH].
    intros [k x] Hx. cbn [fst snd] in *.
    apply Forall_app. split; [apply encode_basestring_ascii_printable|].
    apply Forall_app. split; [repeat constructor; lia | exact Hx].
Qed.

Lemma dict_line_framed (rpc_dict : dict) :
  _dict_to_json_byte_line rpc_dict = Ok (json_dumps (JObject rpc_dict) ++ [10])
  /\ printable_text (json_dumps (JObject rpc_dict)).
Proof.
  split; [|apply json_dumps_printable].
  unfold _dict_to_json_byte_line. apply str_encode_ascii.
  apply Forall_app. split; [apply json_dumps_ascii | repeat constructor; lia].
Qed.

(** X9. Encoding never fails and always gives exactly one line: whatever
    a request or a response holds (ids, arguments or captured text with
    line breaks, quotes, control or non-ASCII characters), the bytes
    written are printable ASCII followed by a single line feed, so a
    reader that splits at line feeds gets the object whole. *)
Theorem encoded_line_is_one_line (self : JsonRpcRequest) (rpc_data : json) :
  (exists body,
      to_json_byte_line self = Ok (body ++ [10])
      /\ printable_text body /\ ~ In 10 body)
  /\ (exists body,
      _get_reponse_bytes self rpc_data = Ok (body ++ [10])
      /\ printable_text body /\ ~ In 10 body).
Proof.
  assert (Hnl : forall body, printable_text body -> ~ In 10 body).
  { intros body Hb Hin. unfold printable_text in Hb.
    rewrite Forall_forall in Hb. specialize (Hb 10 Hin). lia. }
  split.
  - unfold to_json_byte_line.
    destruct (dict_line_framed [(key_id, request_id self);
                                (key_method, JStr (method self));
                                (key_params, params self)]) as [Heq Hp].
    eexists. split; [exact Heq|]. split; [exact Hp | exact (Hnl _ Hp)].
  - unfold _get_reponse_bytes.
    destruct (dict_line_framed [(key_id, request_id self); (key_result, rpc_data)])
      as [Heq Hp].
    eexists. split; [exact Heq|]. split; [exact Hp | exact (Hnl _ Hp)].
Qed.

(** ** Reading back what was written *)

Lemma scan_once_str (f : nat) (s : pystr) (rest : list Z) :
  str_round_trips s ->
  scan_once (S f) (json_dumps (JStr s) ++ rest) = Ok (JStr s, rest).
Proof.
  intros [Hv Hp]. cbn [json_dumps]. unfold encode_basestring_ascii.
  cbn [app]. rewrite <- app_assoc. cbn [app scan_once].
  change (34 =? 34) with true. cbn match.
  rewrite (scanstring_escaped s rest Hv Hp). reflexivity.
Qed.

Lemma scan_once_null (f : nat) (rest : list Z) :
  scan_once (S f) (json_dumps JNull ++ rest) = Ok (JNull, rest).
Proof. reflexivity. Qed.

Lemma scan_once_bool (f : nat) (b : bool) (rest : list Z) :
  scan_once (S f) (json_dumps (JBool b) ++ rest) = Ok (JBool b, rest).
Proof. destruct b; reflexivity. Qed.

Lemma scan_once_id (f : nat) (rid : option pystr) (rest : list Z) :
  id_round_trips rid ->
  scan_once (S f) (json_dumps (id_value rid) ++ rest) = Ok (id_value rid, rest).
Proof.
  destruct rid as [s|]; cbn [id_value id_round_trips].
  - apply scan_once_str.
  - intros _. apply scan_once_null.
Qed.

Lemma array_elements_eq (f : nat) (s : list Z) (acc : list json) :
  array_elements (S f) s acc
  = let! (value, r1) := scan_once f s in
    match skip_ws r1 with
    | c :: r2 =>
        if c =? 93 then Ok (JList (acc ++ [value]), r2)
        else if c =? 44 then array_elements f (skip_ws r2) (acc ++ [value])
        else Raise JSONDecodeError
    | [] => Raise JSONDecodeError
    end.
Proof. reflexivity. Qed.

Lemma object_members_eq (f : nat) (s : list Z) (acc : dict) :
  object_members (S f) s acc
  = let! (key, r1) := scanstring s in
    match skip_ws r1 with
    | colon :: r2 =>
        if colon =? 58 then
          let! (value, r3) := scan_once f (skip_ws r2) in
          match skip_ws r3 with
          | c :: r4 =>
              if c =? 125 then Ok (JObject (dict_set acc key value), r4)
              else if c =? 44 then
                match skip_ws r4 with
                | q :: r5 =>
                    if q =? 34 then object_members f r5 (dict_set acc key value)
                    else Raise JSONDecodeError
                | [] => Raise JSONDecodeError
                end
              else Raise JSONDecodeError
          | [] => Raise JSONDecodeError
          end
        else Raise JSONDecodeError
    | [] => Raise JSONDecodeError
    end.
Proof. reflexivity. Qed.

Lemma scan_once_object_eq (f : nat) (body : list Z) :
  scan_once (S f) (123 :: 34 :: body) = object_members f body [].
Proof. reflexivity. Qed.

Lemma array_elements_strs (strs : list pystr) :
  forall (f : nat) (s : pystr) (acc : list json) (rest : list Z),
    str_round_trips s ->
    Forall str_round_trips strs ->
    (length strs < f)%nat ->
    array_elements (S f)
      (join item_sep (map json_dumps (map JStr (s :: strs))) ++ 93 :: rest) acc
    = Ok (JList (acc ++ map JStr (s :: strs)), rest).
Proof.
  induction strs as [|s2 strs IH]; intros f s acc rest Hs Hstrs Hf.
  - destruct f as [|f]; [simpl in Hf; lia|].
    cbn [map join]. rewrite array_elements_eq.
    rewrite (scan_once_str f s (93 :: rest) Hs). reflexivity.
  - destruct f as [|f]; [simpl in Hf; lia|].
    inversion Hstrs as [|? ? Hs2 Hstrs']; subst.
    change (map json_dumps (map JStr (s :: s2 :: strs)))
      with (json_dumps (JStr s) :: map json_dumps (map JStr (s2 :: strs))).
    cbn [join]. change (map json_dumps (map JStr (s2 :: strs)))
      with (json_dumps (JStr s2) :: map json_dumps (map JStr strs)).
    cbn beta iota.
    change (json_dumps (JStr s2) :: map json_dumps (map JStr strs))
      with (map json_dumps (map JStr (s2 :: strs))).
    rewrite <- !app_assoc. rewrite array_elements_eq.
    rewrite (scan_once_str f s _ Hs). cbn [bind].
    unfold item_sep at 1. cbn [app skip_ws is_ws Z.eqb Pos.eqb orb].
    change (44 =? 93) with false. change (44 =? 44) with true. cbn match.
    assert (Hws : forall x, skip_ws (join item_sep (map json_dumps
                                       (map JStr (s2 :: strs))) ++ x)
                            = join item_sep (map json_dumps (map JStr (s2 :: strs)))
                                ++ x).
    { intros x. cbn [map join json_dumps]. unfold encode_basestring_ascii.
      destruct (map json_dumps (map JStr strs)); reflexivity. }
    rewrite Hws.
    rewrite (IH f s2 (acc ++ [JStr s]) rest Hs2 Hstrs' ltac:(simpl in Hf; lia)).
    rewrite <- app_assoc. reflexivity.
Qed.

Lemma scan_once_args (f : nat) (args : list pystr) (rest : list Z) :
  Forall str_round_trips args ->
  (length args < f)%nat ->
  scan_once (S f) (json_dumps (args_value args) ++ rest)
  = Ok (args_value args, rest).
Proof.
  intros Hargs Hf. unfold args_value. cbn [json_dumps].
  destruct args as [|s args].
  - reflexivity.
  - inversion Hargs as [|? ? Hs Hargs']; subst.
    cbn [app]. rewrite <- app_assoc. cbn [app scan_once].
    change (91 =? 34) with false. change (91 =? 123) with false.
    change (91 =? 91) with true. cbn match.
    assert (Hhead : exists x, join item_sep (map json_dumps (map JStr (s :: args)))
                              ++ 93 :: rest = 34 :: x).
    { cbn [map join json_dumps]. unfold encode_basestring_ascii.
      destruct (map json_dumps (map JStr args)); eexists; reflexivity. }
    destruct Hhead as [x Hx]. rewrite Hx. cbn [skip_ws is_ws Z.eqb Pos.eqb orb].
    change (34 =? 93) with false. cbn match. rewrite <- Hx.
    destruct f as [|f]; [simpl in Hf; lia|].
    apply (array_elements_strs args f s [] rest Hs Hargs').
    simpl in Hf. lia.
Qed.

(** One member of an object, followed by another member or by the end
    of the object. *)
Lemma object_members_next (f : nat) (ktext key : pystr) (t : list Z) (v : json)
    (next : list Z) (acc : dict) :
  (forall r, scanstring (ktext ++ 34 :: r) = Ok (key, r)) ->
  skip_ws t = t ->
  scan_once f t = Ok (v, 44 :: 32 :: 34 :: next) ->
  object_members (S f) (ktext ++ 34 :: 58 :: 32 :: t) acc
  = object_members f next (dict_set acc key v).
Proof.
  intros Hkey Hws Hscan. rewrite object_members_eq, Hkey. cbn [bind].
  cbn [skip_ws is_ws Z.eqb Pos.eqb orb]. change (58 =? 58) with true. cbn match.
  rewrite Hws, Hscan. reflexivity.
Qed.

Lemma object_members_last (f : nat) (ktext key : pystr) (t : list Z) (v : json)
    (rest : list Z) (acc : dict) :
  (forall r, scanstring (ktext ++ 34 :: r) = Ok (key, r)) ->
  skip_ws t = t ->
  scan_once f t = Ok (v, 125 :: rest) ->
  object_members (S f) (ktext ++ 34 :: 58 :: 32 :: t) acc
  = Ok (JObject (dict_set acc key v), rest).
Proof.
  intros Hkey Hws Hscan. rewrite object_members_eq, Hkey. cbn [bind].
  cbn [skip_ws is_ws Z.eqb Pos.eqb orb]. change (58 =? 58) with true. cbn match.
  rewrite Hws, Hscan. reflexivity.
Qed.

(** The text of a value of the kinds a request holds starts with no
    white space. *)
Lemma skip_ws_dumps (v : json) (rest : list Z) :
  (forall z, v <> JInt z) ->
  skip_ws (json_dumps v ++ rest) = json_dumps v ++ rest.
Proof.
  intros Hint. destruct v as [|[|]|z|s|l|d]; try reflexivity.
  destruct (Hint z eq_refl).
Qed.

Lemma join_length (sep : pystr) (parts : list pystr) :
  Forall (fun p => (1 <= length p)%nat) parts ->
  (length parts <= length (join sep parts))%nat.
Proof.
  induction 1 as [|p parts Hp _ IH]; [simpl; lia|].
  cbn [join]. destruct parts as [|q parts]; [simpl; lia|].
  rewrite !length_app. simpl in *. lia.
Qed.

Lemma args_value_length (args : list pystr) :
  (length args <= length (json_dumps (args_value args)))%nat.
Proof.
  unfold args_value. cbn [json_dumps length]. rewrite length_app.
  pose proof (join_length item_sep (map json_dumps (map JStr args))) as H.
  rewrite !length_map in H.
  assert (Hparts : Forall (fun p => (1 <= length p)%nat)
                     (map json_dumps (map JStr args))).
  { apply Forall_map, Forall_map, Forall_forall. intros s _.
    cbn [json_dumps]. unfold encode_basestring_ascii. simpl. lia. }
  specialize (H Hparts). lia.
Qed.

Lemma run_line_dumps (rid : json) (args : list pystr) (wait : bool) :
  json_dumps (JObject [(key_id, rid); (key_method, JStr lit_run);
                       (key_params,
                        JObject [(key_args_to_run, args_value args);
                                 (key_wait_response, JBool wait)])]) ++ [10]
  = run_line rid args wait.
Proof.
  unfold run_line. cbn [json_dumps map join fst snd].
  change (91 :: join item_sep (map json_dumps (map JStr args)) ++ [93])
    with (json_dumps (args_value args)).
  generalize (json_dumps (args_value args)). intros y.
  generalize (json_dumps rid). intros x.
  destruct wait; cbn; rewrite <- ?app_assoc; cbn; rewrite <- ?app_assoc;
    reflexivity.
Qed.

Lemma key_scans (key : pystr) :
  str_round_trips key -> flat_map escape_char key = key ->
  forall r, scanstring (key ++ 34 :: r) = Ok (key, r).
Proof.
  intros [Hv Hp] Hplain r. rewrite <- Hplain at 1.
  apply scanstring_escaped; assumption.
Qed.

Lemma scan_run_line (f : nat) (rid : option pystr) (args : list pystr) (wait : bool) :
  id_round_trips rid ->
  Forall str_round_trips args ->
  (length args < f)%nat ->
  scan_once (S (S (S (S (S (S (S f))))))) (run_line (id_value rid) args wait)
  = Ok (JObject [(key_id, id_value rid); (key_method, JStr lit_run);
                 (key_params,
                  JObject [(key_args_to_run, args_value args);
                           (key_wait_response, JBool wait)])], [10]).
Proof.
  intros Hid Hargs Hf. unfold run_line.
  rewrite scan_once_object_eq.
  erewrite (object_members_next _ key_id key_id _ (id_value rid));
    [| intros r; reflexivity
     | destruct rid; reflexivity
     | apply scan_once_id, Hid].
  erewrite (object_members_next _ key_method key_method _ (JStr lit_run));
    [| intros r; reflexivity | reflexivity | reflexivity].
  erewrite (object_members_last _ key_params key_params _
              (JObject [(key_args_to_run, args_value args);
                        (key_wait_response, JBool wait)]) [10]);
    [reflexivity | intros r; reflexivity | reflexivity |].
  rewrite scan_once_object_eq.
  erewrite (object_members_next _ key_args_to_run key_args_to_run _
              (args_value args));
    [| intros r; reflexivity
     | apply skip_ws_dumps; discriminate
     | apply scan_once_args; [exact Hargs | lia]].
  destruct f as [|f']; [lia|].
  erewrite (object_members_last _ key_wait_response key_wait_response _
              (JBool wait) [125; 10]);
    [reflexivity | intros r; reflexivity | destruct wait; reflexivity
    | destruct wait; reflexivity].
Qed.

Lemma run_line_ascii (rid : json) (args : list pystr) (wait : bool) :
  ascii_text (run_line rid args wait).
Proof.
  rewrite <- run_line_dumps. apply Forall_app.
  split; [apply json_dumps_ascii | repeat constructor; lia].
Qed.

Lemma to_json_byte_line_run (rid : json) (args : list pystr) (wait : bool) :
  to_json_byte_line (request_base (RequestRun (args_value args) (JBool wait) rid))
  = Ok (run_line rid args wait).
Proof.
  unfold to_json_byte_line, _dict_to_json_byte_line.
  cbn [request_base RequestRun request_id method params].
  rewrite run_line_dumps. apply str_encode_ascii, run_line_ascii.
Qed.

Lemma run_line_length (rid : json) (args : list pystr) (wait : bool) :
  (length args + 7 <= length (run_line rid args wait))%nat.
Proof.
  pose proof (args_value_length args) as Hlen.
  unfold run_line. repeat (rewrite ?length_app; cbn [length]). lia.
Qed.

Lemma json_loads_run_line (rid : option pystr) (args : list pystr) (wait : bool) :
  id_round_trips rid ->
  Forall str_round_trips args ->
  json_loads (run_line (id_value rid) args wait)
  = Ok (JObject [(key_id, id_value rid); (key_method, JStr lit_run);
                 (key_params,
                  JObject [(key_args_to_run, args_value args);
                           (key_wait_response, JBool wait)])]).
Proof.
  intros Hid Hargs. unfold json_loads.
  assert (Henc : detect_encoding (run_line (id_value rid) args wait) = UTF8).
  { unfold run_line. cbn [app key_id].
    generalize (json_dumps (id_value rid)). intros x. reflexivity. }
  rewrite Henc. cbn [bind].
  rewrite (utf8_decode_ascii true _ (run_line_ascii _ _ _)). cbn [bind].
  assert (Hskip : skip_ws (run_line (id_value rid) args wait)
                  = run_line (id_value rid) args wait) by reflexivity.
  rewrite Hskip.
  pose proof (run_line_length (id_value rid) args wait) as Hlen.
  assert (Hfuel : exists f,
             S (length (run_line (id_value rid) args wait)
                + length (run_line (id_value rid) args wait))
             = S (S (S (S (S (S (S f)))))) /\ (length args < f)%nat).
  { exists (length (run_line (id_value rid) args wait)
            + length (run_line (id_value rid) args wait) - 6)%nat. lia. }
  destruct Hfuel as (f & -> & Hf).
  rewrite (scan_run_line f rid args wait Hid Hargs Hf). reflexivity.
Qed.

(** X10. Round trip of a Run request: when neither the id (if it is a
    string and not [None]) nor any string of the argument vector holds a
    high surrogate directly followed by a low surrogate, then for either
    value of [wait_response] encoding the request to a line and decoding
    the line gives the same Run request: same id, same arguments, same
    flag. *)
Theorem run_round_trip (rid : option pystr) (args : list pystr) (wait : bool) :
  id_round_trips rid ->
  Forall str_round_trips args ->
  exists line,
    to_json_byte_line
      (request_base (RequestRun (args_value args) (JBool wait) (id_value rid)))
    = Ok line
    /\ request_selector line
       = Ok (RequestRun (args_value args) (JBool wait) (id_value rid)).
Proof.
  intros Hid Hargs. exists (run_line (id_value rid) args wait).
  split; [apply to_json_byte_line_run|].
  rewrite (request_selector_object _ _ (json_loads_run_line rid args wait Hid Hargs)).
  reflexivity.
Qed.

Lemma run_round_trip_witness :
  id_round_trips (Some [105; 100; 45; 49])
  /\ Forall str_round_trips sample_argv
  /\ exists line,
      to_json_byte_line
        (request_base (RequestRun (args_value sample_argv) (JBool true)
                         (JStr [105; 100; 45; 49])))
      = Ok line
      /\ request_selector line
         = Ok (RequestRun (args_value sample_argv) (JBool true)
                 (JStr [105; 100; 45; 49])).
Proof.
  assert (H1 : id_round_trips (Some [105; 100; 45; 49])).
  { split; [|reflexivity]. repeat constructor; unfold valid_code_point; lia. }
  assert (H2 : Forall str_round_trips sample_argv).
  { unfold sample_argv.
    repeat (constructor; [split; [|reflexivity]|]);
      repeat constructor; unfold valid_code_point; lia. }
  split; [exact H1|]. split; [exact H2|].
  exact (run_round_trip (Some [105; 100; 45; 49]) sample_argv true H1 H2).
Defined.

Lemma run_response_members (rid : json) (text : pystr) :
  run_response rid text
  = 123 :: 34 :: key_id ++ 34 :: 58 :: 32 :: json_dumps rid
      ++ 44 :: 32 :: 34 :: key_result ++ 34 :: 58 :: 32
      :: 123 :: 34 :: key_return ++ 34 :: 58 :: 32 :: json_dumps (JStr text)
      ++ 125 :: 125 :: [10].
Proof. reflexivity. Qed.

(** A surrogate is written as one [\u] escape. *)
Lemma escape_char_surrogate (c : Z) :
  is_surrogate c = true -> escape_char c = 92 :: 117 :: hex4 c /\ 0 <= c < 65536.
Proof.
  unfold is_surrogate. intros H. apply andb_true_iff in H. destruct H as [Hlo Hhi].
  apply Z.leb_le in Hlo, Hhi. unfold escape_char.
  replace (c =? 34) with false by lia. replace (c =? 92) with false by lia.
  replace (c =? 10) with false by lia. replace (c =? 13) with false by lia.
  replace (c =? 9) with false by lia. replace (c =? 8) with false by lia.
  replace (c =? 12) with false by lia.
  replace (c <=? 126) with false by lia. rewrite andb_false_r.
  replace (c <? 0x10000) with true by lia. split; [reflexivity | lia].
Qed.

(** Whatever string the encoder wrote, the decoder reads a string up to
    the closing quote: a high surrogate followed by a low one comes back
    as one code point, everything else as it was. *)
Lemma scanstring_escaped_any (n : nat) :
  forall (s : pystr) (rest : list Z),
    (length s <= n)%nat ->
    valid_str s ->
    exists s', scanstring (flat_map escape_char s ++ 34 :: rest) = Ok (s', rest).
Proof.
  induction n as [|n IH]; intros s rest Hlen Hvalid.
  { destruct s; [exists []; reflexivity | simpl in Hlen; lia]. }
  destruct Hvalid as [|c s Hc Hs]; [exists []; reflexivity|].
  simpl in Hlen. cbn [flat_map]. rewrite <- app_assoc.
  assert (Hplain : (is_high_surrogate c = true ->
                    safe_after_high (flat_map escape_char s ++ 34 :: rest) = true) ->
                   exists s', scanstring
                                (escape_char c ++ flat_map escape_char s ++ 34 :: rest)
                              = Ok (s', rest)).
  { intros Hsafe. rewrite (scanstring_escape_char c _ Hc Hsafe).
    destruct (IH s rest ltac:(lia) Hs) as [s' Hs'].
    exists (c :: s'). unfold scanned. rewrite Hs'. reflexivity. }
  destruct (is_high_surrogate c) eqn:Hhigh; [|apply Hplain; discriminate].
  destruct Hs as [|c2 s2 Hc2 Hs2].
  { apply Hplain. intros _. destruct rest; reflexivity. }
  destruct (is_low_surrogate c2) eqn:Hlow.
  - assert (Hsur : is_surrogate c = true /\ is_surrogate c2 = true).
    { unfold is_surrogate, is_high_surrogate, is_low_surrogate in *.
      apply andb_true_iff in Hhigh, Hlow. destruct Hhigh, Hlow.
      split; apply andb_true_iff; split; lia. }
    destruct Hsur as [Hsur Hsur2].
    destruct (escape_char_surrogate c Hsur) as [-> Hr].
    destruct (escape_char_surrogate c2 Hsur2) as [Hesc2 Hr2].
    cbn [flat_map]. rewrite Hesc2, <- app_assoc.
    destruct (decode_hex4 c Hr) as (h1 & h2 & h3 & h4 & -> & Hd).
    destruct (decode_hex4 c2 Hr2) as (g1 & g2 & g3 & g4 & -> & Hd2).
    cbn [app].
    rewrite (scanstring_u_pair _ _ _ _ _ _ _ _ _ _ _ Hd Hd2 Hhigh Hlow).
    simpl in Hlen.
    destruct (IH s2 rest ltac:(lia) Hs2) as [s' Hs'].
    eexists. unfold scanned. rewrite Hs'. reflexivity.
  - apply Hplain. intros _. cbn [flat_map]. rewrite <- app_assoc.
    apply safe_after_high_escape; assumption.
Qed.

Lemma scan_once_id_any (f : nat) (rid : option pystr) (rest : list Z) :
  declared_id rid ->
  exists v, scan_once (S f) (json_dumps (id_value rid) ++ rest) = Ok (v, rest).
Proof.
  destruct rid as [s|]; cbn [id_value declared_id].
  - intros Hv. cbn [json_dumps]. unfold encode_basestring_ascii.
    cbn [app]. rewrite <- app_assoc. cbn [app scan_once].
    change (34 =? 34) with true. cbn match.
    destruct (scanstring_escaped_any (length s) s rest (Nat.le_refl _) Hv)
      as [s' ->].
    exists (JStr s'). reflexivity.
  - intros _. exists JNull. apply scan_once_null.
Qed.

Lemma scan_run_response (f : nat) (rid : option pystr) (text : pystr) :
  declared_id rid ->
  str_round_trips text ->
  exists v,
    scan_once (S (S (S (S (S (S f)))))) (run_response (id_value rid) text)
    = Ok (JObject [(key_id, v);
                   (key_result, JObject [(key_return, JStr text)])], [10]).
Proof.
  intros Hid Htext. rewrite run_response_members.
  destruct (scan_once_id_any (S (S (S f))) rid
              (44 :: 32 :: 34 :: key_result ++ 34 :: 58 :: 32
                 :: 123 :: 34 :: key_return ++ 34 :: 58 :: 32
                 :: json_dumps (JStr text) ++ 125 :: 125 :: [10]) Hid)
    as [v Hv].
  exists v.
  rewrite scan_once_object_eq.
  erewrite (object_members_next _ key_id key_id _ v);
    [| intros r; reflexivity
     | destruct rid; reflexivity
     | exact Hv].
  erewrite (object_members_last _ key_result key_result _
              (JObject [(key_return, JStr text)]) [10]);
    [reflexivity | intros r; reflexivity | reflexivity |].
  rewrite scan_once_object_eq.
  erewrite (object_members_last _ key_return key_return _ (JStr text) [125; 10]);
    [reflexivity | intros r; reflexivity | reflexivity
    | apply scan_once_str, Htext].
Qed.

Lemma json_loads_run_response (rid : option pystr) (text : pystr) :
  declared_id rid ->
  str_round_trips text ->
  exists v,
    json_loads (run_response (id_value rid) text)
    = Ok (JObject [(key_id, v);
                   (key_result, JObject [(key_return, JStr text)])]).
Proof.
  intros Hid Htext. unfold json_loads.
  assert (Henc : detect_encoding (run_response (id_value rid) text) = UTF8).
  { rewrite run_response_members. cbn [app key_id].
    generalize (json_dumps (id_value rid)). intros x. reflexivity. }
  rewrite Henc. cbn [bind].
  rewrite (utf8_decode_ascii true _ (run_response_ascii _ _)). cbn [bind].
  assert (Hskip : skip_ws (run_response (id_value rid) text)
                  = run_response (id_value rid) text) by reflexivity.
  rewrite Hskip.
  assert (Hfuel : exists f,
             S (length (run_response (id_value rid) text)
                + length (run_response (id_value rid) text))
             = S (S (S (S (S (S f)))))).
  { assert (Hlen : (7 <= length (run_response (id_value rid) text))%nat).
    { unfold run_response. rewrite length_app. simpl. lia. }
    exists (length (run_response (id_value rid) text)
            + length (run_response (id_value rid) text) - 5)%nat. lia. }
  destruct Hfuel as [f ->].
  destruct (scan_run_response f rid text Hid Htext) as [v ->].
  exists v. reflexivity.
Qed.

(** X11. Round trip of a Run response: the line [response_run] builds
    for a captured text, decoded by [decode_response], gives the text
    back, for any text without a surrogate pair (line breaks, quotes and
    non-ASCII characters included), whatever the id of the request is
    ([None] or any string): the id is written to the line and never read
    back. *)
Theorem run_response_round_trip (base : JsonRpcRequest) (rid : option pystr)
    (text : pystr) :
  request_id base = id_value rid ->
  declared_id rid ->
  str_round_trips text ->
  exists line,
    response_run base text = Ok line /\ decode_response line = Ok text.
Proof.
  intros Hbase Hid Htext. exists (run_response (id_value rid) text).
  split; [rewrite response_run_line, Hbase; reflexivity|].
  unfold decode_response.
  destruct (json_loads_run_response rid text Hid Htext) as [v ->]. reflexivity.
Qed.

Lemma run_response_round_trip_witness :
  declared_id (Some [0xD83D; 0xDE00])
  /\ str_round_trips sample_output
  /\ exists line,
      response_run
        (request_base (RequestRun sample_args (JBool true) (JStr [0xD83D; 0xDE00])))
        sample_output = Ok line
      /\ decode_response line = Ok sample_output.
Proof.
  assert (H1 : declared_id (Some [0xD83D; 0xDE00]))
    by (repeat constructor; unfold valid_code_point; lia).
  assert (H2 : str_round_trips sample_output).
  { split; [|reflexivity]. repeat constructor; unfold valid_code_point; lia. }
  split; [exact H1|]. split; [exact H2|].
  exact (run_response_round_trip
           (request_base (RequestRun sample_args (JBool true) (JStr [0xD83D; 0xDE00])))
           (Some [0xD83D; 0xDE00]) sample_output eq_refl H1 H2).
Defined.

(** ** Forced terminator: who is sent a terminate signal *)

Lemma sigterm_pids_app (t1 t2 : trace) :
  sigterm_pids (t1 ++ t2) = sigterm_pids t1 ++ sigterm_pids t2.
Proof.
  induction t1 as [|e t1 IH]; [reflexivity|].
  destruct e as [| | |pid [|]| | | | | | | | | | | | | | | | | |];
    cbn [app sigterm_pids]; rewrite IH; reflexivity.
Qed.

Lemma signal_pids_sigterm (counter : Z) (pids : list Z) :
  forall sigtermed : gset Z,
    sigtermed ⊆ fst (signal_pids counter pids sigtermed)
    /\ (forall pid, pid ∈ fst (signal_pids counter pids sigtermed) ->
          pid ∈ sigtermed \/ In pid pids)
    /\ NoDup (sigterm_pids (snd (signal_pids counter pids sigtermed)))
    /\ (forall pid, In pid (sigterm_pids (snd (signal_pids counter pids sigtermed))) ->
          (pid ∉ sigtermed)
          /\ pid ∈ fst (signal_pids counter pids sigtermed)
          /\ In pid pids)
    /\ (counter <= 20 -> forall pid, In pid pids ->
          pid ∈ fst (signal_pids counter pids sigtermed))
    /\ (counter <= 20 -> forall pid, In pid pids -> pid ∉ sigtermed ->
          In pid (sigterm_pids (snd (signal_pids counter pids sigtermed)))).
Proof.
  induction pids as [|pid pids IH]; intros sigtermed.
  - cbn [signal_pids fst snd sigterm_pids].
    split; [reflexivity|]. split; [intros q Hq; left; exact Hq|].
    split; [constructor|].
    split; [intros q []|]. split; intros _ q [].
  - cbn [signal_pids].
    destruct (Z.gtb_spec counter 20) as [Hgt | Hle].
    + destruct (IH sigtermed) as (Hsub & Hgrow & Hnd & Hin & _ & _).
      destruct (signal_pids counter pids sigtermed) as [s t].
      cbn [fst snd sigterm_pids] in *.
      split; [exact Hsub|]. split; [|split; [exact Hnd|split]].
      * intros q Hq. destruct (Hgrow q Hq) as [H | H]; [left | right; right]; exact H.
      * intros q Hq. destruct (Hin q Hq) as (H1 & H2 & H3).
        split; [exact H1|]. split; [exact H2 | right; exact H3].
      * split; intros Hc; lia.
    + destruct (bool_decide (pid ∈ sigtermed)) eqn:Hmem.
      * apply bool_decide_eq_true in Hmem.
        destruct (IH sigtermed) as (Hsub & Hgrow & Hnd & Hin & Hall & Hfresh).
        destruct (signal_pids counter pids sigtermed) as [s t].
        cbn [fst snd] in *.
        split; [exact Hsub|]. split; [|split; [exact Hnd|split; [|split]]].
        -- intros q Hq. destruct (Hgrow q Hq) as [H | H];
             [left | right; right]; exact H.
        -- intros q Hq. destruct (Hin q Hq) as (H1 & H2 & H3).
           split; [exact H1|]. split; [exact H2 | right; exact H3].
        -- intros _ q [<- | Hq]; [apply Hsub, Hmem | exact (Hall Hle q Hq)].
        -- intros _ q [<- | Hq] Hnot; [contradiction | exact (Hfresh Hle q Hq Hnot)].
      * apply bool_decide_eq_false in Hmem.
        destruct (IH ({[pid]} ∪ sigtermed)) as (Hsub & Hgrow & Hnd & Hin & Hall & Hfresh).
        destruct (signal_pids counter pids ({[pid]} ∪ sigtermed)) as [s t].
        cbn [fst snd sigterm_pids] in *.
        assert (Hpid : pid ∈ s)
          by (apply Hsub, elem_of_union_l, elem_of_singleton; reflexivity).
        split; [|split; [|split; [|split; [|split]]]].
        -- intros q Hq. apply Hsub, elem_of_union_r, Hq.
        -- intros q Hq. destruct (Hgrow q Hq) as [H | H]; [|right; right; exact H].
           apply elem_of_union in H. destruct H as [H | H]; [|left; exact H].
           apply elem_of_singleton in H. right; left. symmetry. exact H.
        -- constructor; [|exact Hnd]. intros Hq.
           destruct (Hin pid Hq) as (H1 & _ & _). apply H1.
           apply elem_of_union_l, elem_of_singleton. reflexivity.
        -- intros q [<- | Hq].
           ++ split; [exact Hmem|]. split; [exact Hpid | left; reflexivity].
           ++ destruct (Hin q Hq) as (H1 & H2 & H3).
              split; [intros Hq'; apply H1, elem_of_union_r, Hq'|].
              split; [exact H2 | right; exact H3].
        -- intros _ q [<- | Hq]; [exact Hpid | exact (Hall Hle q Hq)].
        -- intros _ q [<- | Hq] Hnot; [left; reflexivity|].
           destruct (Z.eq_dec q pid) as [-> | Hne]; [left; reflexivity|].
           right. apply (Hfresh Hle q Hq). intros Hq'.
           apply elem_of_union in Hq'. destruct Hq' as [Hq' | Hq'];
             [apply elem_of_singleton in Hq'; contradiction | contradiction].
Qed.

Lemma signal_tasks_sigterm (counter : Z) (tasks : list (list Z)) :
  forall sigtermed : gset Z,
    sigtermed ⊆ fst (signal_tasks counter tasks sigtermed)
    /\ (forall pid, pid ∈ fst (signal_tasks counter tasks sigtermed) ->
          pid ∈ sigtermed \/ In pid (concat tasks))
    /\ NoDup (sigterm_pids (snd (signal_tasks counter tasks sigtermed)))
    /\ (forall pid, In pid (sigterm_pids (snd (signal_tasks counter tasks sigtermed))) ->
          (pid ∉ sigtermed)
          /\ pid ∈ fst (signal_tasks counter tasks sigtermed)
          /\ In pid (concat tasks))
    /\ (counter <= 20 -> forall pid, In pid (concat tasks) ->
          pid ∈ fst (signal_tasks counter tasks sigtermed))
    /\ (counter <= 20 -> forall pid, In pid (concat tasks) -> pid ∉ sigtermed ->
          In pid (sigterm_pids (snd (signal_tasks counter tasks sigtermed)))).
Proof.
  induction tasks as [|pids tasks IH]; intros sigtermed.
  - cbn [signal_tasks fst snd sigterm_pids concat].
    split; [reflexivity|]. split; [intros q Hq; left; exact Hq|].
    split; [constructor|].
    split; [intros q []|]. split; intros _ q [].
  - cbn [signal_tasks concat].
    destruct (signal_pids_sigterm counter pids sigtermed)
      as (Hsub1 & Hgrow1 & Hnd1 & Hin1 & Hall1 & Hfresh1).
    destruct (signal_pids counter pids sigtermed) as [s1 t1].
    destruct (IH s1) as (Hsub2 & Hgrow2 & Hnd2 & Hin2 & Hall2 & Hfresh2).
    destruct (signal_tasks counter tasks s1) as [s2 t2].
    cbn [fst snd] in *. rewrite sigterm_pids_app.
    split; [|split; [|split; [|split; [|split]]]].
    + intros q Hq. apply Hsub2, Hsub1, Hq.
    + intros q Hq. destruct (Hgrow2 q Hq) as [H | H].
      * destruct (Hgrow1 q H) as [H' | H'];
          [left; exact H' | right; apply in_or_app; left; exact H'].
      * right. apply in_or_app. right. exact H.
    + apply NoDup_app; [exact Hnd1 | exact Hnd2 |].
      intros q Hq1 Hq2.
      destruct (Hin1 q Hq1) as (_ & H1 & _).
      destruct (Hin2 q Hq2) as (H2 & _ & _). contradiction.
    + intros q Hq. apply in_app_or in Hq. destruct Hq as [Hq | Hq].
      * destruct (Hin1 q Hq) as (H1 & H2 & H3).
        split; [exact H1|].
        split; [apply Hsub2, H2 | apply in_or_app; left; exact H3].
      * destruct (Hin2 q Hq) as (H1 & H2 & H3).
        split; [intros Hq'; apply H1, Hsub1, Hq'|].
        split; [exact H2 | apply in_or_app; right; exact H3].
    + intros Hle q Hq. apply in_app_or in Hq. destruct Hq as [Hq | Hq].
      * apply Hsub2, (Hall1 Hle q Hq).
      * exact (Hall2 Hle q Hq).
    + intros Hle q Hq Hnot. apply in_or_app.
      apply in_app_or in Hq. destruct Hq as [Hq | Hq].
      * left. exact (Hfresh1 Hle q Hq Hnot).
      * destruct (decide (q ∈ s1)) as [Hs1 | Hs1].
        -- left. destruct (Hgrow1 q Hs1) as [H | H];
             [contradiction | exact (Hfresh1 Hle q H Hnot)].
        -- right. exact (Hfresh2 Hle q Hq Hs1).
Qed.

Lemma sigterm_pids_In (t : trace) (pid : Z) :
  In pid (sigterm_pids t) <-> In (EvKill pid SIGTERM) t.
Proof.
  induction t as [|e t IH]; [reflexivity|].
  destruct e as [| | |q [|]| | | | | | | | | | | | | | | | | |];
    cbn [sigterm_pids In]; rewrite ?IH;
    try (split; [intros H; right; exact H | intros [H | H]; [discriminate | exact H]]).
  split; (intros [H | H]; [left; congruence | right; exact H]).
Qed.

Section TerminatorSigterm.

Variable proc : Z -> list (list Z).

Lemma signal_all_children_sigterm (st : terminator_state) :
  pids_sigtermed st ⊆ pids_sigtermed (fst (signal_all_children proc st))
  /\ (forall pid, pid ∈ pids_sigtermed (fst (signal_all_children proc st)) ->
        pid ∈ pids_sigtermed st \/ In pid (concat (proc (signal_counter st + 1))))
  /\ NoDup (sigterm_pids (snd (signal_all_children proc st)))
  /\ (forall pid, In pid (sigterm_pids (snd (signal_all_children proc st))) ->
        (pid ∉ pids_sigtermed st)
        /\ pid ∈ pids_sigtermed (fst (signal_all_children proc st))
        /\ In pid (concat (proc (signal_counter st + 1))))
  /\ (signal_counter st < 20 -> forall pid,
        In pid (concat (proc (signal_counter st + 1))) ->
        pid ∈ pids_sigtermed (fst (signal_all_children proc st)))
  /\ (signal_counter st < 20 -> forall pid,
        In pid (concat (proc (signal_counter st + 1))) ->
        pid ∉ pids_sigtermed st ->
        In pid (sigterm_pids (snd (signal_all_children proc st)))).
Proof.
  unfold signal_all_children.
  destruct (signal_tasks_sigterm (signal_counter st + 1)
              (proc (signal_counter st + 1)) (pids_sigtermed st))
    as (Hsub & Hgrow & Hnd & Hin & Hall & Hfresh).
  destruct (signal_tasks (signal_counter st + 1) (proc (signal_counter st + 1))
              (pids_sigtermed st)) as [s t].
  cbn [fst snd pids_sigtermed sigterm_pids] in *.
  split; [exact Hsub|]. split; [exact Hgrow|]. split; [exact Hnd|].
  split; [exact Hin|]. split.
  - intros Hc. apply Hall. lia.
  - intros Hc. apply Hfresh. lia.
Qed.

Lemma collection_loop_sigterm (os : list wait3_result) :
  forall st : terminator_state,
    NoDup (sigterm_pids (fst (collection_loop proc os st)))
    /\ forall pid, In pid (sigterm_pids (fst (collection_loop proc os st))) ->
                   pid ∉ pids_sigtermed st.
Proof.
  induction os as [|[pid_reaped|] os IH]; intros st.
  - split; [constructor | intros q []].
  - destruct (Z.eq_dec pid_reaped 0) as [-> | Hpid].
    + rewrite collection_loop_not_ready. cbn [fst sigterm_pids].
      rewrite sigterm_pids_app.
      destruct (signal_all_children_sigterm st) as (Hsub & _ & Hnd & Hin & _ & _).
      destruct (IH (fst (signal_all_children proc st))) as [Hnd2 Hin2].
      split.
      * apply NoDup_app; [exact Hnd | exact Hnd2 |].
        intros q Hq1 Hq2. destruct (Hin q Hq1) as (_ & H1 & _).
        exact (Hin2 q Hq2 H1).
      * intros q Hq. apply in_app_or in Hq. destruct Hq as [Hq | Hq].
        -- destruct (Hin q Hq) as (H1 & _ & _). exact H1.
        -- intros Hq'. exact (Hin2 q Hq (Hsub q Hq')).
    + rewrite (collection_loop_reaped proc pid_reaped os st Hpid).
      cbn [fst sigterm_pids]. apply IH.
  - split; [constructor | intros q []].
Qed.

End TerminatorSigterm.

(** X12. Over a whole run of [terminate_children], whatever the children
    files list and whatever [wait3] answers, no pid is sent the terminate
    signal twice. *)
Theorem terminate_children_sigterm_once (proc : Z -> list (list Z))
    (os : list wait3_result) :
  NoDup (sigterm_pids (fst (terminate_children proc os)))
  /\ forall pid pre post,
       fst (terminate_children proc os) = pre ++ EvKill pid SIGTERM :: post ->
       ~ In (EvKill pid SIGTERM) pre /\ ~ In (EvKill pid SIGTERM) post.
Proof.
  assert (Hnd : NoDup (sigterm_pids (fst (terminate_children proc os)))).
  { pose proof (terminate_children_unfold proc os) as Hunf. cbn zeta in Hunf.
    rewrite Hunf. clear Hunf. cbn [fst].
    set (st0 := {| signal_counter := 0; pids_sigtermed := ∅ |}).
    rewrite !sigterm_pids_app.
    destruct (signal_all_children_sigterm proc st0) as (_ & _ & Hnd & Hin & _ & _).
    destruct (collection_loop_sigterm proc os (fst (signal_all_children proc st0)))
      as [Hnd2 Hin2].
    assert (Hlast : forall (b : bool) (l : list Z),
               NoDup l ->
               NoDup (l ++ sigterm_pids (if b then [EvCancelRunHelperTask] else []))).
    { intros [|] l Hl; cbn [sigterm_pids]; rewrite app_nil_r; exact Hl. }
    rewrite app_assoc. apply Hlast.
    apply NoDup_app; [exact Hnd | exact Hnd2 |].
    intros q Hq1 Hq2. destruct (Hin q Hq1) as (_ & H1 & _).
    exact (Hin2 q Hq2 H1). }
  split; [exact Hnd|].
  intros pid pre post Heq. rewrite Heq, sigterm_pids_app in Hnd.
  cbn [sigterm_pids] in Hnd.
  rewrite <- !sigterm_pids_In.
  apply NoDup_remove in Hnd. destruct Hnd as [_ Hnot].
  split; intros H; apply Hnot, in_or_app; [left | right]; exact H.
Qed.

Lemma terminate_children_sigterm_once_witness :
  fst (terminate_children late_child
         [Wait3Ret 0; Wait3Ret 7; Wait3ChildProcessError])
  = [EvReadTaskChildren [[7]]; EvKill 7 SIGTERM; EvWait3 (Wait3Ret 0);
     EvSyncSleep (1 # 2); EvReadTaskChildren [[7; 9]; [9]]]
      ++ EvKill 9 SIGTERM
      :: [EvWait3 (Wait3Ret 7); EvWait3 Wait3ChildProcessError;
          EvCancelRunHelperTask]
  /\ ~ In (EvKill 9 SIGTERM)
         [EvReadTaskChildren [[7]]; EvKill 7 SIGTERM; EvWait3 (Wait3Ret 0);
          EvSyncSleep (1 # 2); EvReadTaskChildren [[7; 9]; [9]]]
  /\ ~ In (EvKill 9 SIGTERM)
         [EvWait3 (Wait3Ret 7); EvWait3 Wait3ChildProcessError;
          EvCancelRunHelperTask].
Proof.
  assert (H : fst (terminate_children late_child
                     [Wait3Ret 0; Wait3Ret 7; Wait3ChildProcessError])
              = [EvReadTaskChildren [[7]]; EvKill 7 SIGTERM; EvWait3 (Wait3Ret 0);
                 EvSyncSleep (1 # 2); EvReadTaskChildren [[7; 9]; [9]]]
                  ++ EvKill 9 SIGTERM
                  :: [EvWait3 (Wait3Ret 7); EvWait3 Wait3ChildProcessError;
                      EvCancelRunHelperTask])
    by (vm_compute; reflexivity).
  split; [exact H|].
  exact (proj2 (terminate_children_sigterm_once late_child _) 9 _ _ H).
Defined.

(** X13. A broadcast made before the escalation (counter at most 20
    once incremented) sends the terminate signal exactly to the pids the
    children files list that were not signalled before, and afterwards the
    signalled set is the earlier set together with every listed pid; a pid
    listed in several children files, or twice, is signalled once. *)
Theorem broadcast_terminates_new_children (proc : Z -> list (list Z))
    (st : terminator_state) :
  signal_counter st < 20 ->
  (forall pid,
      In (EvKill pid SIGTERM) (snd (signal_all_children proc st))
      <-> In pid (concat (proc (signal_counter st + 1)))
          /\ pid ∉ pids_sigtermed st)
  /\ (forall pid,
      pid ∈ pids_sigtermed (fst (signal_all_children proc st))
      <-> pid ∈ pids_sigtermed st
          \/ In pid (concat (proc (signal_counter st + 1))))
  /\ NoDup (sigterm_pids (snd (signal_all_children proc st))).
Proof.
  intros Hc.
  destruct (signal_all_children_sigterm proc st)
    as (Hsub & Hgrow & Hnd & Hin & Hall & Hfresh).
  split; [|split; [|exact Hnd]].
  - intros pid. rewrite <- sigterm_pids_In. split.
    + intros H. destruct (Hin pid H) as (H1 & _ & H3). split; assumption.
    + intros [H1 H2]. exact (Hfresh Hc pid H1 H2).
  - intros pid. split; [apply Hgrow|].
    intros [H | H]; [exact (Hsub pid H) | exact (Hall Hc pid H)].
Qed.

Lemma broadcast_terminates_new_children_witness :
  1 < 20
  /\ snd (signal_all_children late_child
            {| signal_counter := 1; pids_sigtermed := {[7]} |})
     = [EvReadTaskChildren [[7; 9]; [9]]; EvKill 9 SIGTERM]
  /\ (In (EvKill 9 SIGTERM)
        (snd (signal_all_children late_child
                {| signal_counter := 1; pids_sigtermed := {[7]} |}))
      <-> In 9 (concat (late_child 2)) /\ 9 ∉ ({[7]} : gset Z)).
Proof.
  assert (H : 1 < 20) by lia.
  split; [exact H|]. split; [vm_compute; reflexivity|].
  exact (proj1 (broadcast_terminates_new_children late_child
                  {| signal_counter := 1; pids_sigtermed := {[7]} |} H) 9).
Defined.

(** ** Start-up and shutdown *)

Lemma stop_async_again (self : BubblejailHelper) :
  stop_async awaits_complete (stopped self)
  = (server_steps self ++ [EvTerminatedSet; EvPrintTerminated], stopped self, Ok tt).
Proof.
  destruct self as [args srv term cmd timer task ready].
  unfold stop_async, helper_bind, server_steps, stopped, awaits_complete; simpl.
  destruct task as [[|]|]; destruct srv as [s|]; reflexivity.
Qed.

(** X14. Graceful shutdown is repeatable but not guarded: a second
    [stop_async] leaves the helper's state as the first left it, skips
    the watcher, and, because the server handle is kept, closes the
    server again and sets the latch again. The terminated latch, once
    set, is never cleared by [stop_async], however its awaits end. *)
Theorem stop_async_twice (self : BubblejailHelper) :
  stop_async awaits_complete (snd (fst (stop_async awaits_complete self)))
  = (server_steps self ++ [EvTerminatedSet; EvPrintTerminated],
     snd (fst (stop_async awaits_complete self)), Ok tt)
  /\ forall awaits,
       terminated self = true ->
       terminated (snd (fst (stop_async awaits self))) = true.
Proof.
  split.
  - rewrite (stop_async_completes self). cbn [fst snd]. apply stop_async_again.
  - intros awaits Hterm.
    destruct self as [args srv term cmd timer task ready].
    cbn [terminated] in Hterm. subst term.
    destruct awaits as [[[]|e1] [[]|e2]];
      unfold stop_async, helper_bind; simpl;
      destruct task as [[|]|]; destruct srv as [s|]; reflexivity.
Qed.

Lemma stop_async_twice_witness :
  terminated (stopped sample_helper) = true
  /\ terminated
       (snd (fst (stop_async {| await_watcher_task := Raise CancelledError;
                                await_wait_closed := Ok tt |}
                    (stopped sample_helper)))) = true.
Proof.
  split; [reflexivity|].
  exact (proj2 (stop_async_twice (stopped sample_helper)) _ eq_refl).
Defined.

Section StartUp.

Variable create_subprocess_exec : json -> result process.

Lemma start_async_ready (progress : watcher_progress) (ready_in_time : bool)
    (self : BubblejailHelper) :
  ready_event self || ready_in_time = true ->
  start_async create_subprocess_exec progress ready_in_time self
  = let self' := meanwhile progress
                   (with_ready_event
                      (with_watcher_task (with_server self (Some ServerServing))
                         (Some TaskPending)) true) in
    match startup_args self with
    | [] => ([StartUnixServer; CreateWatcherTask; WaitForReady 3], self', Started)
    | _ :: _ =>
        match create_subprocess_exec (JList (map JStr (startup_args self))) with
        | Ok _ =>
            ([StartUnixServer; CreateWatcherTask; WaitForReady 3;
              StartupCommand (EvCreateSubprocess (JList (map JStr (startup_args self)))
                                None None None);
              StartupCommand EvProcessWait], self', Started)
        | Raise e =>
            ([StartUnixServer; CreateWatcherTask; WaitForReady 3;
              StartupCommand (EvCreateSubprocess (JList (map JStr (startup_args self)))
                                None None None)], self', StartRaised e)
        end
    end.
Proof.
  intros Hready. unfold start_async.
  destruct self as [args srv term cmd timer task ready].
  cbn [ready_event with_watcher_task with_server with_ready_event startup_args] in *.
  rewrite Hready. destruct args as [|a args]; [reflexivity|].
  unfold run_command. cbn [mode_is emit lift io_bind app].
  destruct (create_subprocess_exec (JList (map JStr (a :: args)))); reflexivity.
Qed.

Lemma start_async_timeout (progress : watcher_progress) (self : BubblejailHelper) :
  ready_event self = false ->
  start_async create_subprocess_exec progress false self
  = ([StartUnixServer; CreateWatcherTask; WaitForReady 3],
     meanwhile progress
       (with_watcher_task (with_server self (Some ServerServing)) (Some TaskPending)),
     StartTimeoutError).
Proof.
  intros Hready. unfold start_async.
  destruct self as [args srv term cmd timer task ready].
  cbn [ready_event with_watcher_task with_server] in *. subst ready. reflexivity.
Qed.

(** Whatever the outcome, the state [start_async] ends in is the state
    it found with the server and the watcher assigned, as the watcher has
    left it; the ready event apart. *)
Lemma start_async_state (progress : watcher_progress) (ready_in_time : bool)
    (self : BubblejailHelper) :
  exists ready,
    snd (fst (start_async create_subprocess_exec progress ready_in_time self))
    = meanwhile progress
        (with_ready_event
           (with_watcher_task (with_server self (Some ServerServing))
              (Some TaskPending)) ready).
Proof.
  destruct (ready_event self || ready_in_time) eqn:Hready.
  - exists true. rewrite (start_async_ready _ _ _ Hready). cbn zeta.
    destruct (startup_args self); [reflexivity|].
    destruct (create_subprocess_exec _); reflexivity.
  - apply orb_false_iff in Hready. destruct Hready as [Hready ->].
    exists false. rewrite (start_async_timeout _ _ Hready). cbn [fst snd].
    destruct self as [args srv term cmd timer task ready].
    cbn [ready_event] in Hready. subst ready. reflexivity.
Qed.

End StartUp.

(** X16. Start-up in order: the server is started on the socket, the
    watcher task is created, the ready event is awaited (three seconds at
    most), and only then is the start-up command spawned, with the
    helper's own stdio; [start_async] returns only after that process has
    exited. With no start-up arguments nothing is spawned. *)
Theorem start_async_runs_startup_command
    (create_subprocess_exec : json -> result process)
    (progress : watcher_progress) (ready_in_time : bool)
    (self : BubblejailHelper) (p : process) :
  ready_event self || ready_in_time = true ->
  (startup_args self = [] ->
     fst (fst (start_async create_subprocess_exec progress ready_in_time self))
     = [StartUnixServer; CreateWatcherTask; WaitForReady 3]
     /\ snd (start_async create_subprocess_exec progress ready_in_time self) = Started)
  /\ (startup_args self <> [] ->
      create_subprocess_exec (JList (map JStr (startup_args self))) = Ok p ->
      fst (fst (start_async create_subprocess_exec progress ready_in_time self))
      = [StartUnixServer; CreateWatcherTask; WaitForReady 3;
         StartupCommand (EvCreateSubprocess (JList (map JStr (startup_args self)))
                           None None None);
         StartupCommand EvProcessWait]
      /\ snd (start_async create_subprocess_exec progress ready_in_time self)
         = Started).
Proof.
  intros Hready. rewrite (start_async_ready _ _ _ _ Hready). cbn zeta. split.
  - intros ->. split; reflexivity.
  - intros Hargs Hspawn. destruct (startup_args self) as [|a args] eqn:E;
      [congruence|].
    rewrite Hspawn. split; reflexivity.
Qed.

Lemma start_async_runs_startup_command_witness :
  ready_event sample_helper || false = true
  /\ start_async sample_spawn WatcherSleeping false sample_helper
     = ([StartUnixServer; CreateWatcherTask; WaitForReady 3;
         StartupCommand
           (EvCreateSubprocess (JList [JStr (str_lit "/bin/sh")]) None None None);
         StartupCommand EvProcessWait], sample_helper, Started).
Proof.
  assert (H : ready_event sample_helper || false = true) by reflexivity.
  split; [exact H|].
  assert (Hne : startup_args sample_helper <> []) by discriminate.
  destruct (proj2 (start_async_runs_startup_command sample_spawn WatcherSleeping
                     false sample_helper sample_process H) Hne eq_refl) as [Ht Ho].
  destruct (start_async sample_spawn WatcherSleeping false sample_helper)
    as [[t s] o] eqn:E.
  cbn [fst snd] in Ht, Ho. subst t o.
  f_equal. f_equal.
  assert (Hs : snd (fst (start_async sample_spawn WatcherSleeping false sample_helper))
               = sample_helper)
    by reflexivity.
  rewrite E in Hs. exact Hs.
Defined.

(** X17. A start-up that fails has no rollback: when the ready event is
    not set in time [start_async] raises the timeout without spawning the
    start-up command, and when the spawn of the start-up command fails it
    raises that exception without waiting on a process. [start_async]
    itself closes and cancels nothing: however it ends, as long as the
    watcher it created has not returned in the meantime, the server is
    serving, the watcher task is pending and the latch is as it was. *)
Theorem start_async_failure_leaves_running
    (create_subprocess_exec : json -> result process)
    (progress : watcher_progress) (self : BubblejailHelper) :
  (ready_event self = false ->
     fst (fst (start_async create_subprocess_exec progress false self))
     = [StartUnixServer; CreateWatcherTask; WaitForReady 3]
     /\ snd (start_async create_subprocess_exec progress false self)
        = StartTimeoutError)
  /\ (forall ready_in_time e,
        ready_event self || ready_in_time = true ->
        startup_args self <> [] ->
        create_subprocess_exec (JList (map JStr (startup_args self))) = Raise e ->
        snd (start_async create_subprocess_exec progress ready_in_time self)
        = StartRaised e
        /\ ~ In (StartupCommand EvProcessWait)
               (fst (fst (start_async create_subprocess_exec progress
                            ready_in_time self))))
  /\ (forall ready_in_time,
        progress = WatcherSleeping ->
        server (snd (fst (start_async create_subprocess_exec progress
                            ready_in_time self)))
        = Some ServerServing
        /\ termninator_watcher_task
             (snd (fst (start_async create_subprocess_exec progress
                          ready_in_time self)))
           = Some TaskPending
        /\ terminated (snd (fst (start_async create_subprocess_exec progress
                                   ready_in_time self)))
           = terminated self).
Proof.
  split; [|split].
  - intros Hready. rewrite (start_async_timeout _ _ _ Hready). split; reflexivity.
  - intros ready_in_time e Hready Hargs Hspawn.
    rewrite (start_async_ready _ _ _ _ Hready). cbn zeta.
    destruct (startup_args self) as [|a args] eqn:E; [congruence|].
    rewrite Hspawn. cbn [fst snd].
    split; [reflexivity|].
    intros H. repeat (destruct H as [H | H]; [discriminate|]). exact H.
  - intros ready_in_time ->.
    destruct (start_async_state create_subprocess_exec WatcherSleeping
                ready_in_time self) as [ready ->].
    destruct self as [args srv term cmd timer task rdy].
    repeat split.
Qed.

Lemma start_async_failure_leaves_running_witness :
  ready_event (BubblejailHelper_init [str_lit "/bin/sh"] 5) = false
  /\ snd (start_async failing_spawn WatcherSleeping false
            (BubblejailHelper_init [str_lit "/bin/sh"] 5))
     = StartTimeoutError
  /\ server (snd (fst (start_async failing_spawn WatcherSleeping false
                         (BubblejailHelper_init [str_lit "/bin/sh"] 5))))
     = Some ServerServing
  /\ snd (start_async failing_spawn ShutdownFinished true
            (BubblejailHelper_init [str_lit "/bin/sh"] 5))
     = StartRaised OSError.
Proof.
  assert (H : ready_event (BubblejailHelper_init [str_lit "/bin/sh"] 5) = false)
    by reflexivity.
  split; [exact H|]. split; [|split].
  - exact (proj2 (proj1 (start_async_failure_leaves_running failing_spawn
                           WatcherSleeping
                           (BubblejailHelper_init [str_lit "/bin/sh"] 5)) H)).
  - exact (proj1 (proj2 (proj2 (start_async_failure_leaves_running failing_spawn
                                  WatcherSleeping
                                  (BubblejailHelper_init [str_lit "/bin/sh"] 5)))
                    false eq_refl)).
  - assert (Hne : startup_args (BubblejailHelper_init [str_lit "/bin/sh"] 5) <> [])
      by discriminate.
    exact (proj1 (proj1 (proj2 (start_async_failure_leaves_running failing_spawn
                                  ShutdownFinished
                                  (BubblejailHelper_init [str_lit "/bin/sh"] 5)))
                    true OSError eq_refl Hne eq_refl)).
Defined.

(** X18. Stopping a started helper: whatever state the helper was in
    before, and however [start_async] ended, a graceful stop afterwards
    closes the server, waits for it and sets the latch; it cancels and
    awaits the watcher first exactly when the watcher has not returned by
    then. A helper that was constructed and never started only has its
    latch set. *)
Theorem stop_after_start (create_subprocess_exec : json -> result process)
    (progress : watcher_progress) (ready_in_time : bool) (self : BubblejailHelper)
    (startup_args : list pystr) (reaper_pool_timer : Z) :
  fst (fst (stop_async awaits_complete
              (snd (fst (start_async create_subprocess_exec progress
                           ready_in_time self)))))
  = match progress with
    | WatcherSleeping => [EvWatcherCancel; EvAwaitWatcher]
    | _ => []
    end ++ [EvServerClose; EvServerWaitClosed; EvTerminatedSet; EvPrintTerminated]
  /\ fst (fst (stop_async awaits_complete
                 (BubblejailHelper_init startup_args reaper_pool_timer)))
     = [EvTerminatedSet; EvPrintTerminated].
Proof.
  split; [|reflexivity].
  rewrite stop_async_completes. cbn [fst].
  destruct (start_async_state create_subprocess_exec progress ready_in_time self)
    as [ready ->].
  destruct self as [args srv term cmd timer task rdy].
  destruct progress; reflexivity.
Qed.

(** ** The search of [/proc] for a command name *)

Lemma span_word_no_space (s : pystr) : ProcTree.no_space (fst (ProcTree.span_word s)).
Proof.
  induction s as [|c s IH]; simpl; [constructor|].
  destruct (ProcTree.isspace c) eqn:E; [constructor|].
  destruct (ProcTree.span_word s) as [w r]. simpl in *. constructor; assumption.
Qed.

Lemma span_word_app (w : pystr) (c : Z) (r : pystr) :
  ProcTree.no_space w -> ProcTree.isspace c = true ->
  ProcTree.span_word (w ++ c :: r) = (w, c :: r).
Proof.
  intros Hw Hc. induction Hw as [|x w Hx Hw IH]; simpl.
  - rewrite Hc. reflexivity.
  - rewrite Hx, IH. reflexivity.
Qed.

Lemma span_word_all (w : pystr) :
  ProcTree.no_space w -> ProcTree.span_word w = (w, []).
Proof.
  intros Hw. induction Hw as [|x w Hx Hw IH]; simpl; [reflexivity|].
  rewrite Hx, IH. reflexivity.
Qed.

Lemma lstrip_word (w s : pystr) :
  w <> [] -> ProcTree.no_space w -> ProcTree.lstrip (w ++ s) = w ++ s.
Proof.
  intros Hne Hw. destruct Hw as [|x w Hx Hw]; [congruence|].
  simpl. rewrite Hx. reflexivity.
Qed.

Lemma lstrip_all_space (p s : pystr) :
  ProcTree.all_space p -> ProcTree.lstrip (p ++ s) = ProcTree.lstrip s.
Proof.
  intros Hp. induction Hp as [|x p Hx Hp IH]; simpl; [reflexivity|].
  rewrite Hx. exact IH.
Qed.

Lemma removelast_Forall {A} (P : A -> Prop) (l : list A) :
  Forall P l -> Forall P (removelast l).
Proof.
  intros H. induction H as [|x l Hx Hl IH]; simpl; [constructor|].
  destruct l; [constructor|]. constructor; assumption.
Qed.

Lemma strip_ends_no_space (w : pystr) :
  ProcTree.no_space w -> ProcTree.no_space (ProcTree.strip_ends w).
Proof.
  intros Hw. unfold ProcTree.strip_ends. apply removelast_Forall.
  destruct Hw; simpl; [constructor | assumption].
Qed.

Lemma split_item_1_no_space (s w : pystr) :
  ProcTree.split_item_1 s = Some w -> ProcTree.no_space w.
Proof.
  unfold ProcTree.split_item_1.
  destruct (ProcTree.lstrip s) as [|c1 s1]; [discriminate|].
  destruct (ProcTree.lstrip (snd (ProcTree.span_word (c1 :: s1)))) as [|c2 s2];
    [discriminate|].
  intros [= <-]. exact (span_word_no_space (c2 :: s2)).
Qed.

(** The second of two or more fields. *)
Lemma split_item_1_fields (a b rest : pystr) (c1 c2 : Z) :
  a <> [] -> ProcTree.no_space a -> ProcTree.isspace c1 = true ->
  b <> [] -> ProcTree.no_space b -> ProcTree.isspace c2 = true ->
  ProcTree.split_item_1 (a ++ c1 :: b ++ c2 :: rest) = Some b.
Proof.
  intros Ha Hsa Hc1 Hb Hsb Hc2. unfold ProcTree.split_item_1.
  rewrite (lstrip_word a _ Ha Hsa).
  destruct (a ++ c1 :: b ++ c2 :: rest) as [|x l] eqn:E;
    [destruct a; discriminate|].
  rewrite <- E. rewrite (span_word_app a c1 _ Hsa Hc1). cbn [snd].
  change (c1 :: b ++ c2 :: rest) with ([c1] ++ b ++ c2 :: rest).
  rewrite (lstrip_all_space [c1]) by (repeat constructor; exact Hc1).
  rewrite (lstrip_word b _ Hb Hsb).
  destruct (b ++ c2 :: rest) as [|y l'] eqn:E';
    [destruct b; discriminate|].
  rewrite <- E'. rewrite (span_word_app b c2 _ Hsb Hc2). reflexivity.
Qed.

(** Fewer than two fields: [IndexError]. *)
Lemma split_item_1_short (pad1 w pad2 : pystr) :
  ProcTree.all_space pad1 -> ProcTree.no_space w -> ProcTree.all_space pad2 ->
  ProcTree.split_item_1 (pad1 ++ w ++ pad2) = None.
Proof.
  intros H1 Hw H2. unfold ProcTree.split_item_1.
  rewrite (lstrip_all_space pad1 _ H1).
  assert (Hpad : ProcTree.lstrip pad2 = []).
  { rewrite <- (app_nil_r pad2). rewrite (lstrip_all_space pad2 [] H2). reflexivity. }
  destruct w as [|x w].
  - simpl. rewrite Hpad. reflexivity.
  - rewrite (lstrip_word (x :: w) pad2) by (congruence || assumption).
    cbn [app].
    change (x :: w ++ pad2) with ((x :: w) ++ pad2).
    destruct pad2 as [|c pad2'].
    + rewrite app_nil_r. rewrite (span_word_all _ Hw). reflexivity.
    + rewrite (span_word_app (x :: w) c pad2' Hw) by (inversion H2; assumption).
      cbn [snd]. rewrite Hpad. reflexivity.
Qed.

Lemma stat_record_second_field (pid comm fields : pystr) :
  pid <> [] -> ProcTree.no_space pid -> ProcTree.no_space comm ->
  ProcTree.split_item_1 (ProcTree.stat_record pid comm fields)
  = Some (40 :: comm ++ [41]).
Proof.
  intros Hpid Hspid Hcomm. unfold ProcTree.stat_record.
  replace (pid ++ 32 :: 40 :: comm ++ 41 :: 32 :: fields)
    with (pid ++ 32 :: (40 :: comm ++ [41]) ++ 32 :: fields)
    by (cbn [app]; rewrite <- app_assoc; reflexivity).
  apply split_item_1_fields; try assumption; try reflexivity; try discriminate.
  constructor; [reflexivity|].
  apply Forall_app. split; [assumption | repeat constructor].
Qed.

Lemma strip_ends_brackets (comm : pystr) :
  ProcTree.strip_ends (40 :: comm ++ [41]) = comm.
Proof. unfold ProcTree.strip_ends. cbn [tl]. apply removelast_last. Qed.

Lemma search_passed_over (process_command : pystr)
    (before rest : list ProcTree.proc_item) :
  Forall (ProcTree.passed_over process_command) before ->
  ProcTree.proc_has_process_command (before ++ rest) process_command
  = ProcTree.proc_has_process_command rest process_command.
Proof.
  intros H. unfold ProcTree.proc_has_process_command,
    ProcTree.iter_proc_process_directories.
  induction H as [|item before Hitem Hbefore IH]; [reflexivity|].
  cbn [app filter].
  destruct (ProcTree.name_isnumeric item) eqn:Hnum; [|exact IH].
  cbn [ProcTree.search_process_dirs].
  destruct Hitem as [Hn | [Hnone | (contents & w & Hstat & Hsplit & Hneq)]].
  - congruence.
  - rewrite Hnone. exact IH.
  - rewrite Hstat, Hsplit.
    assert (Hne : str_eqb process_command (ProcTree.strip_ends w) = false)
      by (apply str_eqb_neq; congruence).
    rewrite Hne. exact IH.
Qed.

Lemma search_found (dirs : list ProcTree.proc_item) (process_command : pystr) :
  ProcTree.search_process_dirs dirs process_command = ProcTree.Found ->
  exists item contents w,
    In item dirs /\ ProcTree.stat_file item = Some contents
    /\ ProcTree.split_item_1 contents = Some w
    /\ ProcTree.strip_ends w = process_command.
Proof.
  induction dirs as [|item dirs IH]; simpl; [discriminate|].
  destruct (ProcTree.stat_file item) as [contents|] eqn:Hstat.
  - destruct (ProcTree.split_item_1 contents) as [w|] eqn:Hsplit; [|discriminate].
    destruct (str_eqb process_command (ProcTree.strip_ends w)) eqn:Heq.
    + intros _. exists item, contents, w.
      apply str_eqb_eq in Heq. auto.
    + intros H. destruct (IH H) as (i & c & w' & Hin & Hrest).
      exists i, c, w'. auto.
  - intros H. destruct (IH H) as (i & c & w' & Hin & Hrest).
    exists i, c, w'. auto.
Qed.

Lemma found_in_numeric_entry (proc_path : list ProcTree.proc_item)
    (process_command : pystr) :
  ProcTree.proc_has_process_command proc_path process_command = ProcTree.Found ->
  exists item contents w,
    In item proc_path /\ ProcTree.name_isnumeric item = true
    /\ ProcTree.stat_file item = Some contents
    /\ ProcTree.split_item_1 contents = Some w
    /\ ProcTree.strip_ends w = process_command.
Proof.
  intros H. unfold ProcTree.proc_has_process_command in H.
  destruct (search_found _ _ H) as (item & contents & w & Hin & Hstat & Hsplit & Hw).
  unfold ProcTree.iter_proc_process_directories in Hin.
  apply filter_In in Hin. destruct Hin as [Hin Hnum].
  exists item, contents, w. auto.
Qed.

(** X19. A command name is found only as the second white-space
    separated field of the [stat] file of an entry with a numeric name,
    its first and last character dropped; so a name that is found holds
    no white space, and a command name with a blank in it is never
    found, whatever [/proc] holds. *)
Theorem found_command_is_second_field (proc_path : list ProcTree.proc_item)
    (process_command : pystr) :
  ProcTree.proc_has_process_command proc_path process_command = ProcTree.Found ->
  (exists item contents w,
     In item proc_path /\ ProcTree.name_isnumeric item = true
     /\ ProcTree.stat_file item = Some contents
     /\ ProcTree.split_item_1 contents = Some w
     /\ ProcTree.strip_ends w = process_command)
  /\ ProcTree.no_space process_command.
Proof.
  intros H. split; [exact (found_in_numeric_entry _ _ H)|].
  destruct (found_in_numeric_entry _ _ H)
    as (item & contents & w & _ & _ & _ & Hsplit & Hw).
  rewrite <- Hw. apply strip_ends_no_space.
  exact (split_item_1_no_space _ _ Hsplit).
Qed.

Lemma found_command_is_second_field_witness :
  ProcTree.proc_has_process_command ProcTree.sample_proc ProcTree.comm_helper
  = ProcTree.Found
  /\ ProcTree.no_space ProcTree.comm_helper.
Proof.
  assert (H : ProcTree.proc_has_process_command ProcTree.sample_proc
                ProcTree.comm_helper = ProcTree.Found) by reflexivity.
  split; [exact H|].
  exact (proj2 (found_command_is_second_field _ _ H)).
Defined.

(** X20. A process is found by its command name: when [/proc] holds a
    numeric entry whose [stat] file reads [pid (comm) fields], the
    command name free of white space, and the entries listed before it
    are passed over (no numeric name, no [stat] file any more, or another
    command), the search for [comm] answers [True]; what comes after the
    entry is not looked at. *)
Theorem proc_has_process_command_finds
    (before after : list ProcTree.proc_item) (item : ProcTree.proc_item)
    (pid comm fields : pystr) :
  Forall (ProcTree.passed_over comm) before ->
  ProcTree.name_isnumeric item = true ->
  ProcTree.stat_file item = Some (ProcTree.stat_record pid comm fields) ->
  pid <> [] -> ProcTree.no_space pid -> ProcTree.no_space comm ->
  ProcTree.proc_has_process_command (before ++ item :: after) comm = ProcTree.Found.
Proof.
  intros Hbefore Hnum Hstat Hpid Hspid Hcomm.
  rewrite (search_passed_over _ _ _ Hbefore).
  unfold ProcTree.proc_has_process_command, ProcTree.iter_proc_process_directories.
  cbn [filter]. rewrite Hnum. cbn [ProcTree.search_process_dirs].
  rewrite Hstat, (stat_record_second_field _ _ _ Hpid Hspid Hcomm).
  rewrite strip_ends_brackets, str_eqb_refl. reflexivity.
Qed.

Lemma sample_passed_over (process_command : pystr) :
  Forall (ProcTree.passed_over process_command)
    [ProcTree.item_self; ProcTree.item_gone].
Proof.
  constructor; [left; reflexivity|].
  constructor; [right; left; reflexivity | constructor].
Qed.

Lemma no_space_pid_1 : ProcTree.no_space ProcTree.pid_1.
Proof. repeat constructor. Qed.

Lemma no_space_pid_42 : ProcTree.no_space ProcTree.pid_42.
Proof. repeat constructor. Qed.

Lemma no_space_comm_helper : ProcTree.no_space ProcTree.comm_helper.
Proof. repeat constructor. Qed.

Lemma no_space_comm_web : ProcTree.no_space ProcTree.comm_web.
Proof. repeat constructor. Qed.

Lemma proc_has_process_command_finds_witness :
  ProcTree.proc_has_process_command
    ([ProcTree.item_self; ProcTree.item_gone]
       ++ ProcTree.item_helper :: [ProcTree.item_web_content])
    ProcTree.comm_helper = ProcTree.Found.
Proof.
  apply (proc_has_process_command_finds _ _ ProcTree.item_helper
           ProcTree.pid_1 ProcTree.comm_helper ProcTree.sample_fields).
  - apply sample_passed_over.
  - reflexivity.
  - reflexivity.
  - discriminate.
  - apply no_space_pid_1.
  - apply no_space_comm_helper.
Defined.

(** X21. A [stat] file with fewer than two fields is not survived: only
    [FileNotFoundError] is caught, so when the search reaches a numeric
    entry whose [stat] file holds at most one word, the indexing raises
    [IndexError] out of [proc_has_process_command], whatever the entries
    after it hold. *)
Theorem proc_has_process_command_index_error
    (before after : list ProcTree.proc_item) (item : ProcTree.proc_item)
    (process_command pad1 w pad2 : pystr) :
  Forall (ProcTree.passed_over process_command) before ->
  ProcTree.name_isnumeric item = true ->
  ProcTree.stat_file item = Some (pad1 ++ w ++ pad2) ->
  ProcTree.all_space pad1 -> ProcTree.no_space w -> ProcTree.all_space pad2 ->
  ProcTree.proc_has_process_command (before ++ item :: after) process_command
  = ProcTree.RaisesIndexError.
Proof.
  intros Hbefore Hnum Hstat H1 Hw H2.
  rewrite (search_passed_over _ _ _ Hbefore).
  unfold ProcTree.proc_has_process_command, ProcTree.iter_proc_process_directories.
  cbn [filter]. rewrite Hnum. cbn [ProcTree.search_process_dirs].
  rewrite Hstat, (split_item_1_short _ _ _ H1 Hw H2). reflexivity.
Qed.

Lemma proc_has_process_command_index_error_witness :
  ProcTree.proc_has_process_command
    ([ProcTree.item_self; ProcTree.item_gone]
       ++ ProcTree.item_short :: [ProcTree.item_helper])
    ProcTree.comm_helper = ProcTree.RaisesIndexError.
Proof.
  apply (proc_has_process_command_index_error _ _ ProcTree.item_short
           _ [32] ProcTree.pid_42 [10]).
  - apply sample_passed_over.
  - reflexivity.
  - reflexivity.
  - repeat constructor.
  - apply no_space_pid_42.
  - repeat constructor.
Defined.

(** X22. A command name with a blank in it is cut short: when the
    [stat] file reads [pid (first rest) fields], the search compares with
    the word [first] less its last character; the process is found under
    that, and not under its command name. *)
Theorem spaced_command_is_cut_short
    (before after : list ProcTree.proc_item) (item : ProcTree.proc_item)
    (pid first rest fields : pystr) (c : Z) :
  Forall (ProcTree.passed_over (removelast first)) before ->
  ProcTree.name_isnumeric item = true ->
  ProcTree.stat_file item
  = Some (ProcTree.stat_record pid (first ++ c :: rest) fields) ->
  pid <> [] -> ProcTree.no_space pid ->
  ProcTree.no_space first -> ProcTree.isspace c = true ->
  ProcTree.proc_has_process_command (before ++ item :: after) (removelast first)
  = ProcTree.Found
  /\ ProcTree.proc_has_process_command (before ++ item :: after)
       (first ++ c :: rest) <> ProcTree.Found.
Proof.
  intros Hbefore Hnum Hstat Hpid Hspid Hfirst Hc. split.
  - rewrite (search_passed_over _ _ _ Hbefore).
    unfold ProcTree.proc_has_process_command, ProcTree.iter_proc_process_directories.
    cbn [filter]. rewrite Hnum. cbn [ProcTree.search_process_dirs].
    rewrite Hstat. unfold ProcTree.stat_record.
    replace (pid ++ 32 :: 40 :: (first ++ c :: rest) ++ 41 :: 32 :: fields)
      with (pid ++ 32 :: (40 :: first) ++ c :: (rest ++ 41 :: 32 :: fields))
      by (cbn [app]; rewrite <- app_assoc; reflexivity).
    rewrite split_item_1_fields; try assumption; try reflexivity; try discriminate.
    + unfold ProcTree.strip_ends. cbn [tl]. rewrite str_eqb_refl. reflexivity.
    + constructor; [reflexivity | assumption].
  - intros Hfound.
    destruct (found_in_numeric_entry _ _ Hfound)
      as (i & contents & w & _ & _ & _ & Hsplit & Hw).
    assert (Hns : ProcTree.no_space (first ++ c :: rest)).
    { rewrite <- Hw. apply strip_ends_no_space.
      exact (split_item_1_no_space _ _ Hsplit). }
    apply Forall_app in Hns. destruct Hns as [_ Hns].
    inversion Hns; congruence.
Qed.

Lemma spaced_command_is_cut_short_witness :
  ProcTree.proc_has_process_command
    ([ProcTree.item_self; ProcTree.item_gone]
       ++ ProcTree.item_web_content :: [])
    (removelast ProcTree.comm_web) = ProcTree.Found
  /\ ProcTree.proc_has_process_command
       ([ProcTree.item_self; ProcTree.item_gone]
          ++ ProcTree.item_web_content :: [])
       (ProcTree.comm_web ++ 32 :: ProcTree.comm_content) <> ProcTree.Found.
Proof.
  apply (spaced_command_is_cut_short _ _ ProcTree.item_web_content
           ProcTree.pid_42 ProcTree.comm_web ProcTree.comm_content
           ProcTree.sample_fields 32).
  - apply sample_passed_over.
  - reflexivity.
  - reflexivity.
  - discriminate.
  - apply no_space_pid_42.
  - apply no_space_comm_web.
  - reflexivity.
Defined.
